(** * The friend pipeline of the Nakama server (server/pipeline_friend.go)

    A shallow embedding of the social-graph operations: the bulk import of
    Facebook friends, the friend list, and the add / remove / block
    requests of a session.  The SQL store is modelled as three tables of
    rows, a transaction as a working copy of the tables that [Commit]
    installs and [Rollback] discards, and the handlers as state-passing
    functions over a [World] that also records what was sent to the
    session, what was logged and which notifications were dispatched. *)

From Stdlib Require Import List ZArith Bool String Strings.Byte Lia Permutation.
Import ListNotations.

Local Open Scope string_scope.
Local Open Scope list_scope.
Local Open Scope Z_scope.

Set Implicit Arguments.

(** ** Byte slices and identifiers *)

Definition bytes := list byte.

Fixpoint bytes_eqb (a b : bytes) : bool :=
  match a, b with
  | [], [] => true
  | x :: a', y :: b' => Byte.eqb x y && bytes_eqb a' b'
  | _, _ => false
  end.

(** satori/go.uuid: [type UUID [16]byte].  [FromBytes] is the library's
    constructor; it fails unless the slice holds exactly 16 bytes. *)
Record UUID := mkUUID { Bytes : bytes }.

Definition FromBytes (input : bytes) : option UUID :=
  if (Z.of_nat (List.length input) =? 16) then Some (mkUUID input) else None.

(** Go's [==] on two [UUID] arrays. *)
Definition uuid_eqb (a b : UUID) : bool := bytes_eqb (Bytes a) (Bytes b).

(** ** The tables

    Columns as the queries of the file name them.  The DDL is not part of
    this file; nullable columns are those the code scans into
    [sql.NullString] / [sql.NullInt64]. *)

Record UserRow := mkUserRow {
  u_id : bytes;
  u_handle : option string;
  u_fullname : option string;
  u_avatar_url : option string;
  u_lang : option string;
  u_location : option string;
  u_timezone : option string;
  u_metadata : bytes;
  u_created_at : option Z;
  u_updated_at : option Z;
  u_last_online_at : option Z;
  u_facebook_id : option string
}.

(** [state]: 0 is a friend, 3 is a block. *)
Definition CONNECTED : Z := 0.
Definition BLOCKED : Z := 3.

Record EdgeRow := mkEdgeRow {
  e_source_id : bytes;
  e_position : Z;
  e_updated_at : Z;
  e_destination_id : bytes;
  e_state : Z
}.

Record MetaRow := mkMetaRow {
  m_source_id : bytes;
  m_count : Z;
  m_updated_at : Z
}.

Record DB := mkDB {
  users : list UserRow;
  user_edge : list EdgeRow;
  user_edge_metadata : list MetaRow
}.

Definition with_user_edge (d : DB) (es : list EdgeRow) : DB :=
  mkDB (users d) es (user_edge_metadata d).

Definition with_user_edge_metadata (d : DB) (ms : list MetaRow) : DB :=
  mkDB (users d) (user_edge d) ms.

(** The WHERE clause [source_id = $1 AND destination_id = $2]. *)
Definition edge_matches (source destination : bytes) (r : EdgeRow) : bool :=
  bytes_eqb (e_source_id r) source && bytes_eqb (e_destination_id r) destination.

(** The rows of [user_edge] from [source] to [destination]. *)
Definition rows_between (es : list EdgeRow) (source destination : bytes) : list EdgeRow :=
  filter (edge_matches source destination) es.

(** The aggregate counter of a user: the [count] column of its metadata
    row, when it has one. *)
Definition counter (ms : list MetaRow) (source : bytes) : option Z :=
  option_map m_count (find (fun r => bytes_eqb (m_source_id r) source) ms).

Definition count_of (d : DB) (source : bytes) : option Z :=
  counter (user_edge_metadata d) source.

Definition edges_between (d : DB) (source destination : bytes) : list EdgeRow :=
  rows_between (user_edge d) source destination.

(** The semantic key of an edge row (spec, data model: an edge is keyed by
    source and destination). *)
Definition edge_key (r : EdgeRow) : bytes * bytes :=
  (e_source_id r, e_destination_id r).

Definition unique_edges (es : list EdgeRow) : Prop := NoDup (map edge_key es).

Fixpoint key_in (k : bytes * bytes) (ks : list (bytes * bytes)) : bool :=
  match ks with
  | [] => false
  | k' :: ks' => (bytes_eqb (fst k) (fst k') && bytes_eqb (snd k) (snd k')) || key_in k ks'
  end.

Fixpoint keys_distinct (ks : list (bytes * bytes)) : bool :=
  match ks with
  | [] => true
  | k :: ks' => negb (key_in k ks') && keys_distinct ks'
  end.

(** ** Statements

    The statements the file executes, with their positional parameters.
    The two statements of the import are assembled at run time; they carry
    the parameter slice the code builds for them. *)

Inductive Param :=
| PBytes (b : bytes)
| PInt (z : Z).

Inductive Stmt :=
(* DELETE FROM user_edge WHERE source_id = $1 AND destination_id = $2 *)
| DeleteEdge (source destination : bytes)
(* DELETE FROM user_edge WHERE source_id = $1 AND destination_id = $2 AND state != 3 *)
| DeleteEdgeNotBlocked (source destination : bytes)
(* UPDATE user_edge_metadata SET count = count - 1, updated_at = $2 WHERE source_id = $1 *)
| DecrementCount (source : bytes) (updated_at : Z)
(* UPDATE user_edge SET state = 3, updated_at = $3 WHERE source_id = $1 AND destination_id = $2 *)
| BlockEdge (source destination : bytes) (updated_at : Z)
(* INSERT INTO user_edge (source_id, position, updated_at, destination_id, state)
   VALUES ($1, $2, $2, $3, 0), ($3, $2, $2, $1, 0), ($1, $2, $2, $4, 0), ... *)
| InsertEdges (paramsEdge : list Param)
(* UPDATE user_edge_metadata SET count = count + 1, updated_at = $1 WHERE source_id IN ($2, $3, ...) *)
| IncrementCounts (paramsEdgeMetadata : list Param)
(* UPDATE user_edge_metadata SET count = $1, updated_at = $2 WHERE source_id = $3 *)
| SetCount (count : Z) (updated_at : Z) (source : bytes).

(** The byte-slice parameters of a slice of parameters. *)
Fixpoint param_ids (ps : list Param) : list bytes :=
  match ps with
  | [] => []
  | PBytes b :: ps' => b :: param_ids ps'
  | PInt _ :: ps' => param_ids ps'
  end.

Definition id_in (b : bytes) (ids : list bytes) : bool :=
  existsb (bytes_eqb b) ids.

(** The VALUES list of the import: for each peer the row from the user to
    the peer and the row back. *)
Fixpoint mirrored_rows (userID : bytes) (ts : Z) (peers : list bytes) : list EdgeRow :=
  match peers with
  | [] => []
  | p :: peers' =>
      mkEdgeRow userID ts ts p CONNECTED
        :: mkEdgeRow p ts ts userID CONNECTED
        :: mirrored_rows userID ts peers'
  end.

Definition count_where {A : Type} (f : A -> bool) (l : list A) : Z :=
  Z.of_nat (List.length (filter f l)).

Definition update_where {A : Type} (f : A -> bool) (g : A -> A) (l : list A) : list A :=
  map (fun r => if f r then g r else r) l.

Definition delete_where {A : Type} (f : A -> bool) (l : list A) : list A :=
  filter (fun r => negb (f r)) l.

(** The effect of each statement on the tables. *)
Definition delete_edge (source destination : bytes) (d : DB) : DB :=
  with_user_edge d (delete_where (edge_matches source destination) (user_edge d)).

Definition not_blocked (source destination : bytes) (r : EdgeRow) : bool :=
  edge_matches source destination r && negb (e_state r =? 3).

Definition delete_edge_not_blocked (source destination : bytes) (d : DB) : DB :=
  with_user_edge d (delete_where (not_blocked source destination) (user_edge d)).

Definition meta_of (source : bytes) (r : MetaRow) : bool :=
  bytes_eqb (m_source_id r) source.

Definition decrement_count (source : bytes) (updated_at : Z) (d : DB) : DB :=
  with_user_edge_metadata d
    (update_where (meta_of source)
       (fun r => mkMetaRow (m_source_id r) (m_count r - 1) updated_at)
       (user_edge_metadata d)).

Definition block_edge (source destination : bytes) (updated_at : Z) (d : DB) : DB :=
  with_user_edge d
    (update_where (edge_matches source destination)
       (fun r => mkEdgeRow (e_source_id r) (e_position r) updated_at (e_destination_id r) 3)
       (user_edge d)).

Definition meta_in (ids : list bytes) (r : MetaRow) : bool :=
  id_in (m_source_id r) ids.

Definition increment_counts (ids : list bytes) (updated_at : Z) (d : DB) : DB :=
  with_user_edge_metadata d
    (update_where (meta_in ids)
       (fun r => mkMetaRow (m_source_id r) (m_count r + 1) updated_at)
       (user_edge_metadata d)).

Definition set_count (count updated_at : Z) (source : bytes) (d : DB) : DB :=
  with_user_edge_metadata d
    (update_where (meta_of source)
       (fun r => mkMetaRow (m_source_id r) count updated_at)
       (user_edge_metadata d)).

(** [exec_stmt s d]: the tables after the statement and the number of
    rows it affected, or [None] when the store rejects it.

    Modelled from the spec: the schema of [user_edge] is not in this file.
    The spec keys an edge by (source_id, destination_id), so an INSERT
    that would give two rows one key is rejected as a whole. *)
Definition exec_stmt (s : Stmt) (d : DB) : option (DB * Z) :=
  match s with
  | DeleteEdge source destination =>
      Some (delete_edge source destination d,
            count_where (edge_matches source destination) (user_edge d))
  | DeleteEdgeNotBlocked source destination =>
      Some (delete_edge_not_blocked source destination d,
            count_where (not_blocked source destination) (user_edge d))
  | DecrementCount source updated_at =>
      Some (decrement_count source updated_at d,
            count_where (meta_of source) (user_edge_metadata d))
  | BlockEdge source destination updated_at =>
      Some (block_edge source destination updated_at d,
            count_where (edge_matches source destination) (user_edge d))
  | InsertEdges (PBytes userID :: PInt ts :: peers) =>
      let new := mirrored_rows userID ts (param_ids peers) in
      if keys_distinct (map edge_key (user_edge d ++ new))
      then Some (with_user_edge d (user_edge d ++ new), Z.of_nat (List.length new))
      else None
  | InsertEdges _ => None
  | IncrementCounts (PInt ts :: peers) =>
      Some (increment_counts (param_ids peers) ts d,
            count_where (meta_in (param_ids peers)) (user_edge_metadata d))
  | IncrementCounts _ => None
  | SetCount count updated_at source =>
      Some (set_count count updated_at source d,
            count_where (meta_of source) (user_edge_metadata d))
  end.

(** ** Go values of the package *)

(** An [error] value: a [*pq.Error] raised by the store, or any other
    error (a driver error, [errors.New]). *)
Inductive GoError :=
| PqError (msg : string)
| OtherError (msg : string).

(** [sql.Result].  [database/sql] hands back the nil interface together
    with a non-nil error; calling a method on it is a nil dereference. *)
Inductive Result :=
| nil_Result
| driverResult (rowsAffected : Z).

(** [res.RowsAffected()]: [None] is the run-time panic on a nil [res]. *)
Definition RowsAffected (res : Result) : option Z :=
  match res with
  | nil_Result => None
  | driverResult n => Some n
  end.

Record User := mkUser {
  Id : bytes;
  Handle : string;
  Fullname : string;
  AvatarUrl : string;
  Lang : string;
  Location : string;
  Timezone : string;
  Metadata : bytes;
  CreatedAt : Z;
  UpdatedAt : Z;
  LastOnlineAt : Z
}.

Record Friend := mkFriend {
  Friend_User : User;
  State : Z
}.

Inductive NotificationCode := NOTIFICATION_FRIEND_JOIN_GAME.

Record NNotification := mkNNotification {
  NId : bytes;
  NUserID : bytes;
  NSubject : string;
  (* json.Marshal of a map of strings: the pairs in key order *)
  NContent : list (string * string);
  NCode : NotificationCode;
  NSenderID : bytes;
  NCreatedAt : Z;
  NExpiresAt : Z;
  NPersistent : bool
}.

(** The [oneof id] of an entry of a friends-add request. *)
Inductive TFriendsAdd_FriendsAdd :=
| FriendsAdd_unset
| TFriendsAdd_FriendsAdd_UserId (UserId : bytes)
| TFriendsAdd_FriendsAdd_Handle (FriendHandle : string).

Inductive ErrorCode := RUNTIME_EXCEPTION | BAD_INPUT.

Inductive EnvelopePayload :=
| Envelope_nil
| Envelope_Error (Code : ErrorCode) (Message : string)
| Envelope_FriendsAdd (Friends : list TFriendsAdd_FriendsAdd)
| Envelope_FriendsRemove (UserIds : list bytes)
| Envelope_FriendsBlock (UserIds : list bytes)
| Envelope_Friends (Friends : list Friend).

Record Envelope := mkEnvelope {
  CollationId : string;
  Payload : EnvelopePayload
}.

(** Modelled from the spec: the two constructors of error responses are
    declared elsewhere in the package; the spec calls them the validation
    error and the generic runtime failure. *)
Definition ErrorMessageBadInput (collationID message : string) : Envelope :=
  mkEnvelope collationID (Envelope_Error BAD_INPUT message).

Definition ErrorMessageRuntimeException (collationID message : string) : Envelope :=
  mkEnvelope collationID (Envelope_Error RUNTIME_EXCEPTION message).

(** The generated getters: nil when the payload is of another kind. *)
Definition GetFriendsAdd (envelope : Envelope) : option (list TFriendsAdd_FriendsAdd) :=
  match Payload envelope with Envelope_FriendsAdd fs => Some fs | _ => None end.

Definition GetFriendsRemove (envelope : Envelope) : option (list bytes) :=
  match Payload envelope with Envelope_FriendsRemove ids => Some ids | _ => None end.

Definition GetFriendsBlock (envelope : Envelope) : option (list bytes) :=
  match Payload envelope with Envelope_FriendsBlock ids => Some ids | _ => None end.

(** The authenticated actor of a request. *)
Record session := mkSession {
  UserID : UUID;
  SessionHandle : string
}.

(** ** The world a handler runs in *)

Inductive Level := LDebug | LInfo | LWarn | LError.

Inductive StoreCall :=
| CallBegin
| CallQuery
| CallExec (s : Stmt)
| CallCommit
| CallRollback.

Record World := mkWorld {
  db : DB;                                    (* the committed tables *)
  tx : option DB;                             (* the tables as the open transaction sees them *)
  faults : list (option GoError);             (* what the next calls to the store or the
                                                 notification service answer; none left: success *)
  clock : nat -> Z;                           (* the readings of nowMs() *)
  ticks : nat;
  uuid_source : nat -> bytes;                 (* the values of uuid.NewV4() *)
  uuid_drawn : nat;
  facebook : string -> list string * option GoError;   (* the social client, by access token *)
  expiryMs : Z;
  sent : list Envelope;                       (* session.Send, oldest first *)
  logged : list (Level * string);
  calls : list (StoreCall * bool);            (* calls to the store and whether they succeeded *)
  dispatched : list (list NNotification)      (* batches given to NotificationSend *)
}.

Definition M (A : Type) : Type := World -> A * World.

Definition ret {A : Type} (a : A) : M A := fun w => (a, w).

Definition bind {A B : Type} (m : M A) (k : A -> M B) : M B :=
  fun w => let (a, w') := m w in k a w'.

Declare Scope go_scope.
Delimit Scope go_scope with go.
Notation "x <- m ;; k" := (bind m (fun x => k))
  (at level 61, m at next level, right associativity) : go_scope.
Notation "' p <- m ;; k" := (bind m (fun x => let p := x in k))
  (at level 61, p pattern, m at next level, right associativity) : go_scope.
Notation "m ;; k" := (bind m (fun _ => k))
  (at level 61, right associativity) : go_scope.
Local Open Scope go_scope.

Definition update_store (f : DB -> DB) (g : option DB -> option DB) : M unit :=
  fun w => (tt, mkWorld (f (db w)) (g (tx w)) (faults w) (clock w) (ticks w)
                        (uuid_source w) (uuid_drawn w) (facebook w) (expiryMs w)
                        (sent w) (logged w) (calls w) (dispatched w)).

Definition next_fault : M (option GoError) :=
  fun w => (hd None (faults w),
            mkWorld (db w) (tx w) (tl (faults w)) (clock w) (ticks w)
                    (uuid_source w) (uuid_drawn w) (facebook w) (expiryMs w)
                    (sent w) (logged w) (calls w) (dispatched w)).

Definition nowMs : M Z :=
  fun w => (clock w (ticks w),
            mkWorld (db w) (tx w) (faults w) (clock w) (S (ticks w))
                    (uuid_source w) (uuid_drawn w) (facebook w) (expiryMs w)
                    (sent w) (logged w) (calls w) (dispatched w)).

Definition NewV4 : M bytes :=
  fun w => (uuid_source w (uuid_drawn w),
            mkWorld (db w) (tx w) (faults w) (clock w) (ticks w)
                    (uuid_source w) (S (uuid_drawn w)) (facebook w) (expiryMs w)
                    (sent w) (logged w) (calls w) (dispatched w)).

Definition Send (response : Envelope) : M unit :=
  fun w => (tt, mkWorld (db w) (tx w) (faults w) (clock w) (ticks w)
                        (uuid_source w) (uuid_drawn w) (facebook w) (expiryMs w)
                        (sent w ++ [response]) (logged w) (calls w) (dispatched w)).

Definition log (l : Level) (msg : string) : M unit :=
  fun w => (tt, mkWorld (db w) (tx w) (faults w) (clock w) (ticks w)
                        (uuid_source w) (uuid_drawn w) (facebook w) (expiryMs w)
                        (sent w) (logged w ++ [(l, msg)]) (calls w) (dispatched w)).

Definition called (c : StoreCall) (ok : bool) : M unit :=
  fun w => (tt, mkWorld (db w) (tx w) (faults w) (clock w) (ticks w)
                        (uuid_source w) (uuid_drawn w) (facebook w) (expiryMs w)
                        (sent w) (logged w) (calls w ++ [(c, ok)]) (dispatched w)).

Definition read {A : Type} (f : World -> A) : M A := fun w => (f w, w).

(** ** The store: [database/sql] over the tables *)

(** [p.db.Begin()]. *)
Definition Begin : M (option GoError) :=
  f <- next_fault ;;
  match f with
  | Some e => called CallBegin false ;; ret (Some e)
  | None =>
      d <- read db ;;
      update_store (fun d => d) (fun _ => Some d) ;;
      called CallBegin true ;;
      ret None
  end.

(** [tx.Exec(query, params...)]. *)
Definition Exec (s : Stmt) : M (Result * option GoError) :=
  f <- next_fault ;;
  match f with
  | Some e => called (CallExec s) false ;; ret (nil_Result, Some e)
  | None =>
      t <- read tx ;;
      match t with
      | None =>
          called (CallExec s) false ;;
          ret (nil_Result, Some (OtherError "sql: Transaction has already been committed or rolled back"))
      | Some d =>
          match exec_stmt s d with
          | None =>
              called (CallExec s) false ;;
              ret (nil_Result, Some (PqError "constraint violation"))
          | Some (d', n) =>
              update_store (fun d => d) (fun _ => Some d') ;;
              called (CallExec s) true ;;
              ret (driverResult n, None)
          end
      end
  end.

(** [tx.Commit()]: installs what the transaction wrote, unless the store
    fails; either way the transaction is over. *)
Definition Commit : M (option GoError) :=
  f <- next_fault ;;
  t <- read tx ;;
  match f, t with
  | Some e, _ =>
      update_store (fun d => d) (fun _ => None) ;;
      called CallCommit false ;; ret (Some e)
  | None, None =>
      called CallCommit false ;;
      ret (Some (OtherError "sql: Transaction has already been committed or rolled back"))
  | None, Some d' =>
      update_store (fun _ => d') (fun _ => None) ;;
      called CallCommit true ;; ret None
  end.

(** [tx.Rollback()]: discards what the transaction wrote. *)
Definition Rollback : M (option GoError) :=
  f <- next_fault ;;
  update_store (fun d => d) (fun _ => None) ;;
  match f with
  | Some e => called CallRollback false ;; ret (Some e)
  | None => called CallRollback true ;; ret None
  end.

(** A SELECT without ORDER BY leaves the order of its rows to the store:
    an engine may hand the selected rows back in any order. *)
Record Engine := mkEngine {
  scan : forall A : Type, list A -> list A;
  scan_perm : forall (A : Type) (l : list A), Permutation (scan l) l
}.

(** [Query(query, params...)] on the committed tables ([p.db.Query]) or
    inside the open transaction ([tx.Query]).  Iterating the rows and
    scanning their columns is taken not to fail. *)
Definition Query {A : Type} (E : Engine) (in_tx : bool) (select : DB -> list A)
  : M (list A * option GoError) :=
  f <- next_fault ;;
  match f with
  | Some e => called CallQuery false ;; ret ([], Some e)
  | None =>
      d <- read db ;;
      t <- read tx ;;
      called CallQuery true ;;
      ret (scan E (select (if in_tx then match t with Some d' => d' | None => d end else d)), None)
  end.

(** [p.notificationService.NotificationSend(notifications)]. *)
Definition NotificationSend (notifications : list NNotification) : M (option GoError) :=
  f <- next_fault ;;
  (fun w => (f, mkWorld (db w) (tx w) (faults w) (clock w) (ticks w)
                        (uuid_source w) (uuid_drawn w) (facebook w) (expiryMs w)
                        (sent w) (logged w) (calls w) (dispatched w ++ [notifications]))).

(** [p.socialClient.GetFacebookFriends(accessToken)]: the ids of the
    Facebook friends. *)
Definition GetFacebookFriends (accessToken : string) : M (list string * option GoError) :=
  read (fun w => facebook w accessToken).

(** How a call ends: by returning, or by a run-time panic that unwinds
    into the caller after the deferred functions have run. *)
Inductive Completion := Returned | Panicked.

Definition is_nil (err : option GoError) : bool :=
  match err with None => true | Some _ => false end.

Definition when (b : bool) (m : M unit) : M unit := if b then m else ret tt.

Definition len {A : Type} (l : list A) : Z := Z.of_nat (List.length l).

(** ** friendRemove *)

(** The deferred function (lines 384-403), run with the value [err] has
    when the body is left. *)
Definition friendRemove_deferred (envelope : Envelope) (err : option GoError) : M unit :=
  match err with
  | Some _ =>
      log LError "Could not remove friend" ;;
      err <- Rollback ;;
      when (negb (is_nil err)) (log LError "Could not rollback transaction") ;;
      Send (ErrorMessageRuntimeException (CollationId envelope) "Failed to remove friend")
  | None =>
      err <- Commit ;;
      match err with
      | Some _ =>
          log LError "Could not commit transaction" ;;
          Send (ErrorMessageRuntimeException (CollationId envelope) "Failed to remove friend")
      | None =>
          log LInfo "Removed friend" ;;
          Send (mkEnvelope (CollationId envelope) Envelope_nil)
      end
  end.

(** The statements of the transaction (lines 405-422): the value of
    [err] when the body is left, and how it is left.  [res.RowsAffected()]
    is called before [err] is looked at. *)
Definition friendRemove_body (s : session) (friendIDBytes : bytes)
  : M (option GoError * Completion) :=
  updatedAt <- nowMs ;;
  '(res, err) <- Exec (DeleteEdge (Bytes (UserID s)) friendIDBytes) ;;
  match RowsAffected res with
  | None => ret (err, Panicked)
  | Some rowsAffected =>
      err <- (if is_nil err && (rowsAffected >? 0)
              then '(_, err) <- Exec (DecrementCount (Bytes (UserID s)) updatedAt) ;; ret err
              else ret err) ;;
      match err with
      | Some _ => ret (err, Returned)
      | None =>
          '(res, err) <- Exec (DeleteEdge friendIDBytes (Bytes (UserID s))) ;;
          match RowsAffected res with
          | None => ret (err, Panicked)
          | Some rowsAffected =>
              err <- (if is_nil err && (rowsAffected >? 0)
                      then '(_, err) <- Exec (DecrementCount friendIDBytes updatedAt) ;; ret err
                      else ret err) ;;
              ret (err, Returned)
          end
      end
  end.

(** From [p.db.Begin()] to the end of the function (lines 378-422): the
    deferred function runs when the body is left, also by a panic. *)
Definition friendRemove_transaction (s : session) (envelope : Envelope)
    (friendIDBytes : bytes) : M Completion :=
  err <- Begin ;;
  match err with
  | Some _ =>
      log LError "Could not remove friend" ;;
      Send (ErrorMessageRuntimeException (CollationId envelope) "Failed to remove friend") ;;
      ret Returned
  | None =>
      '(err, completion) <- friendRemove_body s friendIDBytes ;;
      friendRemove_deferred envelope err ;;
      ret completion
  end.

Definition friendRemove (s : session) (envelope : Envelope) : M Completion :=
  match GetFriendsRemove envelope with
  | None => ret Panicked
  | Some [] =>
      Send (ErrorMessageBadInput (CollationId envelope) "At least one user ID must be present") ;;
      ret Returned
  | Some ((removeFriendRequest :: _) as UserIds) =>
      when (len UserIds >? 1)
        (log LWarn "There are more than one user ID passed to the request - only processing the first item of the list.") ;;
      if len removeFriendRequest =? 0 then
        Send (ErrorMessageBadInput (CollationId envelope) "User ID must be present") ;;
        ret Returned
      else
        match FromBytes removeFriendRequest with
        | None =>
            log LWarn "Could not add friend" ;;
            Send (ErrorMessageBadInput (CollationId envelope) "Invalid User ID") ;;
            ret Returned
        | Some friendID =>
            let friendIDBytes := Bytes friendID in
            if uuid_eqb friendID (UserID s) then
              log LWarn "Cannot remove self" ;;
              Send (ErrorMessageBadInput (CollationId envelope) "Cannot remove self") ;;
              ret Returned
            else
              friendRemove_transaction s envelope friendIDBytes
        end
  end.

(** ** friendBlock *)

(** The deferred function (lines 461-484). *)
Definition friendBlock_deferred (envelope : Envelope) (err : option GoError) : M unit :=
  match err with
  | Some e =>
      match e with
      | PqError _ => log LError "Could not block user"
      | OtherError _ => log LWarn "Could not block user"
      end ;;
      err <- Rollback ;;
      when (negb (is_nil err)) (log LError "Could not rollback transaction") ;;
      Send (ErrorMessageRuntimeException (CollationId envelope) "Could not block user")
  | None =>
      err <- Commit ;;
      match err with
      | Some _ =>
          log LError "Could not commit transaction" ;;
          Send (ErrorMessageRuntimeException (CollationId envelope) "Could not block user")
      | None =>
          log LInfo "User blocked" ;;
          Send (mkEnvelope (CollationId envelope) Envelope_nil)
      end
  end.

(** The statements of the transaction (lines 486-508). *)
Definition friendBlock_body (s : session) (userIDBytes : bytes)
  : M (option GoError * Completion) :=
  now <- nowMs ;;
  '(res, err) <- Exec (BlockEdge (Bytes (UserID s)) userIDBytes now) ;;
  match err with
  | Some _ => ret (err, Returned)
  | None =>
      match RowsAffected res with
      | None => ret (err, Panicked)
      | Some rowsAffected =>
          if rowsAffected =? 0 then
            ret (Some (OtherError "Could not block user. User ID may not exist"), Returned)
          else
            (* Delete opposite relationship if user hasn't blocked you already *)
            '(res, err) <- Exec (DeleteEdgeNotBlocked userIDBytes (Bytes (UserID s))) ;;
            match err with
            | Some _ => ret (err, Returned)
            | None =>
                match RowsAffected res with
                | None => ret (err, Panicked)
                | Some rowsAffected =>
                    if rowsAffected =? 1 then
                      now <- nowMs ;;
                      '(_, err) <- Exec (DecrementCount userIDBytes now) ;;
                      ret (err, Returned)
                    else ret (err, Returned)
                end
            end
      end
  end.

(** From [p.db.Begin()] to the end of the function (lines 455-508). *)
Definition friendBlock_transaction (s : session) (envelope : Envelope)
    (userIDBytes : bytes) : M Completion :=
  err <- Begin ;;
  match err with
  | Some _ =>
      log LError "Could not block user" ;;
      Send (ErrorMessageRuntimeException (CollationId envelope) "Failed to block friend") ;;
      ret Returned
  | None =>
      '(err, completion) <- friendBlock_body s userIDBytes ;;
      friendBlock_deferred envelope err ;;
      ret completion
  end.

Definition friendBlock (s : session) (envelope : Envelope) : M Completion :=
  match GetFriendsBlock envelope with
  | None => ret Panicked
  | Some [] =>
      Send (ErrorMessageBadInput (CollationId envelope) "At least one user ID must be present") ;;
      ret Returned
  | Some ((blockUserRequest :: _) as UserIds) =>
      when (len UserIds >? 1)
        (log LWarn "There are more than one user ID passed to the request - only processing the first item of the list.") ;;
      if len blockUserRequest =? 0 then
        Send (ErrorMessageBadInput (CollationId envelope) "User ID must be present") ;;
        ret Returned
      else
        match FromBytes blockUserRequest with
        | None =>
            log LWarn "Could not block user" ;;
            Send (ErrorMessageBadInput (CollationId envelope) "Invalid User ID") ;;
            ret Returned
        | Some userID =>
            let userIDBytes := Bytes userID in
            if uuid_eqb userID (UserID s) then
              log LWarn "Cannot block self" ;;
              Send (ErrorMessageBadInput (CollationId envelope) "Cannot block self") ;;
              ret Returned
            else
              friendBlock_transaction s envelope userIDBytes
        end
  end.

(** ** friendAdd *)

Section FriendAdd.

(** The package functions [friendAdd] and [friendAddHandle], which open
    the transaction of an add, are declared in another file of the
    package: the handlers are read for any implementation of them.
    Their arguments are the caller's id, the caller's handle and the
    friend's id or handle. *)
Variable core_friendAdd : bytes -> string -> bytes -> M (option GoError).
Variable core_friendAddHandle : bytes -> string -> string -> M (option GoError).

(** They are handed the logger, the database and the notification
    service, not the session: whatever they do, nothing of it is sent to
    the session. *)
Definition without_session {A : Type} (m : M A) : M A :=
  fun w =>
    let (a, w') := m w in
    (a, mkWorld (db w') (tx w') (faults w') (clock w') (ticks w')
                (uuid_source w') (uuid_drawn w') (facebook w') (expiryMs w')
                (sent w) (logged w') (calls w') (dispatched w')).

Definition friendAddById (s : session) (envelope : Envelope) (friendIdBytes : bytes)
  : M unit :=
  if len friendIdBytes =? 0 then
    Send (ErrorMessageBadInput (CollationId envelope) "User ID must be present")
  else
    match FromBytes friendIdBytes with
    | None =>
        log LWarn "Could not add friend" ;;
        Send (ErrorMessageBadInput (CollationId envelope) "Invalid User ID")
    | Some friendID =>
        if uuid_eqb friendID (UserID s) then
          log LWarn "Cannot add self" ;;
          Send (ErrorMessageBadInput (CollationId envelope) "Cannot add self")
        else
          err <- without_session
                 (core_friendAdd (Bytes (UserID s)) (SessionHandle s) (Bytes friendID)) ;;
          match err with
          | Some _ =>
              log LError "Could not add friend" ;;
              Send (ErrorMessageRuntimeException (CollationId envelope) "Failed to add friend")
          | None =>
              log LDebug "Added friend" ;;
              Send (mkEnvelope (CollationId envelope) Envelope_nil)
          end
    end.

Definition friendAddByHandle (s : session) (envelope : Envelope) (friendHandle : string)
  : M unit :=
  if (friendHandle =? "")%string || (friendHandle =? SessionHandle s)%string then
    Send (ErrorMessageBadInput (CollationId envelope)
            "User handle must be present and not equal to user's handle")
  else
    err <- without_session
             (core_friendAddHandle (Bytes (UserID s)) (SessionHandle s) friendHandle) ;;
    match err with
    | Some _ =>
        log LError "Could not add friend" ;;
        Send (ErrorMessageRuntimeException (CollationId envelope) "Failed to add friend")
    | None =>
        log LDebug "Added friend" ;;
        Send (mkEnvelope (CollationId envelope) Envelope_nil)
    end.

Definition friendAdd (s : session) (envelope : Envelope) : M Completion :=
  match GetFriendsAdd envelope with
  | None => ret Panicked
  | Some [] =>
      Send (ErrorMessageBadInput (CollationId envelope) "At least one friend must be present") ;;
      ret Returned
  | Some ((f :: _) as Friends) =>
      when (len Friends >? 1)
        (log LWarn "There are more than one friend passed to the request - only processing the first item of the list.") ;;
      match f with
      | TFriendsAdd_FriendsAdd_UserId UserId =>
          friendAddById s envelope UserId ;; ret Returned
      | TFriendsAdd_FriendsAdd_Handle FriendHandle =>
          friendAddByHandle s envelope FriendHandle ;; ret Returned
      | FriendsAdd_unset => ret Returned
      end
  end.

End FriendAdd.

(** ** getFriends and friendsList *)

Definition NullString (s : option string) : string :=
  match s with Some v => v | None => "" end.

Definition NullInt64 (z : option Z) : Z :=
  match z with Some v => v | None => 0 end.

(** [FROM users, user_edge] followed by the WHERE clause given as
    [filterQuery]. *)
Definition select_friends (filterQuery : bytes -> UserRow * EdgeRow -> bool)
    (userID : bytes) (d : DB) : list (UserRow * EdgeRow) :=
  filter (filterQuery userID) (list_prod (users d) (user_edge d)).

(** The one filter the file uses: [WHERE id = destination_id AND source_id = $1]. *)
Definition friends_of (userID : bytes) (r : UserRow * EdgeRow) : bool :=
  bytes_eqb (u_id (fst r)) (e_destination_id (snd r))
  && bytes_eqb (e_source_id (snd r)) userID.

(** The record built from one row of the join (lines 261-276). *)
Definition scan_friend (r : UserRow * EdgeRow) : Friend :=
  let (u, e) := r in
  mkFriend
    (mkUser (u_id u) (NullString (u_handle u)) (NullString (u_fullname u))
            (NullString (u_avatar_url u)) (NullString (u_lang u))
            (NullString (u_location u)) (NullString (u_timezone u))
            (u_metadata u) (NullInt64 (u_created_at u)) (NullInt64 (u_updated_at u))
            (NullInt64 (u_last_online_at u)))
    (e_state e).

(** The rows [getFriends] iterates over, in the order the store yields
    them. *)
Definition getFriends_rows (E : Engine) (filterQuery : bytes -> UserRow * EdgeRow -> bool)
    (userID : bytes) : M (list (UserRow * EdgeRow) * option GoError) :=
  Query E false (select_friends filterQuery userID).

Definition getFriends (E : Engine) (filterQuery : bytes -> UserRow * EdgeRow -> bool)
    (userID : bytes) : M (option (list Friend) * option GoError) :=
  '(rows, err) <- getFriends_rows E filterQuery userID ;;
  match err with
  | Some _ => ret (None, err)
  | None => ret (Some (map scan_friend rows), None)
  end.

Definition friendsList (E : Engine) (s : session) (envelope : Envelope) : M unit :=
  '(friends, err) <- getFriends E friends_of (Bytes (UserID s)) ;;
  match err, friends with
  | None, Some friends =>
      Send (mkEnvelope (CollationId envelope) (Envelope_Friends friends))
  | _, _ =>
      log LError "Could not get friends" ;;
      Send (ErrorMessageRuntimeException (CollationId envelope) "Could not get friends")
  end.

(** ** addFacebookFriends *)

Definition fb_in (fbid : option string) (friends : list string) : bool :=
  match fbid with
  | Some f => existsb (String.eqb f) friends
  | None => false
  end.

(** [SELECT id FROM users WHERE facebook_id IN ($1, ...)]. *)
Definition select_facebook_users (friends : list string) (d : DB) : list bytes :=
  map u_id (filter (fun u => fb_in (u_facebook_id u) friends) (users d)).

(** The loop over the rows (lines 177-195): each id is appended to both
    parameter slices. *)
Fixpoint collect_params (rows : list bytes) (paramsEdge paramsEdgeMetadata : list Param)
  : list Param * list Param :=
  match rows with
  | [] => (paramsEdge, paramsEdgeMetadata)
  | currentUser :: rows' =>
      collect_params rows' (paramsEdge ++ [PBytes currentUser])
                     (paramsEdgeMetadata ++ [PBytes currentUser])
  end.

(** What the body leaves to the deferred function: whether [tx] is set,
    [err], and [friendUserIDs]. *)
Definition addFacebookFriends_body (E : Engine) (userID : bytes) (ts : Z) (accessToken : string)
  : M (bool * option GoError * list Param) :=
  '(fbFriends, err) <- GetFacebookFriends accessToken ;;
  if negb (is_nil err) then ret (false, err, [])
  else if len fbFriends =? 0 then ret (false, None, [])
  else
    err <- Begin ;;
    if negb (is_nil err) then ret (false, err, [])
    else
      '(rows, err) <- Query E true (select_facebook_users fbFriends) ;;
      if negb (is_nil err) then ret (true, err, [])
      else
        let '(paramsEdge, paramsEdgeMetadata) :=
          collect_params rows [PBytes userID; PInt ts] [PInt ts] in
        (* Check if any Facebook friends are already users, if not there are no new edges to handle. *)
        if len paramsEdge <=? 2 then ret (true, None, [])
        else
          (* Insert new friend relationship edges. *)
          '(_, err) <- Exec (InsertEdges paramsEdge) ;;
          if negb (is_nil err) then ret (true, err, [])
          else
            (* Update edge metadata for each user to increment count. *)
            '(_, err) <- Exec (IncrementCounts paramsEdgeMetadata) ;;
            if negb (is_nil err) then ret (true, err, [])
            else
              (* Update edge metadata for current user to bump count by number of new friends. *)
              '(_, err) <- Exec (SetCount (len paramsEdge - 2) ts userID) ;;
              if negb (is_nil err) then ret (true, err, [])
              else
                (* Track the user IDs to notify their friend has joined the game. *)
                ret (true, None, skipn 2 paramsEdge).

Fixpoint make_notifications (userID : bytes) (content : list (string * string))
    (ts expiresAt : Z) (friendUserIDs : list bytes) : M (list NNotification) :=
  match friendUserIDs with
  | [] => ret []
  | fid :: rest =>
      id <- NewV4 ;;
      ns <- make_notifications userID content ts expiresAt rest ;;
      ret (mkNNotification id fid "Your friend has just joined the game" content
             NOTIFICATION_FRIEND_JOIN_GAME userID ts expiresAt true :: ns)
  end.

(** The deferred function (lines 91-142). *)
Definition addFacebookFriends_deferred (userID : bytes) (handle fbid : string) (ts : Z)
    (tx_set : bool) (err : option GoError) (friendUserIDs : list Param) : M unit :=
  match err with
  | Some _ =>
      log LError "Could not import friends from Facebook" ;;
      when tx_set
        (err <- Rollback ;;
         when (negb (is_nil err)) (log LError "Could not rollback transaction"))
  | None =>
      when tx_set
        (err <- Commit ;;
         match err with
         | Some _ => log LError "Could not commit transaction"
         | None =>
             log LDebug "Imported friends from Facebook" ;;
             (* Send out notifications. *)
             when (negb (len friendUserIDs =? 0))
               (let content := [("facebook_id", fbid); ("handle", handle)] in
                expiryMs <- read expiryMs ;;
                let expiresAt := ts + expiryMs in
                notifications <- make_notifications userID content ts expiresAt
                                   (param_ids friendUserIDs) ;;
                err <- NotificationSend notifications ;;
                when (negb (is_nil err))
                  (log LWarn "Failed to send Facebook friend join notifications"))
         end)
  end.

Definition addFacebookFriends (E : Engine) (userID : bytes) (handle fbid accessToken : string)
  : M unit :=
  ts <- nowMs ;;
  '(tx_set, err, friendUserIDs) <- addFacebookFriends_body E userID ts accessToken ;;
  addFacebookFriends_deferred userID handle fbid ts tx_set err friendUserIDs.

(** ** The tables after a handler

    What the statements of a handler amount to when the store answers
    every call; the handlers are shown to compute these below. *)

(** One direction of a remove: the rows from [source] to [destination]
    are deleted, and the counter of [source] is decremented when a row
    was deleted. *)
Definition remove_direction (source destination : bytes) (updatedAt : Z) (d : DB) : DB :=
  if count_where (edge_matches source destination) (user_edge d) >? 0
  then decrement_count source updatedAt (delete_edge source destination d)
  else delete_edge source destination d.

(** A block by [caller] on [target]: [None] when there is no row to
    block (the handler then rolls back). *)
Definition block_effect (caller target : bytes) (now1 now2 : Z) (d : DB) : option DB :=
  if count_where (edge_matches caller target) (user_edge d) =? 0 then None
  else
    let d1 := block_edge caller target now1 d in
    let d2 := delete_edge_not_blocked target caller d1 in
    Some (if count_where (not_blocked target caller) (user_edge d1) =? 1
          then decrement_count target now2 d2
          else d2).

(** The rows of a result come in creation order: their positions ascend. *)
Fixpoint ascending (zs : list Z) : bool :=
  match zs with
  | [] => true
  | z :: zs' => match zs' with [] => true | z' :: _ => (z <=? z') && ascending zs' end
  end.

Definition creation_ordered (rows : list (UserRow * EdgeRow)) : bool :=
  ascending (map (fun r => e_position (snd r)) rows).

(** A request is rejected: the handler returns after one validation
    error to the session, without a call to the store, with no
    transaction opened and nothing dispatched. *)
Definition rejected (cid : string) (w : World) (r : Completion * World) : Prop :=
  fst r = Returned
  /\ (exists message, sent (snd r) = sent w ++ [ErrorMessageBadInput cid message])
  /\ db (snd r) = db w
  /\ tx (snd r) = tx w
  /\ calls (snd r) = calls w
  /\ dispatched (snd r) = dispatched w.

(** A request is dropped: the handler returns and nothing was sent,
    stored, called or dispatched. *)
Definition dropped (w : World) (r : Completion * World) : Prop :=
  fst r = Returned
  /\ sent (snd r) = sent w
  /\ db (snd r) = db w
  /\ tx (snd r) = tx w
  /\ calls (snd r) = calls w
  /\ dispatched (snd r) = dispatched w.

(** The calls of one handler to the store: a Begin that fails and nothing
    more, or a Begin followed by statements and closed by exactly one
    Commit or Rollback. *)
Fixpoint closes_once (cs : list (StoreCall * bool)) : bool :=
  match cs with
  | [] => false
  | (CallCommit, _) :: cs' => match cs' with [] => true | _ :: _ => false end
  | (CallRollback, _) :: cs' => match cs' with [] => true | _ :: _ => false end
  | (CallExec _, _) :: cs' => closes_once cs'
  | _ => false
  end.

Definition one_transaction (cs : list (StoreCall * bool)) : bool :=
  match cs with
  | (CallBegin, false) :: cs' => match cs' with [] => true | _ :: _ => false end
  | (CallBegin, true) :: cs' => closes_once cs'
  | _ => false
  end.

(** ** Scenarios *)

Definition id_of (b : byte) : bytes := repeat x00 15 ++ [b].

Definition userA : bytes := id_of x0a.
Definition userB : bytes := id_of x0b.
Definition userC : bytes := id_of x0c.
Definition userD : bytes := id_of x0d.

Definition profile (id : bytes) (handle facebook_id : string) : UserRow :=
  mkUserRow id (Some handle) None None None None None [] (Some 1) (Some 1) None
            (Some facebook_id).

Definition four_users : list UserRow :=
  [profile userA "a" "fa"; profile userB "b" "fb"; profile userC "c" "fc";
   profile userD "d" "fd"].

(** A and B are friends since 5. *)
Definition friends_AB : DB :=
  mkDB four_users
       [mkEdgeRow userA 5 5 userB CONNECTED; mkEdgeRow userB 5 5 userA CONNECTED]
       [mkMetaRow userA 1 5; mkMetaRow userB 1 5; mkMetaRow userC 0 1; mkMetaRow userD 0 1].

(** A and B were friends; B has blocked A since. *)
Definition B_blocked_A : DB :=
  mkDB four_users
       [mkEdgeRow userA 5 5 userB CONNECTED; mkEdgeRow userB 5 7 userA BLOCKED]
       [mkMetaRow userA 0 7; mkMetaRow userB 1 5; mkMetaRow userC 0 1; mkMetaRow userD 0 1].

(** A befriended C at 3 and B at 5. *)
Definition friends_AC_AB : DB :=
  mkDB four_users
       [mkEdgeRow userA 3 3 userC CONNECTED; mkEdgeRow userC 3 3 userA CONNECTED;
        mkEdgeRow userA 5 5 userB CONNECTED; mkEdgeRow userB 5 5 userA CONNECTED]
       [mkMetaRow userA 2 5; mkMetaRow userB 1 5; mkMetaRow userC 1 3; mkMetaRow userD 0 1].

(** A world at rest over [d], in which the store answers the next calls
    as [fs] says; the Facebook friends of every token are "fc", "fd" and
    one who is not registered. *)
Definition world_of (d : DB) (fs : list (option GoError)) : World :=
  mkWorld d None fs (fun n => 100 + Z.of_nat n) 0 (fun n => id_of x01) 0
          (fun _ => (["fc"; "fd"; "zz"], None)) 1000 [] [] [] [].

Definition sessionA : session := mkSession (mkUUID userA) "a".

(** A store that yields the rows of a SELECT as they are stored, and one
    that yields them last first. *)
Definition stored_order : Engine :=
  mkEngine (fun A l => l) (fun A l => Permutation_refl l).

Definition reverse_order : Engine :=
  mkEngine (fun A l => rev l) (fun A l => Permutation_sym (Permutation_rev l)).

(** Unfolds the store and session primitives and evaluates the handler as
    far as the tables allow. *)
Ltac run :=
  unfold bind, ret, read, when, Exec, Begin, Commit, Rollback, Query, NotificationSend,
    GetFacebookFriends, next_fault, nowMs, NewV4, Send, log, called, update_store, exec_stmt;
  cbn -[delete_edge delete_edge_not_blocked decrement_count block_edge increment_counts
        set_count count_where len make_notifications Z.gtb Z.eqb Z.leb Z.add Z.sub app].


(** ** The counters and the rows they count *)

(** The number of rows of [user_edge] that leave [source], whatever their
    state. *)
Definition rows_from (es : list EdgeRow) (source : bytes) : Z :=
  count_where (fun r => bytes_eqb (e_source_id r) source) es.

(** Every counter holds the number of rows that leave its user. *)
Definition counts_match (d : DB) : Prop :=
  forall r, In r (user_edge_metadata d) ->
            m_count r = rows_from (user_edge d) (m_source_id r).

Definition counts_matchb (d : DB) : bool :=
  forallb (fun r => m_count r =? rows_from (user_edge d) (m_source_id r))
          (user_edge_metadata d).

(** The tables are consistent: one row per ordered pair, and counters
    that match the rows. *)
Definition counting (d : DB) : Prop :=
  unique_edges (user_edge d) /\ counts_match d.

(** The calls of a handler that stays away from the store, or opens one
    transaction and closes it once. *)
Definition at_most_one_transaction (cs : list (StoreCall * bool)) : bool :=
  match cs with
  | [] => true
  | _ :: _ => one_transaction cs
  end.

(** ** querySocialGraph *)



(** ** Further scenarios *)

(** Two stand-ins for the core add functions: one that fails, one that
    succeeds, neither touching the tables. *)
Definition core_refuses {A : Type} (userID : bytes) (handle : string) (friend : A)
  : M (option GoError) :=
  ret (Some (OtherError "refused")).

Definition core_accepts {A : Type} (userID : bytes) (handle : string) (friend : A)
  : M (option GoError) :=
  ret None.

(** The notifications of an import, from the values [uuid.NewV4] yields
    (lines 118-132). *)
Fixpoint notifications_for (uuid_source : nat -> bytes) (drawn : nat) (userID : bytes)
    (content : list (string * string)) (ts expiresAt : Z) (friendUserIDs : list bytes)
  : list NNotification :=
  match friendUserIDs with
  | [] => []
  | fid :: rest =>
      mkNNotification (uuid_source drawn) fid "Your friend has just joined the game" content
                      NOTIFICATION_FRIEND_JOIN_GAME userID ts expiresAt true
        :: notifications_for uuid_source (S drawn) userID content ts expiresAt rest
  end.

(** Every transaction that was opened was closed, once, and there is at
    most one. *)
Definition is_opening (c : StoreCall * bool) : bool :=
  match c with (CallBegin, true) => true | _ => false end.

Definition is_closing (c : StoreCall * bool) : bool :=
  match c with (CallCommit, _) | (CallRollback, _) => true | _ => false end.

Definition transactions_closed (cs : list (StoreCall * bool)) : bool :=
  (count_where is_opening cs =? count_where is_closing cs)
  && (count_where is_closing cs <=? 1).

(** Some DELETE on user_edge was refused by the store. *)
Definition delete_failed (cs : list (StoreCall * bool)) : bool :=
  existsb (fun c => match c with
                    | (CallExec (DeleteEdge _ _), false) => true
                    | _ => false
                    end) cs.

(** As [case_store], keeping what each test was found to be. *)
Ltac case_store_eqn :=
  repeat (run;
          match goal with
          | |- context [hd None ?fs] => is_var fs; destruct fs as [|[?|] ?]
          | |- context [if ?c then _ else _] => destruct c eqn:?
          | |- context [match ?e with PqError _ => _ | OtherError _ => _ end] =>
              is_var e; destruct e
          end);
  run.

(** Runs a handler through every answer of the store: splits on the next
    answer, on the tests of the handler and on the kind of an error. *)
Ltac case_store :=
  repeat (run;
          match goal with
          | |- context [hd None ?fs] => is_var fs; destruct fs as [|[?|] ?]
          | |- context [if ?c then _ else _] => destruct c
          | |- context [match ?e with PqError _ => _ | OtherError _ => _ end] =>
              is_var e; destruct e
          end);
  run.

(** * Properties *)

Unset Implicit Arguments.

(** ** Identifiers *)

Lemma bytes_eqb_refl (a : bytes) : bytes_eqb a a = true.
Proof.
  induction a as [|x a IH]; simpl; [reflexivity|].
  rewrite IH, (Byte.byte_dec_lb (eq_refl x)). reflexivity.
Qed.

Lemma bytes_eqb_true (a b : bytes) : bytes_eqb a b = true -> a = b.
Proof.
  revert b; induction a as [|x a IH]; intros [|y b]; simpl; try discriminate; auto.
  intros H. apply andb_true_iff in H as [H1 H2].
  apply Byte.byte_dec_bl in H1. apply IH in H2. congruence.
Qed.

Lemma bytes_eqb_eq (a b : bytes) : bytes_eqb a b = true <-> a = b.
Proof.
  split; [apply bytes_eqb_true | intros ->; apply bytes_eqb_refl].
Qed.

Lemma bytes_eqb_neq (a b : bytes) : bytes_eqb a b = false <-> a <> b.
Proof.
  split.
  - intros H ->. rewrite bytes_eqb_refl in H. discriminate.
  - intros H. destruct (bytes_eqb a b) eqn:E; [|reflexivity].
    apply bytes_eqb_true in E. contradiction.
Qed.

Lemma bytes_eqb_sym (a b : bytes) : bytes_eqb a b = bytes_eqb b a.
Proof.
  destruct (bytes_eqb a b) eqn:E.
  - apply bytes_eqb_true in E. subst. symmetry. apply bytes_eqb_refl.
  - symmetry. apply bytes_eqb_neq. apply bytes_eqb_neq in E. congruence.
Qed.

Lemma FromBytes_Some (input : bytes) (u : UUID) :
  FromBytes input = Some u -> Bytes u = input /\ len input = 16.
Proof.
  unfold FromBytes, len. destruct (Z.of_nat (List.length input) =? 16) eqn:E; [|discriminate].
  intros [= <-]. apply Z.eqb_eq in E. auto.
Qed.

Lemma FromBytes_Bytes (input : bytes) (u : UUID) :
  FromBytes input = Some u -> u = mkUUID input.
Proof.
  intros H. destruct (FromBytes_Some _ _ H) as [H1 _]. destruct u; simpl in *; congruence.
Qed.

(** ** Tables *)

Lemma count_where_pos {A : Type} (f : A -> bool) (l : list A) :
  (count_where f l >? 0) = negb (match filter f l with [] => true | _ => false end).
Proof.
  unfold count_where. destruct (filter f l); simpl; [reflexivity|].
  apply Z.gtb_lt. lia.
Qed.

Lemma edge_matches_key (source destination : bytes) (r : EdgeRow) :
  edge_matches source destination r = true <-> edge_key r = (source, destination).
Proof.
  unfold edge_matches, edge_key. rewrite andb_true_iff, !bytes_eqb_eq.
  split; [intros [-> ->]; reflexivity | intros [= -> ->]; auto].
Qed.

Lemma edge_matches_other (a b c e : bytes) (r : EdgeRow) :
  (a, b) <> (c, e) -> edge_matches a b r = true -> edge_matches c e r = false.
Proof.
  intros Hne H. destruct (edge_matches c e r) eqn:E; [|reflexivity].
  apply edge_matches_key in H. apply edge_matches_key in E. congruence.
Qed.

Lemma filter_delete_same {A : Type} (f : A -> bool) (l : list A) :
  filter f (delete_where f l) = [].
Proof.
  unfold delete_where. induction l as [|x l IH]; simpl; [reflexivity|].
  destruct (f x) eqn:E; simpl; [assumption | rewrite E; assumption].
Qed.

Lemma filter_delete_disjoint {A : Type} (f g : A -> bool) (l : list A) :
  (forall x, g x = true -> f x = false) ->
  filter f (delete_where g l) = filter f l.
Proof.
  intros H. unfold delete_where. induction l as [|x l IH]; simpl; [reflexivity|].
  destruct (g x) eqn:E; simpl.
  - rewrite (H _ E). assumption.
  - rewrite IH. reflexivity.
Qed.

Lemma delete_where_none {A : Type} (f : A -> bool) (l : list A) :
  filter f l = [] -> delete_where f l = l.
Proof.
  unfold delete_where. induction l as [|x l IH]; simpl; [reflexivity|].
  destruct (f x); simpl; [discriminate | intros H; rewrite IH by assumption; reflexivity].
Qed.

Lemma update_where_none {A : Type} (f : A -> bool) (g : A -> A) (l : list A) :
  filter f l = [] -> update_where f g l = l.
Proof.
  unfold update_where. induction l as [|x l IH]; simpl; [reflexivity|].
  destruct (f x); simpl; [discriminate | intros H; rewrite IH by assumption; reflexivity].
Qed.

Lemma filter_update_same {A : Type} (f : A -> bool) (g : A -> A) (l : list A) :
  (forall x, f x = true -> f (g x) = true) ->
  filter f (update_where f g l) = map g (filter f l).
Proof.
  intros H. unfold update_where. induction l as [|x l IH]; simpl; [reflexivity|].
  destruct (f x) eqn:E; simpl.
  - rewrite (H _ E). simpl. rewrite IH. reflexivity.
  - rewrite E. assumption.
Qed.

Lemma filter_update_disjoint {A : Type} (f h : A -> bool) (g : A -> A) (l : list A) :
  (forall x, f x = true -> h x = false /\ h (g x) = false) ->
  filter h (update_where f g l) = filter h l.
Proof.
  intros H. unfold update_where. induction l as [|x l IH]; simpl; [reflexivity|].
  destruct (f x) eqn:E.
  - destruct (H _ E) as [H1 H2]. rewrite H1, H2. assumption.
  - destruct (h x); rewrite IH; reflexivity.
Qed.

(** A statement on the counter of [source] changes that counter as it
    says and no other. *)
Lemma counter_update_same (source : bytes) (g : MetaRow -> MetaRow) (ms : list MetaRow) :
  (forall r, m_source_id (g r) = m_source_id r) ->
  counter (update_where (meta_of source) g ms) source
  = option_map (fun r => m_count (g r)) (find (meta_of source) ms).
Proof.
  intros Hg. unfold counter, update_where, meta_of.
  induction ms as [|r ms IH]; simpl; [reflexivity|].
  destruct (bytes_eqb (m_source_id r) source) eqn:E; simpl.
  - rewrite Hg, E. reflexivity.
  - rewrite E. apply IH.
Qed.

Lemma counter_update_other (f : MetaRow -> bool) (g : MetaRow -> MetaRow)
    (ms : list MetaRow) (other : bytes) :
  (forall r, m_source_id (g r) = m_source_id r) ->
  (forall r, f r = true -> m_source_id r <> other) ->
  counter (update_where f g ms) other = counter ms other.
Proof.
  intros Hg Hf. unfold counter, update_where. induction ms as [|r ms IH]; simpl; [reflexivity|].
  destruct (f r) eqn:E.
  - rewrite Hg. apply Hf in E. apply bytes_eqb_neq in E. rewrite E. apply IH.
  - destruct (bytes_eqb (m_source_id r) other); [reflexivity | apply IH].
Qed.

Lemma count_of_decrement_same (source : bytes) (ts : Z) (d : DB) :
  count_of (decrement_count source ts d) source
  = option_map (fun c => c - 1) (count_of d source).
Proof.
  unfold count_of, decrement_count. simpl.
  rewrite counter_update_same by reflexivity.
  unfold counter, meta_of. destruct (find _ _); reflexivity.
Qed.

Lemma count_of_decrement_other (source other : bytes) (ts : Z) (d : DB) :
  source <> other ->
  count_of (decrement_count source ts d) other = count_of d other.
Proof.
  intros Hne. unfold count_of, decrement_count. simpl.
  apply counter_update_other; [reflexivity|].
  intros r H. apply bytes_eqb_true in H. congruence.
Qed.

(** ** Running a handler *)

(** The frame of a warning: logging leaves everything but the log as it was. *)
Lemma when_log_frame (b : bool) (l : Level) (msg : string) (w : World) :
  let w' := snd (when b (log l msg) w) in
  db w' = db w /\ tx w' = tx w /\ faults w' = faults w /\ clock w' = clock w
  /\ ticks w' = ticks w /\ sent w' = sent w /\ calls w' = calls w
  /\ dispatched w' = dispatched w.
Proof.
  destruct b; simpl; repeat split; reflexivity.
Qed.

Lemma len_nonzero_of_uuid (input : bytes) (u : UUID) :
  FromBytes input = Some u -> (len input =? 0) = false.
Proof.
  intros H. apply FromBytes_Some in H as [_ H]. rewrite H. reflexivity.
Qed.

Lemma uuid_eqb_refl (u : UUID) : uuid_eqb u u = true.
Proof. apply bytes_eqb_refl. Qed.

Lemma uuid_eqb_false (a b : UUID) : uuid_eqb a b = false -> Bytes a <> Bytes b.
Proof. apply bytes_eqb_neq. Qed.

(** A request that passes the checks of [friendRemove] runs the
    transaction on its first id. *)
Lemma friendRemove_valid (s : session) (cid : string) (target : bytes) (rest : list bytes)
    (friendID : UUID) (w : World) :
  FromBytes target = Some friendID ->
  uuid_eqb friendID (UserID s) = false ->
  let request := mkEnvelope cid (Envelope_FriendsRemove (target :: rest)) in
  friendRemove s request w
  = friendRemove_transaction s request target
      (snd (when (len (target :: rest) >? 1)
              (log LWarn "There are more than one user ID passed to the request - only processing the first item of the list.") w)).
Proof.
  intros HF Hne request. unfold friendRemove. cbn [GetFriendsRemove Payload request].
  unfold bind at 1. destruct (when _ _ w) as [[] w1]. cbn [snd].
  rewrite (len_nonzero_of_uuid _ _ HF), HF, Hne.
  rewrite (FromBytes_Bytes _ _ HF). reflexivity.
Qed.

Lemma friendBlock_valid (s : session) (cid : string) (target : bytes) (rest : list bytes)
    (userID : UUID) (w : World) :
  FromBytes target = Some userID ->
  uuid_eqb userID (UserID s) = false ->
  let request := mkEnvelope cid (Envelope_FriendsBlock (target :: rest)) in
  friendBlock s request w
  = friendBlock_transaction s request target
      (snd (when (len (target :: rest) >? 1)
              (log LWarn "There are more than one user ID passed to the request - only processing the first item of the list.") w)).
Proof.
  intros HF Hne request. unfold friendBlock. cbn [GetFriendsBlock Payload request].
  unfold bind at 1. destruct (when _ _ w) as [[] w1]. cbn [snd].
  rewrite (len_nonzero_of_uuid _ _ HF), HF, Hne.
  rewrite (FromBytes_Bytes _ _ HF). reflexivity.
Qed.

(** ** What a remove does to the tables *)

Lemma friendRemove_transaction_run (s : session) (envelope : Envelope) (friendIDBytes : bytes)
    (w : World) :
  faults w = [] ->
  exists w',
    friendRemove_transaction s envelope friendIDBytes w = (Returned, w')
    /\ db w' = remove_direction friendIDBytes (Bytes (UserID s)) (clock w (ticks w))
                 (remove_direction (Bytes (UserID s)) friendIDBytes (clock w (ticks w)) (db w))
    /\ tx w' = None
    /\ sent w' = sent w ++ [mkEnvelope (CollationId envelope) Envelope_nil].
Proof.
  intros Hf. destruct w as [d t fs ck tk us ud fbk ex snt lg cl dp]; simpl in Hf; subst fs.
  unfold friendRemove_transaction, friendRemove_body, friendRemove_deferred, remove_direction.
  run.
  destruct (count_where (edge_matches (Bytes (UserID s)) friendIDBytes) (user_edge d) >? 0); run.
  all: destruct (_ >? 0); run; eexists; repeat split; reflexivity.
Qed.

Lemma with_user_edge_same (d : DB) : with_user_edge d (user_edge d) = d.
Proof. destruct d; reflexivity. Qed.

Lemma with_user_edge_metadata_same (d : DB) :
  with_user_edge_metadata d (user_edge_metadata d) = d.
Proof. destruct d; reflexivity. Qed.

Lemma edges_between_remove_same (a b : bytes) (ts : Z) (d : DB) :
  edges_between (remove_direction a b ts d) a b = [].
Proof.
  unfold remove_direction, edges_between, rows_between.
  destruct (_ >? 0); simpl; apply filter_delete_same.
Qed.

Lemma edges_between_remove_other (a b c e : bytes) (ts : Z) (d : DB) :
  (a, b) <> (c, e) ->
  edges_between (remove_direction a b ts d) c e = edges_between d c e.
Proof.
  intros Hne. unfold remove_direction, edges_between, rows_between.
  destruct (_ >? 0); simpl; apply filter_delete_disjoint;
    intros r; apply edge_matches_other; assumption.
Qed.

Lemma count_of_remove_same (a b : bytes) (ts : Z) (d : DB) :
  count_of (remove_direction a b ts d) a
  = match edges_between d a b with
    | [] => count_of d a
    | _ :: _ => option_map (fun c => c - 1) (count_of d a)
    end.
Proof.
  unfold remove_direction. rewrite count_where_pos.
  unfold edges_between, rows_between.
  destruct (filter (edge_matches a b) (user_edge d)); simpl.
  - reflexivity.
  - rewrite count_of_decrement_same. reflexivity.
Qed.

Lemma count_of_remove_other (a b other : bytes) (ts : Z) (d : DB) :
  a <> other ->
  count_of (remove_direction a b ts d) other = count_of d other.
Proof.
  intros Hne. unfold remove_direction.
  destruct (_ >? 0); [rewrite count_of_decrement_other by assumption|]; reflexivity.
Qed.

Lemma remove_direction_absent (a b : bytes) (ts : Z) (d : DB) :
  edges_between d a b = [] -> remove_direction a b ts d = d.
Proof.
  unfold edges_between, rows_between. intros H.
  unfold remove_direction. rewrite count_where_pos, H. simpl.
  unfold delete_edge. rewrite delete_where_none by assumption.
  apply with_user_edge_same.
Qed.

(** ** friendRemove *)

(** C3. A remove of a valid target other than the caller, when the store
    answers every call: the handler returns and acknowledges; no row is
    left between the two users in either direction; when there was none
    to begin with, the tables are as they were; when the mirrored pair of
    CONNECTED rows was there, the counters of both users are one less;
    and the counter of each side is decremented exactly when a row of
    its own direction was deleted. *)
Theorem friendRemove_removes_pair (s : session) (cid : string) (target : bytes)
    (rest : list bytes) (friendID : UUID) (w : World) :
  FromBytes target = Some friendID ->
  uuid_eqb friendID (UserID s) = false ->
  faults w = [] ->
  let caller := Bytes (UserID s) in
  let request := mkEnvelope cid (Envelope_FriendsRemove (target :: rest)) in
  let d := db w in
  let d' := db (snd (friendRemove s request w)) in
  fst (friendRemove s request w) = Returned
  /\ sent (snd (friendRemove s request w)) = sent w ++ [mkEnvelope cid Envelope_nil]
  /\ edges_between d' caller target = []
  /\ edges_between d' target caller = []
  /\ (edges_between d caller target = [] -> edges_between d target caller = [] -> d' = d)
  /\ (forall r1 r2,
        In r1 (user_edge d) -> edge_key r1 = (caller, target) -> e_state r1 = CONNECTED ->
        In r2 (user_edge d) -> edge_key r2 = (target, caller) -> e_state r2 = CONNECTED ->
        count_of d' caller = option_map (fun c => c - 1) (count_of d caller)
        /\ count_of d' target = option_map (fun c => c - 1) (count_of d target))
  /\ count_of d' caller
     = match edges_between d caller target with
       | [] => count_of d caller
       | _ :: _ => option_map (fun c => c - 1) (count_of d caller)
       end
  /\ count_of d' target
     = match edges_between d target caller with
       | [] => count_of d target
       | _ :: _ => option_map (fun c => c - 1) (count_of d target)
       end.
Proof.
  intros HF Hne Hfl caller request d d'.
  assert (Hdiff : caller <> target).
  { apply uuid_eqb_false in Hne. rewrite (FromBytes_Bytes _ _ HF) in Hne. simpl in Hne.
    unfold caller. congruence. }
  assert (Hkeys : (caller, target) <> (target, caller)) by congruence.
  subst d'. unfold request. rewrite (friendRemove_valid s cid target rest friendID w HF Hne).
  destruct (when_log_frame (len (target :: rest) >? 1) LWarn
              "There are more than one user ID passed to the request - only processing the first item of the list." w)
    as (Hdb & _ & Hfaults & Hclock & Hticks & Hsent & _).
  set (w1 := snd (when _ _ w)) in *.
  destruct (friendRemove_transaction_run s
              (mkEnvelope cid (Envelope_FriendsRemove (target :: rest))) target w1)
    as (w' & Hrun & Hdb' & _ & Hsent'); [congruence|].
  rewrite Hrun. cbn [fst snd]. rewrite Hdb', Hsent', Hsent, Hdb, Hclock, Hticks.
  fold caller d. set (ts := clock w (ticks w)).
  assert (Hcaller : count_of (remove_direction target caller ts
                                (remove_direction caller target ts d)) caller
                    = match edges_between d caller target with
                      | [] => count_of d caller
                      | _ :: _ => option_map (fun c => c - 1) (count_of d caller)
                      end).
  { rewrite count_of_remove_other by congruence. apply count_of_remove_same. }
  assert (Htarget : count_of (remove_direction target caller ts
                                (remove_direction caller target ts d)) target
                    = match edges_between d target caller with
                      | [] => count_of d target
                      | _ :: _ => option_map (fun c => c - 1) (count_of d target)
                      end).
  { rewrite count_of_remove_same.
    rewrite edges_between_remove_other by assumption.
    rewrite count_of_remove_other by assumption. reflexivity. }
  repeat split.
  - rewrite edges_between_remove_other by congruence. apply edges_between_remove_same.
  - apply edges_between_remove_same.
  - intros H1 H2. rewrite (remove_direction_absent _ _ ts d H1).
    apply remove_direction_absent. assumption.
  - rewrite Hcaller.
    assert (Hin : In r1 (edges_between d caller target)).
    { apply filter_In. split; [assumption | apply edge_matches_key; assumption]. }
    destruct (edges_between d caller target); [destruct Hin | reflexivity].
  - rewrite Htarget.
    assert (Hin : In r2 (edges_between d target caller)).
    { apply filter_In. split; [assumption | apply edge_matches_key; assumption]. }
    destruct (edges_between d target caller); [destruct Hin | reflexivity].
  - exact Hcaller.
  - exact Htarget.
Qed.

Lemma friendRemove_removes_pair_witness :
  let request := mkEnvelope "c1" (Envelope_FriendsRemove [userB]) in
  let d' := db (snd (friendRemove sessionA request (world_of friends_AB []))) in
  (FromBytes userB = Some (mkUUID userB)
   /\ uuid_eqb (mkUUID userB) (UserID sessionA) = false
   /\ faults (world_of friends_AB []) = [])
  /\ fst (friendRemove sessionA request (world_of friends_AB [])) = Returned
  /\ edges_between d' userA userB = []
  /\ edges_between d' userB userA = []
  /\ count_of d' userA = Some 0
  /\ count_of d' userB = Some 0.
Proof.
  intros request d'.
  pose proof (friendRemove_removes_pair sessionA "c1" userB [] (mkUUID userB)
                (world_of friends_AB []) eq_refl eq_refl eq_refl) as H.
  cbv zeta in H. destruct H as (H1 & _ & H3 & H4 & _ & _ & H7 & H8).
  split; [repeat split|].
  split; [exact H1|]. split; [exact H3|]. split; [exact H4|].
  split; [exact H7 | exact H8].
Defined.

(** When the first DELETE of a remove fails, [res] is nil and the call of
    [res.RowsAffected()] on the next line panics: the deferred function
    rolls back and answers, and the panic then leaves the handler. *)
Lemma friendRemove_transaction_failed_delete (s : session) (envelope : Envelope)
    (friendIDBytes : bytes) (e : GoError) (fs : list (option GoError)) (w : World) :
  faults w = None :: Some e :: fs ->
  fst (friendRemove_transaction s envelope friendIDBytes w) = Panicked.
Proof.
  intros Hf. destruct w as [d t fs0 ck tk us ud fbk ex snt lg cl dp]; simpl in Hf; subst fs0.
  unfold friendRemove_transaction, friendRemove_body, friendRemove_deferred.
  run. destruct fs as [|[e'|] fs]; reflexivity.
Qed.

(** C6, on the code: A removes B, the transaction opens and the first
    DELETE fails.  The failure is logged, the transaction is rolled back
    and the runtime failure is sent, but the handler does not return: it
    panics. *)
Theorem friendRemove_failed_delete_panics :
  let request := mkEnvelope "c1" (Envelope_FriendsRemove [userB]) in
  let w := world_of friends_AB [None; Some (PqError "connection lost")] in
  let w' := snd (friendRemove sessionA request w) in
  fst (friendRemove sessionA request w) = Panicked
  /\ sent w' = [ErrorMessageRuntimeException "c1" "Failed to remove friend"]
  /\ logged w' = [(LError, "Could not remove friend")]
  /\ map fst (calls w') = [CallBegin; CallExec (DeleteEdge userA userB); CallRollback]
  /\ db w' = friends_AB.
Proof.
  vm_compute. repeat split; reflexivity.
Qed.

(** ** friendBlock *)

Lemma friendBlock_transaction_run (s : session) (envelope : Envelope) (userIDBytes : bytes)
    (w : World) :
  faults w = [] ->
  exists w',
    friendBlock_transaction s envelope userIDBytes w = (Returned, w')
    /\ tx w' = None
    /\ match block_effect (Bytes (UserID s)) userIDBytes
               (clock w (ticks w)) (clock w (S (ticks w))) (db w) with
       | None =>
           db w' = db w
           /\ sent w' = sent w ++ [ErrorMessageRuntimeException (CollationId envelope)
                                     "Could not block user"]
       | Some d' =>
           db w' = d'
           /\ sent w' = sent w ++ [mkEnvelope (CollationId envelope) Envelope_nil]
       end.
Proof.
  intros Hf. destruct w as [d t fs ck tk us ud fbk ex snt lg cl dp]; simpl in Hf; subst fs.
  unfold friendBlock_transaction, friendBlock_body, friendBlock_deferred, block_effect.
  run.
  destruct (count_where (edge_matches (Bytes (UserID s)) userIDBytes) (user_edge d) =? 0); run.
  - eexists; repeat split; reflexivity.
  - destruct (_ =? 1); run; eexists; repeat split; reflexivity.
Qed.

Lemma filter_and {A : Type} (f g : A -> bool) (l : list A) :
  filter (fun x => f x && g x) l = filter g (filter f l).
Proof.
  induction l as [|x l IH]; simpl; [reflexivity|].
  destruct (f x); simpl; [destruct (g x); rewrite IH; reflexivity | assumption].
Qed.

Lemma filter_delete_commute {A : Type} (f h : A -> bool) (l : list A) :
  filter f (delete_where h l) = delete_where h (filter f l).
Proof.
  unfold delete_where. induction l as [|x l IH]; simpl; [reflexivity|].
  destruct (h x) eqn:Eh, (f x) eqn:Ef; simpl; rewrite ?Eh, ?Ef; simpl; rewrite ?IH; reflexivity.
Qed.

(** Under the key of the table there is one row per ordered pair. *)
Lemma unique_rows_between (es : list EdgeRow) (r : EdgeRow) (a b : bytes) :
  unique_edges es -> In r es -> edge_key r = (a, b) -> rows_between es a b = [r].
Proof.
  unfold unique_edges, rows_between. intros Hu Hin Hk.
  induction es as [|x es IH]; simpl in *; [destruct Hin|].
  inversion Hu as [|k ks Hnotin Hnd]; subst.
  destruct Hin as [-> | Hin].
  - assert (Hm : edge_matches a b r = true) by (apply edge_matches_key; assumption).
    rewrite Hm. f_equal.
    destruct (filter (edge_matches a b) es) as [|y ys] eqn:E; [reflexivity|].
    exfalso. assert (Hy : In y (filter (edge_matches a b) es)) by (rewrite E; left; reflexivity).
    apply filter_In in Hy as [Hy1 Hy2]. apply edge_matches_key in Hy2.
    apply Hnotin. rewrite Hk, <- Hy2. apply in_map. assumption.
  - destruct (edge_matches a b x) eqn:Ex.
    + exfalso. apply edge_matches_key in Ex. apply Hnotin.
      rewrite Ex, <- Hk. apply in_map. assumption.
    + apply IH; assumption.
Qed.

Lemma keys_distinct_NoDup (ks : list (bytes * bytes)) :
  keys_distinct ks = true -> NoDup ks.
Proof.
  induction ks as [|k ks IH]; simpl; intros H; constructor.
  - apply andb_true_iff in H as [H _]. intros Hin.
    assert (Hk : key_in k ks = true).
    { clear - Hin. induction ks as [|k' ks IH]; simpl in *; [destruct Hin|].
      destruct Hin as [-> | Hin].
      - rewrite !bytes_eqb_refl. reflexivity.
      - rewrite IH by assumption. apply orb_true_r. }
    rewrite Hk in H. discriminate.
  - apply IH. apply andb_true_iff in H as [_ H]. assumption.
Qed.

(** The rows between two users after the statements of a block. *)
Lemma blocked_rows_forward (a b : bytes) (now : Z) (d : DB) :
  a <> b ->
  edges_between (delete_edge_not_blocked b a (block_edge a b now d)) a b
  = map (fun r => mkEdgeRow (e_source_id r) (e_position r) now (e_destination_id r) 3)
        (edges_between d a b).
Proof.
  intros Hne. unfold edges_between, rows_between, delete_edge_not_blocked, block_edge. simpl.
  rewrite filter_delete_disjoint.
  - apply filter_update_same. intros r H. apply edge_matches_key in H.
    apply edge_matches_key. unfold edge_key in *. simpl. assumption.
  - intros r H. unfold not_blocked in H. apply andb_true_iff in H as [H _].
    apply (edge_matches_other b a a b); [congruence | assumption].
Qed.

Lemma blocked_rows_backward (a b : bytes) (now : Z) (d : DB) :
  a <> b ->
  rows_between (user_edge (block_edge a b now d)) b a = rows_between (user_edge d) b a.
Proof.
  intros Hne. unfold rows_between, block_edge. simpl.
  apply filter_update_disjoint. intros r H. split.
  - apply (edge_matches_other a b b a); [congruence | assumption].
  - apply edge_matches_key in H. destruct (edge_matches b a _) eqn:E; [|reflexivity].
    apply edge_matches_key in E. unfold edge_key in *. simpl in E. congruence.
Qed.

Lemma count_not_blocked (a b : bytes) (now : Z) (d : DB) :
  a <> b ->
  count_where (not_blocked b a) (user_edge (block_edge a b now d))
  = count_where (fun r => negb (e_state r =? 3)) (rows_between (user_edge d) b a).
Proof.
  intros Hne. unfold count_where, not_blocked.
  rewrite filter_and. fold (rows_between (user_edge (block_edge a b now d)) b a).
  rewrite blocked_rows_backward by assumption. reflexivity.
Qed.

Lemma friendBlock_transaction_no_edge (s : session) (envelope : Envelope) (userIDBytes : bytes)
    (w : World) :
  edges_between (db w) (Bytes (UserID s)) userIDBytes = [] ->
  let r := friendBlock_transaction s envelope userIDBytes w in
  fst r = Returned
  /\ db (snd r) = db w
  /\ (hd None (faults w) = None ->
      tx (snd r) = None
      /\ sent (snd r) = sent w ++ [ErrorMessageRuntimeException (CollationId envelope)
                                     "Could not block user"]
      /\ exists ok1 ok2,
          calls (snd r)
          = calls w ++ [(CallBegin, true);
                        (CallExec (BlockEdge (Bytes (UserID s)) userIDBytes (clock w (ticks w))),
                         ok1);
                        (CallRollback, ok2)])
  /\ (hd None (faults w) <> None ->
      tx (snd r) = tx w
      /\ sent (snd r) = sent w ++ [ErrorMessageRuntimeException (CollationId envelope)
                                     "Failed to block friend"]
      /\ calls (snd r) = calls w ++ [(CallBegin, false)]).
Proof.
  intros Hnone.
  assert (Hcount : count_where (edge_matches (Bytes (UserID s)) userIDBytes) (user_edge (db w)) = 0).
  { unfold count_where. unfold edges_between, rows_between in Hnone. rewrite Hnone. reflexivity. }
  destruct w as [d t fs ck tk us ud fbk ex snt lg cl dp]. simpl in Hcount.
  unfold friendBlock_transaction, friendBlock_body, friendBlock_deferred.
  destruct fs as [|[e|] fs].
  - run. rewrite Hcount. change (0 =? 0) with true. run. rewrite <- !app_assoc.
    repeat split; try congruence; try (do 2 eexists; reflexivity).
  - run. repeat split; try congruence; try (do 2 eexists; reflexivity).
  - run. destruct fs as [|[e|] fs]; run.
    + rewrite Hcount. change (0 =? 0) with true. run. rewrite <- !app_assoc.
      repeat split; try congruence; try (do 2 eexists; reflexivity).
    + destruct e; run; destruct fs as [|[e'|] fs]; run; rewrite <- !app_assoc;
        repeat split; try congruence; try (do 2 eexists; reflexivity).
    + rewrite Hcount. change (0 =? 0) with true. run.
      destruct fs as [|[e'|] fs]; run; rewrite <- !app_assoc;
        repeat split; try congruence; try (do 2 eexists; reflexivity).
Qed.

(** C5. A block of a valid target other than the caller, when no row
    leads from the caller to the target: whatever the store answers, the
    handler returns, the tables are as they were and the caller is sent
    one runtime failure.  When the transaction could be opened, it is
    rolled back after its first statement and never committed, and the
    failure sent is the one of the missing target. *)
Theorem friendBlock_without_edge (s : session) (cid : string) (target : bytes)
    (rest : list bytes) (userID : UUID) (w : World) :
  FromBytes target = Some userID ->
  uuid_eqb userID (UserID s) = false ->
  edges_between (db w) (Bytes (UserID s)) target = [] ->
  let request := mkEnvelope cid (Envelope_FriendsBlock (target :: rest)) in
  let w' := snd (friendBlock s request w) in
  fst (friendBlock s request w) = Returned
  /\ db w' = db w
  /\ (exists message, sent w' = sent w ++ [ErrorMessageRuntimeException cid message])
  /\ (hd None (faults w) = None ->
      tx w' = None
      /\ sent w' = sent w ++ [ErrorMessageRuntimeException cid "Could not block user"]
      /\ exists ok1 ok2,
          calls w'
          = calls w ++ [(CallBegin, true);
                        (CallExec (BlockEdge (Bytes (UserID s)) target (clock w (ticks w))), ok1);
                        (CallRollback, ok2)]).
Proof.
  intros HF Hne Hnone request w'. subst w'. unfold request.
  rewrite (friendBlock_valid s cid target rest userID w HF Hne).
  destruct (when_log_frame (len (target :: rest) >? 1) LWarn
              "There are more than one user ID passed to the request - only processing the first item of the list." w)
    as (Hdb & Htx & Hfaults & Hclock & Hticks & Hsent & Hcalls & _).
  set (w1 := snd (when _ _ w)) in *.
  destruct (friendBlock_transaction_no_edge s
              (mkEnvelope cid (Envelope_FriendsBlock (target :: rest))) target w1)
    as (Hret & Hdb' & Hopen & Hfail); [rewrite Hdb; assumption|].
  cbn [CollationId] in *.
  rewrite Hfaults, Hsent, Hcalls, Hclock, Hticks in Hopen.
  rewrite Hfaults, Hsent, Hcalls in Hfail.
  split; [assumption|]. split; [congruence|]. split.
  - destruct (hd None (faults w)) eqn:E.
    + destruct Hfail as (_ & H & _); [discriminate|]. eauto.
    + destruct Hopen as (_ & H & _); [reflexivity|]. eauto.
  - exact Hopen.
Qed.

Lemma friendBlock_without_edge_witness :
  let request := mkEnvelope "c1" (Envelope_FriendsBlock [userC]) in
  let w := world_of friends_AB [] in
  let w' := snd (friendBlock sessionA request w) in
  (FromBytes userC = Some (mkUUID userC)
   /\ uuid_eqb (mkUUID userC) (UserID sessionA) = false
   /\ edges_between (db w) (Bytes (UserID sessionA)) userC = [])
  /\ fst (friendBlock sessionA request w) = Returned
  /\ db w' = friends_AB
  /\ sent w' = [ErrorMessageRuntimeException "c1" "Could not block user"].
Proof.
  intros request w w'.
  pose proof (friendBlock_without_edge sessionA "c1" userC [] (mkUUID userC) w
                eq_refl eq_refl eq_refl) as H.
  cbv zeta in H. destruct H as (H1 & H2 & _ & H4).
  destruct (H4 eq_refl) as (_ & H5 & _).
  split; [repeat split|].
  split; [exact H1|]. split; [exact H2 | exact H5].
Defined.

Lemma count_of_edges_only (d : DB) (es : list EdgeRow) (u : bytes) :
  count_of (with_user_edge d es) u = count_of d u.
Proof. reflexivity. Qed.

Lemma edges_between_decrement (source : bytes) (ts : Z) (d : DB) (a b : bytes) :
  edges_between (decrement_count source ts d) a b = edges_between d a b.
Proof. reflexivity. Qed.

(** The tables after a block that finds the row of the caller, when the
    table keeps one row per ordered pair. *)
Lemma block_effect_found (caller target : bytes) (now1 now2 : Z) (d : DB)
    (rAB rBA : EdgeRow) :
  caller <> target ->
  unique_edges (user_edge d) ->
  In rAB (user_edge d) -> edge_key rAB = (caller, target) ->
  In rBA (user_edge d) -> edge_key rBA = (target, caller) ->
  exists d',
    block_effect caller target now1 now2 d = Some d'
    /\ edges_between d' caller target
       = [mkEdgeRow caller (e_position rAB) now1 target BLOCKED]
    /\ edges_between d' target caller
       = (if e_state rBA =? 3 then [rBA] else [])
    /\ (forall u, count_of d' u
                  = if (e_state rBA =? 3) || negb (bytes_eqb target u)
                    then count_of d u
                    else option_map (fun c => c - 1) (count_of d u)).
Proof.
  intros Hne Hu HinAB HkAB HinBA HkBA.
  pose proof (unique_rows_between _ _ _ _ Hu HinAB HkAB) as HrowsAB.
  pose proof (unique_rows_between _ _ _ _ Hu HinBA HkBA) as HrowsBA.
  assert (Hfwd : map (fun r => mkEdgeRow (e_source_id r) (e_position r) now1
                                 (e_destination_id r) 3) (edges_between d caller target)
                 = [mkEdgeRow caller (e_position rAB) now1 target BLOCKED]).
  { unfold edges_between. rewrite HrowsAB. simpl.
    unfold edge_key in HkAB. injection HkAB as -> ->. reflexivity. }
  assert (Hback : forall d0,
             user_edge d0 = user_edge (block_edge caller target now1 d) ->
             edges_between (delete_edge_not_blocked target caller d0) target caller
             = if e_state rBA =? 3 then [rBA] else []).
  { intros d0 Hd0. unfold edges_between, rows_between, delete_edge_not_blocked. simpl.
    rewrite filter_delete_commute, Hd0.
    fold (rows_between (user_edge (block_edge caller target now1 d)) target caller).
    rewrite blocked_rows_backward by assumption. rewrite HrowsBA.
    unfold delete_where, not_blocked. simpl.
    assert (Hm : edge_matches target caller rBA = true) by (apply edge_matches_key; assumption).
    rewrite Hm. simpl. rewrite negb_involutive. destruct (e_state rBA =? 3); reflexivity. }
  unfold block_effect.
  assert (H0 : (count_where (edge_matches caller target) (user_edge d) =? 0) = false).
  { unfold count_where. fold (rows_between (user_edge d) caller target).
    rewrite HrowsAB. reflexivity. }
  rewrite H0. rewrite count_not_blocked by assumption. rewrite HrowsBA.
  unfold count_where. simpl.
  destruct (e_state rBA =? 3) eqn:Est; simpl.
  - eexists. split; [reflexivity|]. split; [|split].
    + rewrite blocked_rows_forward by assumption. exact Hfwd.
    + rewrite (Hback _ eq_refl), ?Est. reflexivity.
    + intros u. reflexivity.
  - eexists. split; [reflexivity|]. split; [|split].
    + rewrite edges_between_decrement, blocked_rows_forward by assumption. exact Hfwd.
    + rewrite edges_between_decrement, (Hback _ eq_refl), ?Est. reflexivity.
    + intros u. destruct (bytes_eqb target u) eqn:E; simpl.
      * apply bytes_eqb_true in E. subst u. rewrite count_of_decrement_same. reflexivity.
      * apply bytes_eqb_neq in E. rewrite count_of_decrement_other by assumption. reflexivity.
Qed.

(** A block of a valid target other than the caller whose row from the
    caller exists, when the store answers every call. *)
Lemma friendBlock_found (s : session) (cid : string) (target : bytes)
    (rest : list bytes) (userID : UUID) (w : World) (rAB rBA : EdgeRow) :
  FromBytes target = Some userID ->
  uuid_eqb userID (UserID s) = false ->
  faults w = [] ->
  unique_edges (user_edge (db w)) ->
  In rAB (user_edge (db w)) -> edge_key rAB = (Bytes (UserID s), target) ->
  In rBA (user_edge (db w)) -> edge_key rBA = (target, Bytes (UserID s)) ->
  let caller := Bytes (UserID s) in
  let request := mkEnvelope cid (Envelope_FriendsBlock (target :: rest)) in
  let d' := db (snd (friendBlock s request w)) in
  fst (friendBlock s request w) = Returned
  /\ sent (snd (friendBlock s request w)) = sent w ++ [mkEnvelope cid Envelope_nil]
  /\ edges_between d' caller target
     = [mkEdgeRow caller (e_position rAB) (clock w (ticks w)) target BLOCKED]
  /\ edges_between d' target caller = (if e_state rBA =? 3 then [rBA] else [])
  /\ (forall u, count_of d' u
                = if (e_state rBA =? 3) || negb (bytes_eqb target u)
                  then count_of (db w) u
                  else option_map (fun c => c - 1) (count_of (db w) u)).
Proof.
  intros HF Hne Hfl Hu HinAB HkAB HinBA HkBA caller request d'.
  assert (Hdiff : caller <> target).
  { apply uuid_eqb_false in Hne. rewrite (FromBytes_Bytes _ _ HF) in Hne. simpl in Hne.
    unfold caller. congruence. }
  subst d'. unfold request. rewrite (friendBlock_valid s cid target rest userID w HF Hne).
  destruct (when_log_frame (len (target :: rest) >? 1) LWarn
              "There are more than one user ID passed to the request - only processing the first item of the list." w)
    as (Hdb & _ & Hfaults & Hclock & Hticks & Hsent & _).
  set (w1 := snd (when _ _ w)) in *.
  destruct (friendBlock_transaction_run s
              (mkEnvelope cid (Envelope_FriendsBlock (target :: rest))) target w1)
    as (w' & Hrun & _ & Heff); [congruence|].
  rewrite Hrun. cbn [fst snd]. rewrite Hdb, Hclock, Hticks, Hsent in Heff.
  destruct (block_effect_found caller target (clock w (ticks w)) (clock w (S (ticks w)))
              (db w) rAB rBA Hdiff Hu HinAB HkAB HinBA HkBA)
    as (d1 & Hd1 & Hfwd & Hback & Hcount).
  fold caller in Heff. rewrite Hd1 in Heff. destruct Heff as [-> ->].
  repeat split; assumption.
Qed.

(** C4. A blocks B while the rows (A,B) and (B,A) are both CONNECTED:
    afterwards the row from A to B is BLOCKED, no row leads from B to A,
    the counter of B is one less and the counter of A is what it was. *)
Theorem friendBlock_unwinds_connection (s : session) (cid : string) (target : bytes)
    (rest : list bytes) (userID : UUID) (w : World) (rAB rBA : EdgeRow) :
  FromBytes target = Some userID ->
  uuid_eqb userID (UserID s) = false ->
  faults w = [] ->
  unique_edges (user_edge (db w)) ->
  In rAB (user_edge (db w)) -> edge_key rAB = (Bytes (UserID s), target) ->
  e_state rAB = CONNECTED ->
  In rBA (user_edge (db w)) -> edge_key rBA = (target, Bytes (UserID s)) ->
  e_state rBA = CONNECTED ->
  let caller := Bytes (UserID s) in
  let request := mkEnvelope cid (Envelope_FriendsBlock (target :: rest)) in
  let d' := db (snd (friendBlock s request w)) in
  fst (friendBlock s request w) = Returned
  /\ sent (snd (friendBlock s request w)) = sent w ++ [mkEnvelope cid Envelope_nil]
  /\ edges_between d' caller target
     = [mkEdgeRow caller (e_position rAB) (clock w (ticks w)) target BLOCKED]
  /\ edges_between d' target caller = []
  /\ count_of d' target = option_map (fun c => c - 1) (count_of (db w) target)
  /\ count_of d' caller = count_of (db w) caller.
Proof.
  intros HF Hne Hfl Hu HinAB HkAB HsAB HinBA HkBA HsBA caller request d'.
  destruct (friendBlock_found s cid target rest userID w rAB rBA
              HF Hne Hfl Hu HinAB HkAB HinBA HkBA)
    as (Hret & Hsent & Hfwd & Hback & Hcount).
  rewrite HsBA in Hback, Hcount. simpl in Hback, Hcount.
  repeat split; try assumption.
  - subst d'. unfold request. rewrite Hcount, bytes_eqb_refl. reflexivity.
  - subst d'. unfold request. rewrite Hcount.
    assert (E : bytes_eqb target caller = false).
    { apply bytes_eqb_neq. apply uuid_eqb_false in Hne.
      rewrite (FromBytes_Bytes _ _ HF) in Hne. exact Hne. }
    rewrite E. reflexivity.
Qed.

Lemma friendBlock_unwinds_connection_witness :
  let request := mkEnvelope "c1" (Envelope_FriendsBlock [userB]) in
  let w := world_of friends_AB [] in
  let d' := db (snd (friendBlock sessionA request w)) in
  (FromBytes userB = Some (mkUUID userB)
   /\ uuid_eqb (mkUUID userB) (UserID sessionA) = false
   /\ faults w = []
   /\ unique_edges (user_edge (db w))
   /\ In (mkEdgeRow userA 5 5 userB CONNECTED) (user_edge (db w))
   /\ In (mkEdgeRow userB 5 5 userA CONNECTED) (user_edge (db w)))
  /\ fst (friendBlock sessionA request w) = Returned
  /\ edges_between d' userA userB = [mkEdgeRow userA 5 100 userB BLOCKED]
  /\ edges_between d' userB userA = []
  /\ count_of d' userB = Some 0
  /\ count_of d' userA = Some 1.
Proof.
  intros request w d'.
  assert (Hu : unique_edges (user_edge (db w))) by (apply keys_distinct_NoDup; reflexivity).
  assert (HinAB : In (mkEdgeRow userA 5 5 userB CONNECTED) (user_edge (db w)))
    by (left; reflexivity).
  assert (HinBA : In (mkEdgeRow userB 5 5 userA CONNECTED) (user_edge (db w)))
    by (right; left; reflexivity).
  pose proof (friendBlock_unwinds_connection sessionA "c1" userB [] (mkUUID userB) w
                (mkEdgeRow userA 5 5 userB CONNECTED) (mkEdgeRow userB 5 5 userA CONNECTED)
                eq_refl eq_refl eq_refl Hu HinAB eq_refl eq_refl HinBA eq_refl eq_refl) as H.
  cbv zeta in H. destruct H as (H1 & _ & H3 & H4 & H5 & H6).
  split; [repeat split; assumption|].
  split; [exact H1|]. split; [exact H3|]. split; [exact H4|].
  split; [exact H5 | exact H6].
Defined.

(** C7. A blocks B while a row leads from A to B and the row from B to A
    is BLOCKED: afterwards the row from A to B is BLOCKED, the row from B
    to A is the one it was, and no counter has changed. *)
Theorem friendBlock_keeps_peer_block (s : session) (cid : string) (target : bytes)
    (rest : list bytes) (userID : UUID) (w : World) (rAB rBA : EdgeRow) :
  FromBytes target = Some userID ->
  uuid_eqb userID (UserID s) = false ->
  faults w = [] ->
  unique_edges (user_edge (db w)) ->
  In rAB (user_edge (db w)) -> edge_key rAB = (Bytes (UserID s), target) ->
  In rBA (user_edge (db w)) -> edge_key rBA = (target, Bytes (UserID s)) ->
  e_state rBA = BLOCKED ->
  let caller := Bytes (UserID s) in
  let request := mkEnvelope cid (Envelope_FriendsBlock (target :: rest)) in
  let d' := db (snd (friendBlock s request w)) in
  fst (friendBlock s request w) = Returned
  /\ sent (snd (friendBlock s request w)) = sent w ++ [mkEnvelope cid Envelope_nil]
  /\ edges_between d' caller target
     = [mkEdgeRow caller (e_position rAB) (clock w (ticks w)) target BLOCKED]
  /\ edges_between d' target caller = [rBA]
  /\ (forall u, count_of d' u = count_of (db w) u).
Proof.
  intros HF Hne Hfl Hu HinAB HkAB HinBA HkBA HsBA caller request d'.
  destruct (friendBlock_found s cid target rest userID w rAB rBA
              HF Hne Hfl Hu HinAB HkAB HinBA HkBA)
    as (Hret & Hsent & Hfwd & Hback & Hcount).
  rewrite HsBA in Hback, Hcount. simpl in Hback, Hcount.
  repeat split; assumption.
Qed.

Lemma friendBlock_keeps_peer_block_witness :
  let request := mkEnvelope "c1" (Envelope_FriendsBlock [userB]) in
  let w := world_of B_blocked_A [] in
  let d' := db (snd (friendBlock sessionA request w)) in
  (FromBytes userB = Some (mkUUID userB)
   /\ uuid_eqb (mkUUID userB) (UserID sessionA) = false
   /\ faults w = []
   /\ unique_edges (user_edge (db w))
   /\ In (mkEdgeRow userA 5 5 userB CONNECTED) (user_edge (db w))
   /\ In (mkEdgeRow userB 5 7 userA BLOCKED) (user_edge (db w)))
  /\ fst (friendBlock sessionA request w) = Returned
  /\ edges_between d' userA userB = [mkEdgeRow userA 5 100 userB BLOCKED]
  /\ edges_between d' userB userA = [mkEdgeRow userB 5 7 userA BLOCKED]
  /\ count_of d' userA = Some 0
  /\ count_of d' userB = Some 1.
Proof.
  intros request w d'.
  assert (Hu : unique_edges (user_edge (db w))) by (apply keys_distinct_NoDup; reflexivity).
  assert (HinAB : In (mkEdgeRow userA 5 5 userB CONNECTED) (user_edge (db w)))
    by (left; reflexivity).
  assert (HinBA : In (mkEdgeRow userB 5 7 userA BLOCKED) (user_edge (db w)))
    by (right; left; reflexivity).
  pose proof (friendBlock_keeps_peer_block sessionA "c1" userB [] (mkUUID userB) w
                (mkEdgeRow userA 5 5 userB CONNECTED) (mkEdgeRow userB 5 7 userA BLOCKED)
                eq_refl eq_refl eq_refl Hu HinAB eq_refl HinBA eq_refl eq_refl) as H.
  cbv zeta in H. destruct H as (H1 & _ & H3 & H4 & H5).
  split; [repeat split; assumption|].
  split; [exact H1|]. split; [exact H3|]. split; [exact H4|].
  split; [exact (H5 userA) | exact (H5 userB)].
Defined.

(** ** Requests that never reach the store *)

Lemma rejected_after_warning (cid : string) (b : bool) (msg : string) (w : World)
    (r : Completion * World) :
  rejected cid (snd (when b (log LWarn msg) w)) r -> rejected cid w r.
Proof.
  destruct (when_log_frame b LWarn msg w) as (Hdb & Htx & _ & _ & _ & Hsent & Hcalls & Hdisp).
  unfold rejected. rewrite Hdb, Htx, Hsent, Hcalls, Hdisp. auto.
Qed.

Lemma rejected_send (cid message : string) (w : World) :
  rejected cid w (Returned, snd (Send (ErrorMessageBadInput cid message) w)).
Proof.
  unfold rejected. simpl. repeat split. eauto.
Qed.

Lemma rejected_log_send (cid note message : string) (w : World) :
  rejected cid w
    (Returned, snd (Send (ErrorMessageBadInput cid message) (snd (log LWarn note w)))).
Proof.
  unfold rejected. simpl. repeat split. eauto.
Qed.

Lemma uuid_of_self (s : session) (u : UUID) :
  FromBytes (Bytes (UserID s)) = Some u -> uuid_eqb u (UserID s) = true.
Proof.
  intros H. rewrite (FromBytes_Bytes _ _ H). apply bytes_eqb_refl.
Qed.

Lemma friendRemove_self (s : session) (cid : string) (rest : list bytes) (w : World) :
  rejected cid w
    (friendRemove s (mkEnvelope cid (Envelope_FriendsRemove (Bytes (UserID s) :: rest))) w).
Proof.
  unfold friendRemove. cbn [GetFriendsRemove Payload CollationId].
  unfold bind at 1. destruct (when _ _ w) as [[] w1] eqn:Ew.
  apply (rejected_after_warning cid (len (Bytes (UserID s) :: rest) >? 1)
           "There are more than one user ID passed to the request - only processing the first item of the list.").
  rewrite Ew. cbn [snd].
  destruct (len (Bytes (UserID s)) =? 0); [apply rejected_send|].
  destruct (FromBytes (Bytes (UserID s))) as [u|] eqn:HF.
  - rewrite (uuid_of_self s u HF). apply rejected_log_send.
  - apply rejected_log_send.
Qed.

Lemma friendBlock_self (s : session) (cid : string) (rest : list bytes) (w : World) :
  rejected cid w
    (friendBlock s (mkEnvelope cid (Envelope_FriendsBlock (Bytes (UserID s) :: rest))) w).
Proof.
  unfold friendBlock. cbn [GetFriendsBlock Payload CollationId].
  unfold bind at 1. destruct (when _ _ w) as [[] w1] eqn:Ew.
  apply (rejected_after_warning cid (len (Bytes (UserID s) :: rest) >? 1)
           "There are more than one user ID passed to the request - only processing the first item of the list.").
  rewrite Ew. cbn [snd].
  destruct (len (Bytes (UserID s)) =? 0); [apply rejected_send|].
  destruct (FromBytes (Bytes (UserID s))) as [u|] eqn:HF.
  - rewrite (uuid_of_self s u HF). apply rejected_log_send.
  - apply rejected_log_send.
Qed.

Section FriendAddProperties.

Variable core_friendAdd : bytes -> string -> bytes -> M (option GoError).
Variable core_friendAddHandle : bytes -> string -> string -> M (option GoError).

Lemma friendAdd_self_id (s : session) (cid : string) (rest : list TFriendsAdd_FriendsAdd)
    (w : World) :
  rejected cid w
    (friendAdd core_friendAdd core_friendAddHandle s
       (mkEnvelope cid (Envelope_FriendsAdd
                          (TFriendsAdd_FriendsAdd_UserId (Bytes (UserID s)) :: rest))) w).
Proof.
  unfold friendAdd. cbn [GetFriendsAdd Payload CollationId].
  unfold bind at 1. destruct (when _ _ w) as [[] w1] eqn:Ew.
  apply (rejected_after_warning cid
           (len (TFriendsAdd_FriendsAdd_UserId (Bytes (UserID s)) :: rest) >? 1)
           "There are more than one friend passed to the request - only processing the first item of the list.").
  rewrite Ew. cbn [snd]. unfold friendAddById. cbn [CollationId].
  destruct (len (Bytes (UserID s)) =? 0); [apply rejected_send|].
  destruct (FromBytes (Bytes (UserID s))) as [u|] eqn:HF.
  - rewrite (uuid_of_self s u HF). apply rejected_log_send.
  - apply rejected_log_send.
Qed.

Lemma friendAdd_self_handle (s : session) (cid : string) (rest : list TFriendsAdd_FriendsAdd)
    (w : World) :
  rejected cid w
    (friendAdd core_friendAdd core_friendAddHandle s
       (mkEnvelope cid (Envelope_FriendsAdd
                          (TFriendsAdd_FriendsAdd_Handle (SessionHandle s) :: rest))) w).
Proof.
  unfold friendAdd. cbn [GetFriendsAdd Payload CollationId].
  unfold bind at 1. destruct (when _ _ w) as [[] w1] eqn:Ew.
  apply (rejected_after_warning cid
           (len (TFriendsAdd_FriendsAdd_Handle (SessionHandle s) :: rest) >? 1)
           "There are more than one friend passed to the request - only processing the first item of the list.").
  rewrite Ew. cbn [snd]. unfold friendAddByHandle. cbn [CollationId].
  rewrite String.eqb_refl, orb_true_r. apply rejected_send.
Qed.

(** C8. An add by id, an add by handle, a remove and a block whose first
    target is the caller: each returns after one validation error,
    leaves the tables as they were and opens no transaction (no call
    reaches the store). *)
Theorem self_target_rejected (s : session) (cid : string) (w : World) :
  (forall rest,
      rejected cid w
        (friendAdd core_friendAdd core_friendAddHandle s
           (mkEnvelope cid (Envelope_FriendsAdd
                              (TFriendsAdd_FriendsAdd_UserId (Bytes (UserID s)) :: rest))) w))
  /\ (forall rest,
         rejected cid w
           (friendAdd core_friendAdd core_friendAddHandle s
              (mkEnvelope cid (Envelope_FriendsAdd
                                 (TFriendsAdd_FriendsAdd_Handle (SessionHandle s) :: rest))) w))
  /\ (forall rest,
         rejected cid w
           (friendRemove s
              (mkEnvelope cid (Envelope_FriendsRemove (Bytes (UserID s) :: rest))) w))
  /\ (forall rest,
         rejected cid w
           (friendBlock s
              (mkEnvelope cid (Envelope_FriendsBlock (Bytes (UserID s) :: rest))) w)).
Proof.
  split; [|split; [|split]]; intros rest.
  - apply friendAdd_self_id.
  - apply friendAdd_self_handle.
  - apply friendRemove_self.
  - apply friendBlock_self.
Qed.

(** C10. An add whose first entry carries neither a user id nor a
    handle: the handler returns, and nothing was sent to the session,
    stored, asked of the store or dispatched. *)
Theorem friendAdd_unset_dropped (s : session) (cid : string)
    (rest : list TFriendsAdd_FriendsAdd) (w : World) :
  dropped w
    (friendAdd core_friendAdd core_friendAddHandle s
       (mkEnvelope cid (Envelope_FriendsAdd (FriendsAdd_unset :: rest))) w).
Proof.
  unfold friendAdd. cbn [GetFriendsAdd Payload CollationId].
  unfold bind at 1. destruct (when _ _ w) as [[] w1] eqn:Ew.
  destruct (when_log_frame (len (FriendsAdd_unset :: rest) >? 1) LWarn
              "There are more than one friend passed to the request - only processing the first item of the list." w)
    as (Hdb & Htx & _ & _ & _ & Hsent & Hcalls & Hdisp).
  rewrite Ew in Hdb, Htx, Hsent, Hcalls, Hdisp. cbn [snd] in *.
  unfold dropped, ret. cbn [fst snd]. auto 10.
Qed.

End FriendAddProperties.

(** ** friendsList *)

Lemma select_friends_In (userID : bytes) (d : DB) (u : UserRow) (e : EdgeRow) :
  In (u, e) (select_friends friends_of userID d)
  <-> In u (users d) /\ In e (user_edge d)
      /\ u_id u = e_destination_id e /\ e_source_id e = userID.
Proof.
  unfold select_friends, friends_of. rewrite filter_In, in_prod_iff. simpl.
  rewrite andb_true_iff, !bytes_eqb_eq. tauto.
Qed.

Lemma scan_friend_state (r : UserRow * EdgeRow) :
  State (scan_friend r) = e_state (snd r)
  /\ Id (Friend_User (scan_friend r)) = u_id (fst r).
Proof. destruct r; split; reflexivity. Qed.

(** C2, as amended. When the query succeeds, the list sent to the session
    holds one record per row of the join of the caller's outgoing edges
    with the profiles of their destinations: the rows are those of the
    join in the order the store yields them (the query has no ORDER BY),
    each record carrying the profile of the destination and the current
    state of its edge; the tables are not modified. *)
Theorem friendsList_lists_edges (E : Engine) (s : session) (envelope : Envelope) (w : World) :
  hd None (faults w) = None ->
  exists rows,
    fst (getFriends_rows E friends_of (Bytes (UserID s)) w) = (rows, None)
    /\ sent (snd (friendsList E s envelope w))
       = sent w ++ [mkEnvelope (CollationId envelope) (Envelope_Friends (map scan_friend rows))]
    /\ Permutation rows (select_friends friends_of (Bytes (UserID s)) (db w))
    /\ (forall u e,
           In (u, e) rows
           <-> In u (users (db w)) /\ In e (user_edge (db w))
               /\ u_id u = e_destination_id e /\ e_source_id e = Bytes (UserID s))
    /\ (forall r, In r rows ->
           State (scan_friend r) = e_state (snd r)
           /\ Id (Friend_User (scan_friend r)) = e_destination_id (snd r))
    /\ db (snd (friendsList E s envelope w)) = db w.
Proof.
  intros Hf. destruct w as [d t fs ck tk us ud fbk ex snt lg cl dp]. simpl in Hf.
  exists (scan E (select_friends friends_of (Bytes (UserID s)) d)).
  assert (Hperm := scan_perm E (select_friends friends_of (Bytes (UserID s)) d)).
  assert (Hin : forall u e,
             In (u, e) (scan E (select_friends friends_of (Bytes (UserID s)) d))
             <-> In u (users d) /\ In e (user_edge d)
                 /\ u_id u = e_destination_id e /\ e_source_id e = Bytes (UserID s)).
  { intros u e. rewrite <- select_friends_In. split; apply Permutation_in.
    - exact Hperm.
    - apply Permutation_sym. exact Hperm. }
  unfold friendsList, getFriends, getFriends_rows. run. rewrite Hf. run.
  split; [reflexivity|]. split; [reflexivity|]. split; [exact Hperm|].
  split; [exact Hin|]. split; [|reflexivity].
  intros [u e] Hr. simpl. split; [reflexivity|].
  apply Hin in Hr. destruct Hr as (_ & _ & H & _). exact H.
Qed.

Lemma friendsList_lists_edges_witness :
  let w := world_of friends_AC_AB [] in
  hd None (faults w) = None
  /\ exists rows,
      fst (getFriends_rows reverse_order friends_of (Bytes (UserID sessionA)) w) = (rows, None)
      /\ sent (snd (friendsList reverse_order sessionA (mkEnvelope "c1" Envelope_nil) w))
         = sent w ++ [mkEnvelope "c1" (Envelope_Friends (map scan_friend rows))]
      /\ Permutation rows (select_friends friends_of (Bytes (UserID sessionA)) (db w)).
Proof.
  intros w. split; [reflexivity|].
  destruct (friendsList_lists_edges reverse_order sessionA (mkEnvelope "c1" Envelope_nil) w
              eq_refl) as (rows & H1 & H2 & H3 & _).
  exists rows. split; [exact H1|]. split; [exact H2 | exact H3].
Defined.

(** C2, as stated, fails: A befriended C at 3 and B at 5.  A store that
    yields the rows of the join as they are stored, profile by profile,
    lists B before C; a store that yields them last first lists C before
    B.  The order of the list is the order of the store, not the order
    of creation. *)
Lemma friendsList_not_in_creation_order :
  let rows_of E := fst (getFriends_rows E friends_of userA (world_of friends_AC_AB [])) in
  let listed rows := map (fun r => (e_destination_id (snd r), e_position (snd r))) rows in
  snd (rows_of stored_order) = None
  /\ listed (fst (rows_of stored_order)) = [(userB, 5); (userC, 3)]
  /\ creation_ordered (fst (rows_of stored_order)) = false
  /\ listed (fst (rows_of reverse_order)) = [(userC, 3); (userB, 5)].
Proof.
  repeat split; reflexivity.
Qed.

(** ** addFacebookFriends *)

(** C1, on the code: A, whose counter is 1 (its friend B), imports three
    Facebook friends of whom two, C and D, are registered.  The import
    commits: the four mirrored rows are inserted, the counters of C and D
    go from 0 to 1, two notifications are dispatched; the counter of A is
    set to 2, the number of matches, where 1 + 2 = 3 is due. *)
Theorem addFacebookFriends_overwrites_count :
  let w := world_of friends_AB [] in
  let w' := snd (addFacebookFriends stored_order userA "a" "fa" "token" w) in
  count_of (db w) userA = Some 1
  /\ map fst (calls w')
     = [CallBegin; CallQuery;
        CallExec (InsertEdges [PBytes userA; PInt 100; PBytes userC; PBytes userD]);
        CallExec (IncrementCounts [PInt 100; PBytes userC; PBytes userD]);
        CallExec (SetCount 2 100 userA);
        CallCommit]
  /\ forallb snd (calls w') = true
  /\ user_edge (db w')
     = user_edge (db w)
       ++ [mkEdgeRow userA 100 100 userC CONNECTED; mkEdgeRow userC 100 100 userA CONNECTED;
           mkEdgeRow userA 100 100 userD CONNECTED; mkEdgeRow userD 100 100 userA CONNECTED]
  /\ count_of (db w') userC = Some 1
  /\ count_of (db w') userD = Some 1
  /\ map (map NUserID) (dispatched w') = [[userC; userD]]
  /\ count_of (db w') userA = Some 2.
Proof.
  vm_compute. repeat split; reflexivity.
Qed.

Lemma collect_params_app (rows : list bytes) (pe pm : list Param) :
  collect_params rows pe pm = (pe ++ map PBytes rows, pm ++ map PBytes rows).
Proof.
  revert pe pm. induction rows as [|r rows IH]; intros pe pm; simpl.
  - rewrite !app_nil_r. reflexivity.
  - rewrite IH, <- !app_assoc. reflexivity.
Qed.

Lemma param_ids_map (rows : list bytes) : param_ids (map PBytes rows) = rows.
Proof. induction rows as [|r rows IH]; simpl; [|rewrite IH]; reflexivity. Qed.

Lemma len_cons_nonzero {A : Type} (x : A) (l : list A) : (len (x :: l) =? 0) = false.
Proof. apply Z.eqb_neq. unfold len. cbn [List.length]. lia. Qed.

Lemma len_params (userID : bytes) (ts : Z) (p : bytes) (ps : list bytes) :
  (len ([PBytes userID; PInt ts] ++ map PBytes (p :: ps)) <=? 2) = false
  /\ len ([PBytes userID; PInt ts] ++ map PBytes (p :: ps)) - 2 = len (p :: ps).
Proof.
  unfold len. cbn [List.length app map]. rewrite length_map.
  split; [apply Z.leb_gt|]; lia.
Qed.

(** The body of an import that finds registered friends, when the store
    answers every call and the new rows clash with no key: the
    transaction holds the inserted rows, the incremented counters of the
    peers and the counter of the caller set to their number. *)
Lemma addFacebookFriends_body_ok (E : Engine) (userID : bytes) (ts : Z) (accessToken : string)
    (fbFriends : list string) (w : World) :
  faults w = [] ->
  facebook w accessToken = (fbFriends, None) ->
  fbFriends <> [] ->
  scan E (select_facebook_users fbFriends (db w)) <> [] ->
  keys_distinct
    (map edge_key
       (user_edge (db w)
        ++ mirrored_rows userID ts (scan E (select_facebook_users fbFriends (db w))))) = true ->
  let peers := scan E (select_facebook_users fbFriends (db w)) in
  let r := addFacebookFriends_body E userID ts accessToken w in
  fst r = (true, None, map PBytes peers)
  /\ tx (snd r)
     = Some (set_count (len peers) ts userID
               (increment_counts peers ts
                  (with_user_edge (db w) (user_edge (db w) ++ mirrored_rows userID ts peers))))
  /\ db (snd r) = db w /\ faults (snd r) = [] /\ sent (snd r) = sent w
  /\ dispatched (snd r) = dispatched w.
Proof.
  intros Hf Hfb Hne Hpeers Hkeys peers r. subst r.
  destruct w as [d t fs ck tk us ud fbk ex snt lg cl dp]; simpl in *; subst fs.
  destruct fbFriends as [|f fbFriends]; [contradiction|].
  unfold addFacebookFriends_body. run. rewrite Hfb. run.
  rewrite len_cons_nonzero. run.
  rewrite collect_params_app. fold peers in Hpeers, Hkeys |- *.
  destruct peers as [|p ps]; [contradiction|].
  destruct (len_params userID ts p ps) as [Hle Hlen].
  rewrite Hle. run. cbn [app param_ids]. rewrite !param_ids_map.
  rewrite Hkeys. run. cbn [app param_ids]. rewrite ?param_ids_map.
  cbn [app map] in Hlen. rewrite Hlen. run.
  repeat split; reflexivity.
Qed.

Lemma make_notifications_frame (userID : bytes) (content : list (string * string))
    (ts expiresAt : Z) (ids : list bytes) (w : World) :
  let r := make_notifications userID content ts expiresAt ids w in
  map NUserID (fst r) = ids
  /\ db (snd r) = db w /\ tx (snd r) = tx w /\ faults (snd r) = faults w
  /\ sent (snd r) = sent w /\ dispatched (snd r) = dispatched w.
Proof.
  revert w. induction ids as [|fid ids IH]; intros w; simpl.
  - repeat split; reflexivity.
  - unfold bind, NewV4, ret. simpl.
    specialize (IH (mkWorld (db w) (tx w) (faults w) (clock w) (ticks w) (uuid_source w)
                            (S (uuid_drawn w)) (facebook w) (expiryMs w) (sent w)
                            (logged w) (calls w) (dispatched w))).
    simpl in IH. destruct (make_notifications _ _ _ _ ids _) as [ns w1].
    simpl in *. destruct IH as (H1 & H2 & H3 & H4 & H5 & H6).
    repeat split; try assumption. rewrite H1. reflexivity.
Qed.

(** The deferred function after such a body: the transaction is
    committed and one notification per peer is dispatched. *)
Lemma addFacebookFriends_deferred_ok (userID : bytes) (handle fbid : string) (ts : Z)
    (p : bytes) (ps : list bytes) (d' : DB) (w : World) :
  faults w = [] ->
  tx w = Some d' ->
  let w' := snd (addFacebookFriends_deferred userID handle fbid ts true None
                   (map PBytes (p :: ps)) w) in
  db w' = d' /\ tx w' = None /\ sent w' = sent w
  /\ map (map NUserID) (dispatched w') = map (map NUserID) (dispatched w) ++ [p :: ps].
Proof.
  intros Hf Htx.
  destruct w as [d t fs ck tk us ud fbk ex snt lg cl dp]; simpl in *; subst fs t.
  unfold addFacebookFriends_deferred. run.
  rewrite ?len_cons_nonzero. cbn [negb map param_ids]. rewrite param_ids_map.
  match goal with
  | |- context [make_notifications ?u ?c ?t ?e ?ids ?w0] =>
      pose proof (make_notifications_frame u c t e ids w0) as Hframe;
      destruct (make_notifications u c t e ids w0) as [ns w1]
  end.
  cbn [fst snd db tx faults sent dispatched] in Hframe.
  destruct Hframe as (Hids & Hdb & Htx & Hfaults & Hsent & Hdisp).
  run. rewrite Hfaults. run.
  rewrite Hdb, Htx, Hsent, Hdisp, map_app. simpl. rewrite Hids.
  repeat split; reflexivity.
Qed.

Lemma counter_update (f : MetaRow -> bool) (g : MetaRow -> MetaRow) (ms : list MetaRow)
    (u : bytes) :
  (forall r, m_source_id (g r) = m_source_id r) ->
  counter (update_where f g ms) u
  = option_map (fun r => m_count (if f r then g r else r)) (find (meta_of u) ms).
Proof.
  intros Hg. unfold counter, update_where, meta_of.
  induction ms as [|r ms IH]; simpl; [reflexivity|].
  assert (Hid : m_source_id (if f r then g r else r) = m_source_id r)
    by (destruct (f r); [apply Hg | reflexivity]).
  rewrite Hid. destruct (bytes_eqb (m_source_id r) u); [reflexivity | apply IH].
Qed.

Lemma count_of_set_count_same (n ts : Z) (u : bytes) (d : DB) :
  count_of (set_count n ts u d) u = option_map (fun _ => n) (count_of d u).
Proof.
  unfold count_of, set_count. simpl. rewrite counter_update by reflexivity.
  unfold counter. fold (meta_of u).
  destruct (find (meta_of u) (user_edge_metadata d)) as [r|] eqn:E; simpl; [|reflexivity].
  apply find_some in E as [_ E]. rewrite E. reflexivity.
Qed.

Lemma count_of_set_count_other (n ts : Z) (u other : bytes) (d : DB) :
  u <> other ->
  count_of (set_count n ts u d) other = count_of d other.
Proof.
  intros Hne. unfold count_of, set_count. simpl.
  apply counter_update_other; [reflexivity|].
  intros r H. apply bytes_eqb_true in H. congruence.
Qed.

Lemma id_in_In (b : bytes) (ids : list bytes) : id_in b ids = true <-> In b ids.
Proof.
  unfold id_in. rewrite existsb_exists. split.
  - intros (x & Hx & E). apply bytes_eqb_true in E. subst. assumption.
  - intros H. exists b. split; [assumption | apply bytes_eqb_refl].
Qed.

Lemma count_of_increment_counts (ids : list bytes) (ts : Z) (u : bytes) (d : DB) :
  count_of (increment_counts ids ts d) u
  = if id_in u ids then option_map (fun c => c + 1) (count_of d u) else count_of d u.
Proof.
  unfold count_of, increment_counts. simpl. rewrite counter_update by reflexivity.
  unfold counter. fold (meta_of u).
  destruct (find (meta_of u) (user_edge_metadata d)) as [r|] eqn:E; simpl.
  - apply find_some in E as [_ E]. apply bytes_eqb_true in E.
    unfold meta_in. rewrite E. destruct (id_in u ids); reflexivity.
  - destruct (id_in u ids); reflexivity.
Qed.

(** X15. An import that finds registered friends and commits: the
    mirrored CONNECTED rows between the user and each matched peer are
    added to user_edge, stamped with the time of the import; the counter
    of each matched peer goes up by one; the counter of the user is set
    to the number of matches; and one batch is dispatched, holding one
    notification per matched peer, in the order of the match. *)
Theorem addFacebookFriends_sets_count (E : Engine) (userID : bytes)
    (handle fbid accessToken : string) (fbFriends : list string) (w : World) :
  faults w = [] ->
  facebook w accessToken = (fbFriends, None) ->
  fbFriends <> [] ->
  scan E (select_facebook_users fbFriends (db w)) <> [] ->
  keys_distinct
    (map edge_key
       (user_edge (db w)
        ++ mirrored_rows userID (clock w (ticks w))
             (scan E (select_facebook_users fbFriends (db w))))) = true ->
  let peers := scan E (select_facebook_users fbFriends (db w)) in
  let w' := snd (addFacebookFriends E userID handle fbid accessToken w) in
  user_edge (db w') = user_edge (db w) ++ mirrored_rows userID (clock w (ticks w)) peers
  /\ count_of (db w') userID = option_map (fun _ => len peers) (count_of (db w) userID)
  /\ (forall p, In p peers -> p <> userID ->
                count_of (db w') p = option_map (fun c => c + 1) (count_of (db w) p))
  /\ map (map NUserID) (dispatched w') = map (map NUserID) (dispatched w) ++ [peers].
Proof.
  intros Hf Hfb Hne Hpeers Hkeys peers w'.
  assert (Hrun : exists w1,
             faults w1 = []
             /\ tx w1 = Some (set_count (len peers) (clock w (ticks w)) userID
                                (increment_counts peers (clock w (ticks w))
                                   (with_user_edge (db w)
                                      (user_edge (db w)
                                       ++ mirrored_rows userID (clock w (ticks w)) peers))))
             /\ dispatched w1 = dispatched w
             /\ w' = snd (addFacebookFriends_deferred userID handle fbid (clock w (ticks w))
                            true None (map PBytes peers) w1)).
  { subst w'. unfold addFacebookFriends, bind.
    destruct (nowMs w) as [ts w0] eqn:Enow.
    assert (Hw0 : ts = clock w (ticks w) /\ db w0 = db w /\ faults w0 = []
                  /\ facebook w0 = facebook w /\ dispatched w0 = dispatched w).
    { unfold nowMs in Enow. injection Enow as <- <-. simpl. auto. }
    destruct Hw0 as (-> & Hdb0 & Hf0 & Hfb0 & Hdisp0).
    pose proof (addFacebookFriends_body_ok E userID (clock w (ticks w)) accessToken
                  fbFriends w0) as Hbody.
    rewrite Hdb0, Hfb0 in Hbody. specialize (Hbody Hf0 Hfb Hne Hpeers Hkeys).
    cbv zeta in Hbody. fold peers in Hbody.
    destruct (addFacebookFriends_body E userID (clock w (ticks w)) accessToken w0)
      as [[[tx_set err] friendUserIDs] w1].
    cbn [fst snd] in Hbody. destruct Hbody as (Hres & Htx1 & _ & Hf1 & _ & Hdisp1).
    injection Hres as -> -> ->.
    exists w1. repeat split; try assumption. congruence. }
  destruct Hrun as (w1 & Hf1 & Htx1 & Hdisp1 & Hw').
  fold peers in Hpeers. destruct peers as [|p ps] eqn:Ep; [contradiction|].
  pose proof (addFacebookFriends_deferred_ok userID handle fbid (clock w (ticks w)) p ps
                _ w1 Hf1 Htx1) as Hdef.
  cbv zeta in Hdef. rewrite <- Hw' in Hdef. destruct Hdef as (Hdb' & _ & _ & Hdisp').
  rewrite Hdb', Hdisp', Hdisp1.
  split; [reflexivity|]. split; [|split; [|reflexivity]].
  - rewrite count_of_set_count_same, count_of_increment_counts.
    rewrite count_of_edges_only.
    destruct (id_in userID (p :: ps)), (count_of (db w) userID); reflexivity.
  - intros q Hq Hneq.
    rewrite count_of_set_count_other by congruence.
    rewrite count_of_increment_counts, count_of_edges_only.
    apply id_in_In in Hq. rewrite Hq. reflexivity.
Qed.

(** ** Requests with several entries *)

(** The entries after the first are looked at only to decide whether to
    log the warning: a request behaves as the request made of its first
    entry, run after the warning. *)
Lemma friendRemove_first_only (s : session) (cid : string) (first : bytes)
    (rest : list bytes) (w : World) :
  friendRemove s (mkEnvelope cid (Envelope_FriendsRemove (first :: rest))) w
  = friendRemove s (mkEnvelope cid (Envelope_FriendsRemove [first]))
      (snd (when (len (first :: rest) >? 1)
              (log LWarn "There are more than one user ID passed to the request - only processing the first item of the list.") w)).
Proof.
  unfold friendRemove. cbn [GetFriendsRemove Payload CollationId].
  unfold bind at 1 7. destruct (when _ _ w) as [[] w1]. cbn [snd].
  change (len [first] >? 1) with false. cbn [when ret].
  unfold friendRemove_transaction, friendRemove_deferred. reflexivity.
Qed.

Lemma friendBlock_first_only (s : session) (cid : string) (first : bytes)
    (rest : list bytes) (w : World) :
  friendBlock s (mkEnvelope cid (Envelope_FriendsBlock (first :: rest))) w
  = friendBlock s (mkEnvelope cid (Envelope_FriendsBlock [first]))
      (snd (when (len (first :: rest) >? 1)
              (log LWarn "There are more than one user ID passed to the request - only processing the first item of the list.") w)).
Proof.
  unfold friendBlock. cbn [GetFriendsBlock Payload CollationId].
  unfold bind at 1 7. destruct (when _ _ w) as [[] w1]. cbn [snd].
  change (len [first] >? 1) with false. cbn [when ret].
  unfold friendBlock_transaction, friendBlock_deferred. reflexivity.
Qed.

Lemma friendRemove_empty (s : session) (cid : string) (w : World) :
  rejected cid w (friendRemove s (mkEnvelope cid (Envelope_FriendsRemove [])) w).
Proof. apply rejected_send. Qed.

Lemma friendBlock_empty (s : session) (cid : string) (w : World) :
  rejected cid w (friendBlock s (mkEnvelope cid (Envelope_FriendsBlock [])) w).
Proof. apply rejected_send. Qed.

(** Whatever the store answers, the transaction of a remove and of a
    block send one response. *)
Lemma friendRemove_transaction_one_response (s : session) (envelope : Envelope)
    (friendIDBytes : bytes) (w : World) :
  exists response,
    sent (snd (friendRemove_transaction s envelope friendIDBytes w)) = sent w ++ [response].
Proof.
  destruct w as [d t fs ck tk us ud fbk ex snt lg cl dp].
  unfold friendRemove_transaction, friendRemove_body, friendRemove_deferred.
  case_store; eexists; reflexivity.
Qed.

Lemma friendBlock_transaction_one_response (s : session) (envelope : Envelope)
    (userIDBytes : bytes) (w : World) :
  exists response,
    sent (snd (friendBlock_transaction s envelope userIDBytes w)) = sent w ++ [response].
Proof.
  destruct w as [d t fs ck tk us ud fbk ex snt lg cl dp].
  unfold friendBlock_transaction, friendBlock_body, friendBlock_deferred.
  case_store; eexists; reflexivity.
Qed.

Lemma friendRemove_one_response (s : session) (cid : string) (UserIds : list bytes)
    (w : World) :
  exists response,
    sent (snd (friendRemove s (mkEnvelope cid (Envelope_FriendsRemove UserIds)) w))
    = sent w ++ [response].
Proof.
  destruct UserIds as [|first rest]; [eexists; reflexivity|].
  rewrite friendRemove_first_only.
  destruct (when_log_frame (len (first :: rest) >? 1) LWarn
              "There are more than one user ID passed to the request - only processing the first item of the list." w)
    as (_ & _ & _ & _ & _ & Hsent & _).
  rewrite <- Hsent. generalize (snd (when (len (first :: rest) >? 1)
              (log LWarn "There are more than one user ID passed to the request - only processing the first item of the list.") w)).
  intros w1. unfold friendRemove. cbn [GetFriendsRemove Payload CollationId].
  change (len [first] >? 1) with false. cbn [when]. unfold bind at 1. cbn [ret].
  destruct (len first =? 0); [eexists; reflexivity|].
  destruct (FromBytes first) as [friendID|]; [|eexists; reflexivity].
  destruct (uuid_eqb friendID (UserID s)); [eexists; reflexivity|].
  apply friendRemove_transaction_one_response.
Qed.

Lemma friendBlock_one_response (s : session) (cid : string) (UserIds : list bytes)
    (w : World) :
  exists response,
    sent (snd (friendBlock s (mkEnvelope cid (Envelope_FriendsBlock UserIds)) w))
    = sent w ++ [response].
Proof.
  destruct UserIds as [|first rest]; [eexists; reflexivity|].
  rewrite friendBlock_first_only.
  destruct (when_log_frame (len (first :: rest) >? 1) LWarn
              "There are more than one user ID passed to the request - only processing the first item of the list." w)
    as (_ & _ & _ & _ & _ & Hsent & _).
  rewrite <- Hsent. generalize (snd (when (len (first :: rest) >? 1)
              (log LWarn "There are more than one user ID passed to the request - only processing the first item of the list.") w)).
  intros w1. unfold friendBlock. cbn [GetFriendsBlock Payload CollationId].
  change (len [first] >? 1) with false. cbn [when]. unfold bind at 1. cbn [ret].
  destruct (len first =? 0); [eexists; reflexivity|].
  destruct (FromBytes first) as [userID|]; [|eexists; reflexivity].
  destruct (uuid_eqb userID (UserID s)); [eexists; reflexivity|].
  apply friendBlock_transaction_one_response.
Qed.

Section FriendAddEntries.

Variable core_friendAdd : bytes -> string -> bytes -> M (option GoError).
Variable core_friendAddHandle : bytes -> string -> string -> M (option GoError).

Lemma friendAdd_first_only (s : session) (cid : string) (first : TFriendsAdd_FriendsAdd)
    (rest : list TFriendsAdd_FriendsAdd) (w : World) :
  friendAdd core_friendAdd core_friendAddHandle s
    (mkEnvelope cid (Envelope_FriendsAdd (first :: rest))) w
  = friendAdd core_friendAdd core_friendAddHandle s
      (mkEnvelope cid (Envelope_FriendsAdd [first]))
      (snd (when (len (first :: rest) >? 1)
              (log LWarn "There are more than one friend passed to the request - only processing the first item of the list.") w)).
Proof.
  unfold friendAdd. cbn [GetFriendsAdd Payload CollationId].
  unfold bind at 1 4. destruct (when _ _ w) as [[] w1]. cbn [snd].
  change (len [first] >? 1) with false. cbn [when ret].
  destruct first; reflexivity.
Qed.

Lemma friendAdd_empty (s : session) (cid : string) (w : World) :
  rejected cid w
    (friendAdd core_friendAdd core_friendAddHandle s
       (mkEnvelope cid (Envelope_FriendsAdd [])) w).
Proof. apply rejected_send. Qed.

Lemma friendAddById_one_response (s : session) (envelope : Envelope) (UserId : bytes)
    (w : World) :
  exists response,
    sent (snd (friendAddById core_friendAdd s envelope UserId w)) = sent w ++ [response].
Proof.
  unfold friendAddById, bind, without_session.
  destruct (len UserId =? 0); [eexists; reflexivity|].
  destruct (FromBytes UserId) as [friendID|]; [|eexists; reflexivity].
  destruct (uuid_eqb friendID (UserID s)); [eexists; reflexivity|].
  destruct (core_friendAdd _ _ _ w) as [[e|] w2]; eexists; reflexivity.
Qed.

Lemma friendAddByHandle_one_response (s : session) (envelope : Envelope)
    (FriendHandle : string) (w : World) :
  exists response,
    sent (snd (friendAddByHandle core_friendAddHandle s envelope FriendHandle w))
    = sent w ++ [response].
Proof.
  unfold friendAddByHandle, bind, without_session.
  destruct (_ || _); [eexists; reflexivity|].
  destruct (core_friendAddHandle _ _ _ w) as [[e|] w2]; eexists; reflexivity.
Qed.

Lemma friendAdd_one_response (s : session) (cid : string) (first : TFriendsAdd_FriendsAdd)
    (rest : list TFriendsAdd_FriendsAdd) (w : World) :
  first <> FriendsAdd_unset ->
  exists response,
    sent (snd (friendAdd core_friendAdd core_friendAddHandle s
                 (mkEnvelope cid (Envelope_FriendsAdd (first :: rest))) w))
    = sent w ++ [response].
Proof.
  intros Hset. rewrite friendAdd_first_only.
  destruct (when_log_frame (len (first :: rest) >? 1) LWarn
              "There are more than one friend passed to the request - only processing the first item of the list." w)
    as (_ & _ & _ & _ & _ & Hsent & _).
  rewrite <- Hsent. generalize (snd (when (len (first :: rest) >? 1)
              (log LWarn "There are more than one friend passed to the request - only processing the first item of the list.") w)).
  intros w1. unfold friendAdd. cbn [GetFriendsAdd Payload CollationId].
  change (len [first] >? 1) with false. cbn [when]. unfold bind at 1. cbn [ret].
  destruct first as [|UserId|FriendHandle]; [contradiction| |].
  - destruct (friendAddById_one_response s
                (mkEnvelope cid (Envelope_FriendsAdd [TFriendsAdd_FriendsAdd_UserId UserId]))
                UserId w1) as [response H].
    exists response. unfold bind.
    destruct (friendAddById _ _ _ _ w1) as [[] w2]. exact H.
  - destruct (friendAddByHandle_one_response s
                (mkEnvelope cid
                   (Envelope_FriendsAdd [TFriendsAdd_FriendsAdd_Handle FriendHandle]))
                FriendHandle w1) as [response H].
    exists response. unfold bind.
    destruct (friendAddByHandle _ _ _ _ w1) as [[] w2]. exact H.
Qed.

Lemma len_two_or_more {A : Type} (first second : A) (rest : list A) :
  (len (first :: second :: rest) >? 1) = true.
Proof. apply Z.gtb_lt. unfold len. cbn [List.length]. lia. Qed.

(** C9, as amended. A request of two or more entries behaves as the
    request made of its first entry alone, run once the warning is
    logged: the other entries are not read.  A remove and a block send
    exactly one response whatever the store answers, and so does an add
    whose first entry carries a user id or a handle.  An empty list is
    rejected with a validation error and no call to the store. *)
Theorem entries_after_first_ignored (s : session) (cid : string) (w : World) :
  let warned_add :=
    snd (log LWarn "There are more than one friend passed to the request - only processing the first item of the list." w) in
  let warned :=
    snd (log LWarn "There are more than one user ID passed to the request - only processing the first item of the list." w) in
  let add := friendAdd core_friendAdd core_friendAddHandle s in
  (forall first second rest,
      add (mkEnvelope cid (Envelope_FriendsAdd (first :: second :: rest))) w
      = add (mkEnvelope cid (Envelope_FriendsAdd [first])) warned_add)
  /\ (forall first second rest,
         friendRemove s (mkEnvelope cid (Envelope_FriendsRemove (first :: second :: rest))) w
         = friendRemove s (mkEnvelope cid (Envelope_FriendsRemove [first])) warned)
  /\ (forall first second rest,
         friendBlock s (mkEnvelope cid (Envelope_FriendsBlock (first :: second :: rest))) w
         = friendBlock s (mkEnvelope cid (Envelope_FriendsBlock [first])) warned)
  /\ (forall UserId rest,
         exists response,
           sent (snd (add (mkEnvelope cid (Envelope_FriendsAdd
                                             (TFriendsAdd_FriendsAdd_UserId UserId :: rest))) w))
           = sent w ++ [response])
  /\ (forall FriendHandle rest,
         exists response,
           sent (snd (add (mkEnvelope cid (Envelope_FriendsAdd
                                             (TFriendsAdd_FriendsAdd_Handle FriendHandle :: rest))) w))
           = sent w ++ [response])
  /\ (forall UserIds,
         exists response,
           sent (snd (friendRemove s (mkEnvelope cid (Envelope_FriendsRemove UserIds)) w))
           = sent w ++ [response])
  /\ (forall UserIds,
         exists response,
           sent (snd (friendBlock s (mkEnvelope cid (Envelope_FriendsBlock UserIds)) w))
           = sent w ++ [response])
  /\ rejected cid w (add (mkEnvelope cid (Envelope_FriendsAdd [])) w)
  /\ rejected cid w (friendRemove s (mkEnvelope cid (Envelope_FriendsRemove [])) w)
  /\ rejected cid w (friendBlock s (mkEnvelope cid (Envelope_FriendsBlock [])) w).
Proof.
  intros warned_add warned add.
  split; [|split; [|split; [|split; [|split; [|split; [|split; [|split; [|split]]]]]]]].
  - intros first second rest. unfold add. rewrite friendAdd_first_only.
    rewrite len_two_or_more. reflexivity.
  - intros first second rest. rewrite friendRemove_first_only.
    rewrite len_two_or_more. reflexivity.
  - intros first second rest. rewrite friendBlock_first_only.
    rewrite len_two_or_more. reflexivity.
  - intros UserId rest. apply friendAdd_one_response. discriminate.
  - intros FriendHandle rest. apply friendAdd_one_response. discriminate.
  - intros UserIds. apply friendRemove_one_response.
  - intros UserIds. apply friendBlock_one_response.
  - apply friendAdd_empty.
  - apply friendRemove_empty.
  - apply friendBlock_empty.
Qed.

End FriendAddEntries.

(** C9, as stated, fails: A sends an add of two entries whose first entry
    carries neither a user id nor a handle and whose second entry is the
    id of B.  Whatever the core functions are, the handler logs the
    warning and returns: it is not the case that exactly one response
    is sent, none is. *)
Lemma friendAdd_two_entries_no_response :
  let request :=
    mkEnvelope "c1" (Envelope_FriendsAdd
                       [FriendsAdd_unset; TFriendsAdd_FriendsAdd_UserId userB]) in
  let w := world_of friends_AB [] in
  ~ (forall (core_friendAdd : bytes -> string -> bytes -> M (option GoError))
            (core_friendAddHandle : bytes -> string -> string -> M (option GoError)),
        exists response,
          sent (snd (friendAdd core_friendAdd core_friendAddHandle sessionA request w))
          = sent w ++ [response]).
Proof.
  intros request w H.
  destruct (H (fun _ _ _ => ret None) (fun _ _ _ => ret None)) as [response Hsent].
  vm_compute in Hsent. discriminate Hsent.
Qed.

(** ** Failures inside the transaction of a remove *)

(** A failed decrement is not followed by a call on [res]: the handler
    rolls back, answers and returns. *)
Lemma friendRemove_failed_decrement_returns :
  let request := mkEnvelope "c1" (Envelope_FriendsRemove [userB]) in
  let w := world_of friends_AB [None; None; Some (PqError "connection lost")] in
  let w' := snd (friendRemove sessionA request w) in
  fst (friendRemove sessionA request w) = Returned
  /\ sent w' = [ErrorMessageRuntimeException "c1" "Failed to remove friend"]
  /\ map fst (calls w')
     = [CallBegin; CallExec (DeleteEdge userA userB);
        CallExec (DecrementCount userA 100); CallRollback]
  /\ db w' = friends_AB.
Proof.
  vm_compute. repeat split; reflexivity.
Qed.

(** The second DELETE fails as the first does. *)
Lemma friendRemove_failed_second_delete_panics :
  let request := mkEnvelope "c1" (Envelope_FriendsRemove [userB]) in
  let w := world_of friends_AB [None; None; None; Some (PqError "connection lost")] in
  let w' := snd (friendRemove sessionA request w) in
  fst (friendRemove sessionA request w) = Panicked
  /\ sent w' = [ErrorMessageRuntimeException "c1" "Failed to remove friend"]
  /\ map fst (calls w')
     = [CallBegin; CallExec (DeleteEdge userA userB);
        CallExec (DecrementCount userA 100); CallExec (DeleteEdge userB userA);
        CallRollback]
  /\ db w' = friends_AB.
Proof.
  vm_compute. repeat split; reflexivity.
Qed.

(** The same failure in a block: [err] is looked at first, and the
    handler returns. *)
Lemma friendBlock_failed_update_returns :
  let request := mkEnvelope "c1" (Envelope_FriendsBlock [userB]) in
  let w := world_of friends_AB [None; Some (PqError "connection lost")] in
  let w' := snd (friendBlock sessionA request w) in
  fst (friendBlock sessionA request w) = Returned
  /\ sent w' = [ErrorMessageRuntimeException "c1" "Could not block user"]
  /\ db w' = friends_AB.
Proof.
  vm_compute. repeat split; reflexivity.
Qed.

(** Whatever the store answers, a block never panics. *)
Lemma friendBlock_transaction_returns (s : session) (envelope : Envelope)
    (userIDBytes : bytes) (w : World) :
  fst (friendBlock_transaction s envelope userIDBytes w) = Returned.
Proof.
  destruct w as [d t fs ck tk us ud fbk ex snt lg cl dp].
  unfold friendBlock_transaction, friendBlock_body, friendBlock_deferred.
  case_store; reflexivity.
Qed.

(** ** One transaction, closed once *)

(** Whatever the store answers, a remove and a block open one
    transaction and close it once, by a Commit or by a Rollback; the
    tables change only when the Commit succeeds. *)
Lemma friendRemove_transaction_closed_once (s : session) (envelope : Envelope)
    (friendIDBytes : bytes) (w : World) :
  let w' := snd (friendRemove_transaction s envelope friendIDBytes w) in
  exists added,
    calls w' = calls w ++ added
    /\ one_transaction added = true
    /\ tx w' = match hd None (faults w) with Some _ => tx w | None => None end
    /\ (db w' = db w \/ last added (CallBegin, false) = (CallCommit, true)).
Proof.
  destruct w as [d t fs ck tk us ud fbk ex snt lg cl dp].
  unfold friendRemove_transaction, friendRemove_body, friendRemove_deferred.
  case_store; rewrite <- ?app_assoc; eexists;
    (split; [reflexivity|]); (split; [reflexivity|]); (split; [reflexivity|]);
    solve [left; reflexivity | right; reflexivity].
Qed.

Lemma friendBlock_transaction_closed_once (s : session) (envelope : Envelope)
    (userIDBytes : bytes) (w : World) :
  let w' := snd (friendBlock_transaction s envelope userIDBytes w) in
  exists added,
    calls w' = calls w ++ added
    /\ one_transaction added = true
    /\ tx w' = match hd None (faults w) with Some _ => tx w | None => None end
    /\ (db w' = db w \/ last added (CallBegin, false) = (CallCommit, true)).
Proof.
  destruct w as [d t fs ck tk us ud fbk ex snt lg cl dp].
  unfold friendBlock_transaction, friendBlock_body, friendBlock_deferred.
  case_store; rewrite <- ?app_assoc; eexists;
    (split; [reflexivity|]); (split; [reflexivity|]); (split; [reflexivity|]);
    solve [left; reflexivity | right; reflexivity].
Qed.

(** ** The key of user_edge is kept *)

Lemma unique_edges_delete (f : EdgeRow -> bool) (es : list EdgeRow) :
  unique_edges es -> unique_edges (delete_where f es).
Proof.
  unfold unique_edges, delete_where. induction es as [|r es IH]; simpl; intros H; [assumption|].
  inversion H as [|k ks Hnotin Hnd]; subst.
  destruct (f r); simpl; [apply IH; assumption|].
  constructor; [|apply IH; assumption].
  intros Hin. apply Hnotin. apply in_map_iff in Hin as (x & Hx & Hin).
  apply filter_In in Hin as [Hin _]. rewrite <- Hx. apply in_map. assumption.
Qed.

Lemma unique_edges_update (f : EdgeRow -> bool) (g : EdgeRow -> EdgeRow)
    (es : list EdgeRow) :
  (forall r, edge_key (g r) = edge_key r) ->
  unique_edges es -> unique_edges (update_where f g es).
Proof.
  intros Hg. unfold unique_edges, update_where. rewrite map_map.
  assert (E : map (fun r => edge_key (if f r then g r else r)) es = map edge_key es).
  { apply map_ext. intros r. destruct (f r); [apply Hg | reflexivity]. }
  rewrite E. auto.
Qed.

(** Every statement keeps one row per ordered pair. *)
Lemma exec_stmt_unique (s : Stmt) (d d' : DB) (n : Z) :
  exec_stmt s d = Some (d', n) ->
  unique_edges (user_edge d) -> unique_edges (user_edge d').
Proof.
  destruct s as [a b | a b | u ts | a b ts | ps | ps | c ts u]; simpl.
  - intros [= <- _]. apply unique_edges_delete.
  - intros [= <- _]. apply unique_edges_delete.
  - intros [= <- _]. auto.
  - intros [= <- _]. apply unique_edges_update. reflexivity.
  - destruct ps as [|[userID|z] [|[b|ts] peers]]; try discriminate.
    destruct (keys_distinct _) eqn:E; [|discriminate].
    intros [= <- _] _. simpl. apply keys_distinct_NoDup. assumption.
  - destruct ps as [|[b|ts] peers]; try discriminate. intros [= <- _]. auto.
  - intros [= <- _]. auto.
Qed.

Lemma friendRemove_transaction_unique (s : session) (envelope : Envelope)
    (friendIDBytes : bytes) (w : World) :
  unique_edges (user_edge (db w)) ->
  unique_edges (user_edge (db (snd (friendRemove_transaction s envelope friendIDBytes w)))).
Proof.
  destruct w as [d t fs ck tk us ud fbk ex snt lg cl dp]. cbn [db]. intros Hu.
  unfold friendRemove_transaction, friendRemove_body, friendRemove_deferred.
  case_store;
    unfold decrement_count, delete_edge;
    cbn [user_edge with_user_edge with_user_edge_metadata];
    repeat first [ assumption
                 | apply unique_edges_delete
                 | apply unique_edges_update; [reflexivity|] ].
Qed.

Lemma friendBlock_transaction_unique (s : session) (envelope : Envelope)
    (userIDBytes : bytes) (w : World) :
  unique_edges (user_edge (db w)) ->
  unique_edges (user_edge (db (snd (friendBlock_transaction s envelope userIDBytes w)))).
Proof.
  destruct w as [d t fs ck tk us ud fbk ex snt lg cl dp]. cbn [db]. intros Hu.
  unfold friendBlock_transaction, friendBlock_body, friendBlock_deferred.
  case_store;
    unfold decrement_count, delete_edge_not_blocked, block_edge;
    cbn [user_edge with_user_edge with_user_edge_metadata];
    repeat first [ assumption
                 | apply unique_edges_delete
                 | apply unique_edges_update; [reflexivity|] ].
Qed.

(** * Further properties of the handlers *)

(** ** The two ways through friendRemove and friendBlock *)

(** A remove is either rejected by the checks or runs the transaction on
    its first id. *)
Lemma friendRemove_cases (s : session) (cid : string) (UserIds : list bytes) (w : World) :
  let request := mkEnvelope cid (Envelope_FriendsRemove UserIds) in
  rejected cid w (friendRemove s request w)
  \/ exists first rest friendID,
      UserIds = first :: rest
      /\ FromBytes first = Some friendID
      /\ uuid_eqb friendID (UserID s) = false
      /\ friendRemove s request w
         = friendRemove_transaction s request first
             (snd (when (len UserIds >? 1)
                     (log LWarn "There are more than one user ID passed to the request - only processing the first item of the list.") w)).
Proof.
  intros request. subst request.
  destruct UserIds as [|first rest]; [left; apply rejected_send|].
  destruct (FromBytes first) as [friendID|] eqn:HF.
  - destruct (uuid_eqb friendID (UserID s)) eqn:Hne.
    + left. unfold friendRemove. cbn [GetFriendsRemove Payload CollationId].
      unfold bind at 1. destruct (when _ _ w) as [[] w1] eqn:Ew.
      apply (rejected_after_warning cid (len (first :: rest) >? 1)
               "There are more than one user ID passed to the request - only processing the first item of the list.").
      rewrite Ew. cbn [snd]. rewrite (len_nonzero_of_uuid _ _ HF), HF, Hne.
      apply rejected_log_send.
    + right. exists first, rest, friendID. repeat split; try assumption.
      apply (friendRemove_valid s cid first rest friendID w HF Hne).
  - left. unfold friendRemove. cbn [GetFriendsRemove Payload CollationId].
    unfold bind at 1. destruct (when _ _ w) as [[] w1] eqn:Ew.
    apply (rejected_after_warning cid (len (first :: rest) >? 1)
             "There are more than one user ID passed to the request - only processing the first item of the list.").
    rewrite Ew. cbn [snd]. rewrite HF.
    destruct (len first =? 0); [apply rejected_send | apply rejected_log_send].
Qed.

Lemma friendBlock_cases (s : session) (cid : string) (UserIds : list bytes) (w : World) :
  let request := mkEnvelope cid (Envelope_FriendsBlock UserIds) in
  rejected cid w (friendBlock s request w)
  \/ exists first rest userID,
      UserIds = first :: rest
      /\ FromBytes first = Some userID
      /\ uuid_eqb userID (UserID s) = false
      /\ friendBlock s request w
         = friendBlock_transaction s request first
             (snd (when (len UserIds >? 1)
                     (log LWarn "There are more than one user ID passed to the request - only processing the first item of the list.") w)).
Proof.
  intros request. subst request.
  destruct UserIds as [|first rest]; [left; apply rejected_send|].
  destruct (FromBytes first) as [userID|] eqn:HF.
  - destruct (uuid_eqb userID (UserID s)) eqn:Hne.
    + left. unfold friendBlock. cbn [GetFriendsBlock Payload CollationId].
      unfold bind at 1. destruct (when _ _ w) as [[] w1] eqn:Ew.
      apply (rejected_after_warning cid (len (first :: rest) >? 1)
               "There are more than one user ID passed to the request - only processing the first item of the list.").
      rewrite Ew. cbn [snd]. rewrite (len_nonzero_of_uuid _ _ HF), HF, Hne.
      apply rejected_log_send.
    + right. exists first, rest, userID. repeat split; try assumption.
      apply (friendBlock_valid s cid first rest userID w HF Hne).
  - left. unfold friendBlock. cbn [GetFriendsBlock Payload CollationId].
    unfold bind at 1. destruct (when _ _ w) as [[] w1] eqn:Ew.
    apply (rejected_after_warning cid (len (first :: rest) >? 1)
             "There are more than one user ID passed to the request - only processing the first item of the list.").
    rewrite Ew. cbn [snd]. rewrite HF.
    destruct (len first =? 0); [apply rejected_send | apply rejected_log_send].
Qed.

(** The tables a remove leaves, whatever the store answers: those it
    found, or those of the two directions removed. *)
Lemma friendRemove_transaction_outcome (s : session) (envelope : Envelope)
    (friendIDBytes : bytes) (w : World) :
  let w' := snd (friendRemove_transaction s envelope friendIDBytes w) in
  db w' = db w
  \/ db w' = remove_direction friendIDBytes (Bytes (UserID s)) (clock w (ticks w))
               (remove_direction (Bytes (UserID s)) friendIDBytes (clock w (ticks w)) (db w)).
Proof.
  destruct w as [d t fs ck tk us ud fbk ex snt lg cl dp].
  unfold friendRemove_transaction, friendRemove_body, friendRemove_deferred.
  case_store_eqn;
    solve [ left; reflexivity
          | right; unfold remove_direction;
            repeat match goal with H : _ = _ |- _ => rewrite H end; reflexivity ].
Qed.

(** The tables a block leaves, whatever the store answers: those it
    found, or those of the block. *)
Lemma friendBlock_transaction_outcome (s : session) (envelope : Envelope)
    (userIDBytes : bytes) (w : World) :
  let w' := snd (friendBlock_transaction s envelope userIDBytes w) in
  db w' = db w
  \/ block_effect (Bytes (UserID s)) userIDBytes (clock w (ticks w))
       (clock w (S (ticks w))) (db w)
     = Some (db w').
Proof.
  destruct w as [d t fs ck tk us ud fbk ex snt lg cl dp].
  unfold friendBlock_transaction, friendBlock_body, friendBlock_deferred.
  case_store_eqn;
    solve [ left; reflexivity
          | right; unfold block_effect;
            repeat match goal with H : _ = _ |- _ => rewrite H end; reflexivity ].
Qed.

(** ** Counters and rows *)

Lemma count_where_cons {A : Type} (f : A -> bool) (x : A) (l : list A) :
  count_where f (x :: l) = (if f x then 1 else 0) + count_where f l.
Proof.
  unfold count_where. cbn [filter]. destruct (f x); cbn [List.length]; lia.
Qed.

Lemma count_where_nonneg {A : Type} (f : A -> bool) (l : list A) : 0 <= count_where f l.
Proof. unfold count_where. lia. Qed.

Lemma count_where_update {A : Type} (h f : A -> bool) (g : A -> A) (l : list A) :
  (forall r, h (g r) = h r) ->
  count_where h (update_where f g l) = count_where h l.
Proof.
  intros Hg. unfold update_where. induction l as [|x l IH]; [reflexivity|].
  cbn [map]. rewrite !count_where_cons, IH.
  destruct (f x); [rewrite Hg|]; reflexivity.
Qed.

Lemma rows_from_delete (f : EdgeRow -> bool) (es : list EdgeRow) (a u : bytes) :
  (forall r, f r = true -> e_source_id r = a) ->
  rows_from (delete_where f es) u
  = rows_from es u - (if bytes_eqb a u then count_where f es else 0).
Proof.
  intros Hf. unfold rows_from, delete_where.
  induction es as [|x es IH]; [simpl; destruct (bytes_eqb a u); reflexivity|].
  cbn [filter]. destruct (f x) eqn:E; cbn [negb].
  - rewrite IH, !count_where_cons, E. rewrite (Hf _ E).
    destruct (bytes_eqb a u); lia.
  - rewrite !count_where_cons, IH, E. destruct (bytes_eqb a u); lia.
Qed.

(** Under the key of the table, at most one row leads from one user to
    another. *)
Lemma count_between_le_one (es : list EdgeRow) (a b : bytes) :
  unique_edges es -> count_where (edge_matches a b) es <= 1.
Proof.
  intros Hu. unfold count_where.
  destruct (filter (edge_matches a b) es) as [|r rs] eqn:E; [simpl; lia|].
  assert (Hin : In r (filter (edge_matches a b) es)) by (rewrite E; left; reflexivity).
  apply filter_In in Hin as [Hin Hm]. apply edge_matches_key in Hm.
  pose proof (unique_rows_between es r a b Hu Hin Hm) as H.
  unfold rows_between in H. rewrite H in E. injection E as <-. simpl. lia.
Qed.

Lemma count_not_blocked_le (es : list EdgeRow) (a b : bytes) :
  count_where (not_blocked a b) es <= count_where (edge_matches a b) es.
Proof.
  induction es as [|x es IH]; [reflexivity|].
  rewrite !count_where_cons.
  destruct (not_blocked a b x) eqn:E1, (edge_matches a b x) eqn:E2; try lia.
  unfold not_blocked in E1. rewrite E2 in E1. discriminate.
Qed.

(** Deleting [k] rows that leave [a], and decrementing the counter of [a]
    when [k] is one, keeps the counters matched. *)
Lemma counts_match_delete (d : DB) (f : EdgeRow -> bool) (a : bytes) (ts : Z) :
  (forall r, f r = true -> e_source_id r = a) ->
  counts_match d ->
  (count_where f (user_edge d) = 1 ->
   counts_match (decrement_count a ts (with_user_edge d (delete_where f (user_edge d)))))
  /\ (count_where f (user_edge d) = 0 ->
      counts_match (with_user_edge d (delete_where f (user_edge d)))).
Proof.
  intros Hf Hd. split; intros Hk.
  - intros r' Hin. unfold decrement_count in Hin |- *. cbn in Hin |- *.
    unfold update_where in Hin. apply in_map_iff in Hin as (r & <- & Hin).
    specialize (Hd r Hin). unfold meta_of.
    destruct (bytes_eqb (m_source_id r) a) eqn:E; cbn.
    + rewrite (rows_from_delete f _ a _ Hf), Hk.
      apply bytes_eqb_true in E. rewrite E in Hd |- *. rewrite bytes_eqb_refl. lia.
    + rewrite (rows_from_delete f _ a _ Hf), Hk.
      rewrite bytes_eqb_sym, E. lia.
  - intros r Hin. cbn in Hin |- *. specialize (Hd r Hin).
    rewrite (rows_from_delete f _ a _ Hf), Hk. destruct (bytes_eqb a _); lia.
Qed.

Lemma edge_matches_source (a b : bytes) (r : EdgeRow) :
  edge_matches a b r = true -> e_source_id r = a.
Proof.
  intros H. apply edge_matches_key in H. unfold edge_key in H. congruence.
Qed.

Lemma not_blocked_source (a b : bytes) (r : EdgeRow) :
  not_blocked a b r = true -> e_source_id r = a.
Proof.
  unfold not_blocked. intros H. apply andb_true_iff in H as [H _].
  apply (edge_matches_source a b r H).
Qed.

(** One direction of a remove keeps the tables consistent. *)
Lemma remove_direction_counting (a b : bytes) (ts : Z) (d : DB) :
  counting d -> counting (remove_direction a b ts d).
Proof.
  intros [Hu Hc].
  pose proof (count_between_le_one (user_edge d) a b Hu) as Hle.
  pose proof (count_where_nonneg (edge_matches a b) (user_edge d)) as Hge.
  destruct (counts_match_delete d (edge_matches a b) a ts (edge_matches_source a b) Hc)
    as [H1 H0].
  unfold remove_direction.
  destruct (count_where (edge_matches a b) (user_edge d) >? 0) eqn:E.
  - apply Z.gtb_lt in E. split.
    + cbn. apply unique_edges_delete. assumption.
    + apply H1. lia.
  - assert (Hz : count_where (edge_matches a b) (user_edge d) = 0).
    { destruct (Z.gtb_spec (count_where (edge_matches a b) (user_edge d)) 0);
        [discriminate | lia]. }
    split.
    + cbn. apply unique_edges_delete. assumption.
    + apply H0. assumption.
Qed.

Lemma block_edge_counting (a b : bytes) (ts : Z) (d : DB) :
  counting d -> counting (block_edge a b ts d).
Proof.
  intros [Hu Hc]. split.
  - cbn. apply unique_edges_update; [reflexivity | assumption].
  - intros r Hin. cbn in Hin |- *. unfold rows_from.
    rewrite count_where_update by reflexivity. apply Hc. assumption.
Qed.

(** A block keeps the tables consistent. *)
Lemma block_effect_counting (a b : bytes) (now1 now2 : Z) (d d' : DB) :
  block_effect a b now1 now2 d = Some d' -> counting d -> counting d'.
Proof.
  intros Heff Hd.
  pose proof (block_edge_counting a b now1 d Hd) as [Hu Hc].
  set (d1 := block_edge a b now1 d) in *.
  assert (Hcase : counting (if count_where (not_blocked b a) (user_edge d1) =? 1
                            then decrement_count b now2 (delete_edge_not_blocked b a d1)
                            else delete_edge_not_blocked b a d1)).
  { pose proof (count_between_le_one (user_edge d1) b a Hu) as Hle.
    pose proof (count_not_blocked_le (user_edge d1) b a) as Hnb.
    pose proof (count_where_nonneg (not_blocked b a) (user_edge d1)) as Hge.
    destruct (counts_match_delete d1 (not_blocked b a) b now2 (not_blocked_source b a) Hc)
      as [H1 H0].
    destruct (count_where (not_blocked b a) (user_edge d1) =? 1) eqn:E.
    - apply Z.eqb_eq in E. split.
      + cbn. apply unique_edges_delete. assumption.
      + apply H1. assumption.
    - apply Z.eqb_neq in E. split.
      + cbn. apply unique_edges_delete. assumption.
      + apply H0. lia. }
  unfold block_effect in Heff. destruct (_ =? 0); [discriminate|].
  injection Heff as <-. exact Hcase.
Qed.

Lemma counts_matchb_sound (d : DB) : counts_matchb d = true -> counts_match d.
Proof.
  unfold counts_matchb, counts_match. rewrite forallb_forall.
  intros H r Hin. apply Z.eqb_eq. apply H. assumption.
Qed.

(** ** friendRemove and friendBlock, whatever the store answers *)

(** X1. Every remove request is answered by exactly one response, also
    when the handler panics; it makes no call to the store or opens one
    transaction that it closes exactly once, by a Commit or a Rollback;
    and the tables are those it found unless its last call is a Commit
    that succeeded. *)
Theorem friendRemove_answers_once (s : session) (cid : string) (UserIds : list bytes)
    (w : World) :
  let w' := snd (friendRemove s (mkEnvelope cid (Envelope_FriendsRemove UserIds)) w) in
  (exists response, sent w' = sent w ++ [response])
  /\ exists added,
      calls w' = calls w ++ added
      /\ at_most_one_transaction added = true
      /\ (db w' = db w \/ last added (CallBegin, false) = (CallCommit, true)).
Proof.
  intros w'. split; [apply friendRemove_one_response|].
  destruct (friendRemove_cases s cid UserIds w) as [Hrej | Hrun].
  - destruct Hrej as (_ & _ & Hdb & _ & Hcalls & _).
    exists []. rewrite app_nil_r. repeat split; auto.
  - destruct Hrun as (first & rest & friendID & _ & _ & _ & Hrun).
    subst w'. rewrite Hrun.
    destruct (when_log_frame (len UserIds >? 1) LWarn
                "There are more than one user ID passed to the request - only processing the first item of the list." w)
      as (Hdb & _ & _ & _ & _ & _ & Hcalls & _).
    rewrite <- Hdb, <- Hcalls.
    destruct (friendRemove_transaction_closed_once s
                (mkEnvelope cid (Envelope_FriendsRemove UserIds)) first
                (snd (when (len UserIds >? 1)
                        (log LWarn "There are more than one user ID passed to the request - only processing the first item of the list.") w)))
      as (added & Hadded & Hone & _ & Hatomic).
    exists added. split; [exact Hadded|]. split; [|exact Hatomic].
    destruct added; [discriminate Hone | exact Hone].
Qed.

Lemma friendBlock_returns (s : session) (cid : string) (UserIds : list bytes) (w : World) :
  fst (friendBlock s (mkEnvelope cid (Envelope_FriendsBlock UserIds)) w) = Returned.
Proof.
  destruct (friendBlock_cases s cid UserIds w) as [Hrej | Hrun].
  - destruct Hrej as (H & _). exact H.
  - destruct Hrun as (first & rest & userID & _ & _ & _ & Hrun).
    rewrite Hrun. apply friendBlock_transaction_returns.
Qed.

(** X2. Every block request returns (it never panics) and is answered by
    exactly one response; it makes no call to the store or opens one
    transaction that it closes exactly once; and the tables are those it
    found unless its last call is a Commit that succeeded. *)
Theorem friendBlock_answers_once (s : session) (cid : string) (UserIds : list bytes)
    (w : World) :
  let w' := snd (friendBlock s (mkEnvelope cid (Envelope_FriendsBlock UserIds)) w) in
  fst (friendBlock s (mkEnvelope cid (Envelope_FriendsBlock UserIds)) w) = Returned
  /\ (exists response, sent w' = sent w ++ [response])
  /\ exists added,
      calls w' = calls w ++ added
      /\ at_most_one_transaction added = true
      /\ (db w' = db w \/ last added (CallBegin, false) = (CallCommit, true)).
Proof.
  intros w'. split; [apply friendBlock_returns|].
  split; [apply friendBlock_one_response|].
  destruct (friendBlock_cases s cid UserIds w) as [Hrej | Hrun].
  - destruct Hrej as (_ & _ & Hdb & _ & Hcalls & _).
    exists []. rewrite app_nil_r. repeat split; auto.
  - destruct Hrun as (first & rest & userID & _ & _ & _ & Hrun).
    subst w'. rewrite Hrun.
    destruct (when_log_frame (len UserIds >? 1) LWarn
                "There are more than one user ID passed to the request - only processing the first item of the list." w)
      as (Hdb & _ & _ & _ & _ & _ & Hcalls & _).
    rewrite <- Hdb, <- Hcalls.
    destruct (friendBlock_transaction_closed_once s
                (mkEnvelope cid (Envelope_FriendsBlock UserIds)) first
                (snd (when (len UserIds >? 1)
                        (log LWarn "There are more than one user ID passed to the request - only processing the first item of the list.") w)))
      as (added & Hadded & Hone & _ & Hatomic).
    exists added. split; [exact Hadded|]. split; [|exact Hatomic].
    destruct added; [discriminate Hone | exact Hone].
Qed.

(** X3. A remove keeps the tables consistent, whatever the request and
    whatever the store answers: when user_edge holds one row per ordered
    pair and every counter holds the number of rows that leave its user,
    the same is true afterwards. *)
Theorem friendRemove_keeps_counting (s : session) (cid : string) (UserIds : list bytes)
    (w : World) :
  counting (db w) ->
  counting (db (snd (friendRemove s (mkEnvelope cid (Envelope_FriendsRemove UserIds)) w))).
Proof.
  intros Hd.
  destruct (friendRemove_cases s cid UserIds w) as [Hrej | Hrun].
  - destruct Hrej as (_ & _ & Hdb & _). rewrite Hdb. exact Hd.
  - destruct Hrun as (first & rest & friendID & _ & _ & _ & Hrun). rewrite Hrun.
    destruct (when_log_frame (len UserIds >? 1) LWarn
                "There are more than one user ID passed to the request - only processing the first item of the list." w)
      as (Hdb & _ & _ & Hclock & Hticks & _).
    destruct (friendRemove_transaction_outcome s
                (mkEnvelope cid (Envelope_FriendsRemove UserIds)) first
                (snd (when (len UserIds >? 1)
                        (log LWarn "There are more than one user ID passed to the request - only processing the first item of the list.") w)))
      as [Hsame | Hdone].
    + rewrite Hsame, Hdb. exact Hd.
    + rewrite Hdone, Hdb. apply remove_direction_counting, remove_direction_counting.
      exact Hd.
Qed.

Lemma friendRemove_keeps_counting_witness :
  let request := mkEnvelope "c1" (Envelope_FriendsRemove [userB]) in
  let w := world_of friends_AC_AB [] in
  counting (db w)
  /\ counting (db (snd (friendRemove sessionA request w)))
  /\ user_edge (db (snd (friendRemove sessionA request w)))
     = [mkEdgeRow userA 3 3 userC CONNECTED; mkEdgeRow userC 3 3 userA CONNECTED].
Proof.
  intros request w.
  assert (Hd : counting (db w)).
  { split; [apply keys_distinct_NoDup | apply counts_matchb_sound]; reflexivity. }
  split; [exact Hd|]. split; [|reflexivity].
  exact (friendRemove_keeps_counting sessionA "c1" [userB] w Hd).
Defined.

(** X4. A block keeps the tables consistent, whatever the request and
    whatever the store answers: the row it blocks still leaves the
    caller, so the caller's counter stays, and the peer's counter goes
    down with the peer's row. *)
Theorem friendBlock_keeps_counting (s : session) (cid : string) (UserIds : list bytes)
    (w : World) :
  counting (db w) ->
  counting (db (snd (friendBlock s (mkEnvelope cid (Envelope_FriendsBlock UserIds)) w))).
Proof.
  intros Hd.
  destruct (friendBlock_cases s cid UserIds w) as [Hrej | Hrun].
  - destruct Hrej as (_ & _ & Hdb & _). rewrite Hdb. exact Hd.
  - destruct Hrun as (first & rest & userID & _ & _ & _ & Hrun). rewrite Hrun.
    destruct (when_log_frame (len UserIds >? 1) LWarn
                "There are more than one user ID passed to the request - only processing the first item of the list." w)
      as (Hdb & _ & _ & Hclock & Hticks & _).
    destruct (friendBlock_transaction_outcome s
                (mkEnvelope cid (Envelope_FriendsBlock UserIds)) first
                (snd (when (len UserIds >? 1)
                        (log LWarn "There are more than one user ID passed to the request - only processing the first item of the list.") w)))
      as [Hsame | Hdone].
    + rewrite Hsame, Hdb. exact Hd.
    + rewrite Hdb in Hdone. apply (block_effect_counting _ _ _ _ _ _ Hdone Hd).
Qed.

Lemma friendBlock_keeps_counting_witness :
  let request := mkEnvelope "c1" (Envelope_FriendsBlock [userB]) in
  let w := world_of friends_AC_AB [] in
  counting (db w)
  /\ counting (db (snd (friendBlock sessionA request w)))
  /\ user_edge (db (snd (friendBlock sessionA request w)))
     = [mkEdgeRow userA 3 3 userC CONNECTED; mkEdgeRow userC 3 3 userA CONNECTED;
        mkEdgeRow userA 5 100 userB BLOCKED]
  /\ count_of (db (snd (friendBlock sessionA request w))) userA = Some 2
  /\ count_of (db (snd (friendBlock sessionA request w))) userB = Some 0.
Proof.
  intros request w.
  assert (Hd : counting (db w)).
  { split; [apply keys_distinct_NoDup | apply counts_matchb_sound]; reflexivity. }
  split; [exact Hd|]. split; [|repeat split; reflexivity].
  exact (friendBlock_keeps_counting sessionA "c1" [userB] w Hd).
Defined.

(** ** Doing it twice *)

Lemma friendRemove_transaction_settles (s : session) (envelope : Envelope)
    (friendIDBytes : bytes) (w : World) :
  faults w = [] -> faults (snd (friendRemove_transaction s envelope friendIDBytes w)) = [].
Proof.
  intros Hf. destruct w as [d t fs ck tk us ud fbk ex snt lg cl dp]; simpl in Hf; subst fs.
  unfold friendRemove_transaction, friendRemove_body, friendRemove_deferred.
  case_store; reflexivity.
Qed.

Lemma friendBlock_transaction_settles (s : session) (envelope : Envelope)
    (userIDBytes : bytes) (w : World) :
  faults w = [] -> faults (snd (friendBlock_transaction s envelope userIDBytes w)) = [].
Proof.
  intros Hf. destruct w as [d t fs ck tk us ud fbk ex snt lg cl dp]; simpl in Hf; subst fs.
  unfold friendBlock_transaction, friendBlock_body, friendBlock_deferred.
  case_store; reflexivity.
Qed.

(** A remove of a valid target, when the store answers every call. *)
Lemma friendRemove_effect (s : session) (cid : string) (target : bytes)
    (rest : list bytes) (friendID : UUID) (w : World) :
  FromBytes target = Some friendID ->
  uuid_eqb friendID (UserID s) = false ->
  faults w = [] ->
  let r := friendRemove s (mkEnvelope cid (Envelope_FriendsRemove (target :: rest))) w in
  fst r = Returned
  /\ db (snd r) = remove_direction target (Bytes (UserID s)) (clock w (ticks w))
                    (remove_direction (Bytes (UserID s)) target (clock w (ticks w)) (db w))
  /\ sent (snd r) = sent w ++ [mkEnvelope cid Envelope_nil]
  /\ faults (snd r) = [].
Proof.
  intros HF Hne Hfl r. subst r.
  rewrite (friendRemove_valid s cid target rest friendID w HF Hne).
  destruct (when_log_frame (len (target :: rest) >? 1) LWarn
              "There are more than one user ID passed to the request - only processing the first item of the list." w)
    as (Hdb & _ & Hfaults & Hclock & Hticks & Hsent & _).
  set (w1 := snd (when _ _ w)) in *.
  assert (Hf1 : faults w1 = []) by congruence.
  pose proof (friendRemove_transaction_settles s
                (mkEnvelope cid (Envelope_FriendsRemove (target :: rest))) target w1 Hf1)
    as Hsettle.
  destruct (friendRemove_transaction_run s
              (mkEnvelope cid (Envelope_FriendsRemove (target :: rest))) target w1 Hf1)
    as (w' & Hrun & Hdb' & _ & Hsent').
  rewrite Hrun in Hsettle |- *. cbn [fst snd] in *.
  rewrite Hdb', Hsent', Hsent, Hdb, Hclock, Hticks. auto.
Qed.

(** X5. Removing the same friend a second time changes nothing: when the
    store answers every call, the second remove finds no row between the
    two users, leaves the tables as the first remove left them, and is
    acknowledged like the first. *)
Theorem friendRemove_twice (s : session) (cid : string) (target : bytes)
    (rest : list bytes) (friendID : UUID) (w : World) :
  FromBytes target = Some friendID ->
  uuid_eqb friendID (UserID s) = false ->
  faults w = [] ->
  let request := mkEnvelope cid (Envelope_FriendsRemove (target :: rest)) in
  let w1 := snd (friendRemove s request w) in
  let w2 := snd (friendRemove s request w1) in
  fst (friendRemove s request w1) = Returned
  /\ db w2 = db w1
  /\ sent w2 = sent w1 ++ [mkEnvelope cid Envelope_nil].
Proof.
  intros HF Hne Hfl request w1 w2.
  assert (Hdiff : Bytes (UserID s) <> target).
  { apply uuid_eqb_false in Hne. rewrite (FromBytes_Bytes _ _ HF) in Hne. simpl in Hne.
    congruence. }
  destruct (friendRemove_effect s cid target rest friendID w HF Hne Hfl)
    as (_ & Hdb1 & _ & Hf1).
  fold request w1 in Hdb1, Hf1.
  destruct (friendRemove_effect s cid target rest friendID w1 HF Hne Hf1)
    as (Hret & Hdb2 & Hsent2 & _).
  fold request w2 in Hdb2, Hsent2, Hret.
  split; [exact Hret|]. split; [|exact Hsent2].
  rewrite Hdb2.
  assert (H1 : edges_between (db w1) (Bytes (UserID s)) target = []).
  { rewrite Hdb1. rewrite edges_between_remove_other by congruence.
    apply edges_between_remove_same. }
  assert (H2 : edges_between (db w1) target (Bytes (UserID s)) = []).
  { rewrite Hdb1. apply edges_between_remove_same. }
  rewrite (remove_direction_absent _ _ _ (db w1) H1).
  apply remove_direction_absent. exact H2.
Qed.

Lemma friendRemove_twice_witness :
  let request := mkEnvelope "c1" (Envelope_FriendsRemove [userB]) in
  let w := world_of friends_AB [] in
  let w1 := snd (friendRemove sessionA request w) in
  let w2 := snd (friendRemove sessionA request w1) in
  (FromBytes userB = Some (mkUUID userB)
   /\ uuid_eqb (mkUUID userB) (UserID sessionA) = false
   /\ faults w = [])
  /\ db w1 <> db w
  /\ db w2 = db w1
  /\ sent w2 = [mkEnvelope "c1" Envelope_nil; mkEnvelope "c1" Envelope_nil].
Proof.
  intros request w w1 w2.
  destruct (friendRemove_twice sessionA "c1" userB [] (mkUUID userB) w
              eq_refl eq_refl eq_refl) as (_ & H2 & H3).
  split; [repeat split|]. split; [|split; [exact H2 | exact H3]].
  intros H. apply (f_equal user_edge) in H. vm_compute in H. discriminate H.
Defined.

(** A block of a valid target, when the store answers every call. *)
Lemma friendBlock_effect (s : session) (cid : string) (target : bytes)
    (rest : list bytes) (userID : UUID) (w : World) :
  FromBytes target = Some userID ->
  uuid_eqb userID (UserID s) = false ->
  faults w = [] ->
  let r := friendBlock s (mkEnvelope cid (Envelope_FriendsBlock (target :: rest))) w in
  fst r = Returned
  /\ faults (snd r) = []
  /\ match block_effect (Bytes (UserID s)) target
             (clock w (ticks w)) (clock w (S (ticks w))) (db w) with
     | None =>
         db (snd r) = db w
         /\ sent (snd r) = sent w ++ [ErrorMessageRuntimeException cid "Could not block user"]
     | Some d' =>
         db (snd r) = d' /\ sent (snd r) = sent w ++ [mkEnvelope cid Envelope_nil]
     end.
Proof.
  intros HF Hne Hfl r. subst r.
  rewrite (friendBlock_valid s cid target rest userID w HF Hne).
  destruct (when_log_frame (len (target :: rest) >? 1) LWarn
              "There are more than one user ID passed to the request - only processing the first item of the list." w)
    as (Hdb & _ & Hfaults & Hclock & Hticks & Hsent & _).
  set (w1 := snd (when _ _ w)) in *.
  assert (Hf1 : faults w1 = []) by congruence.
  pose proof (friendBlock_transaction_settles s
                (mkEnvelope cid (Envelope_FriendsBlock (target :: rest))) target w1 Hf1)
    as Hsettle.
  destruct (friendBlock_transaction_run s
              (mkEnvelope cid (Envelope_FriendsBlock (target :: rest))) target w1 Hf1)
    as (w' & Hrun & _ & Heff).
  rewrite Hrun in Hsettle |- *. cbn [fst snd CollationId] in *.
  rewrite Hdb, Hclock, Hticks, Hsent in Heff. auto.
Qed.

Lemma count_rows_nonzero (es : list EdgeRow) (a b : bytes) :
  rows_between es a b <> [] -> (count_where (edge_matches a b) es =? 0) = false.
Proof.
  unfold rows_between, count_where. destruct (filter _ es); [contradiction|].
  intros _. apply Z.eqb_neq. cbn [List.length]. lia.
Qed.

(** After a block, every row left from the target to the caller is a
    block of its own. *)
Lemma block_effect_peer_rows (a b : bytes) (now1 now2 : Z) (d d' : DB) :
  a <> b ->
  block_effect a b now1 now2 d = Some d' ->
  edges_between d' a b
  = map (fun r => mkEdgeRow (e_source_id r) (e_position r) now1 (e_destination_id r) 3)
        (edges_between d a b)
  /\ edges_between d a b <> []
  /\ forall r, In r (edges_between d' b a) -> e_state r = 3.
Proof.
  intros Hne Heff. unfold block_effect in Heff.
  destruct (count_where (edge_matches a b) (user_edge d) =? 0) eqn:E0; [discriminate|].
  assert (Hrows : edges_between d a b <> []).
  { unfold edges_between, rows_between. intros H. unfold count_where in E0.
    rewrite H in E0. discriminate. }
  assert (Hpeer : forall r,
             In r (edges_between (delete_edge_not_blocked b a (block_edge a b now1 d)) b a) ->
             e_state r = 3).
  { intros r Hin. unfold edges_between, rows_between, delete_edge_not_blocked in Hin.
    cbn [user_edge with_user_edge] in Hin.
    apply filter_In in Hin as [Hin Hm]. unfold delete_where in Hin.
    apply filter_In in Hin as [_ Hnb]. unfold not_blocked in Hnb. rewrite Hm in Hnb.
    cbn in Hnb. rewrite negb_involutive in Hnb. apply Z.eqb_eq. assumption. }
  cbv zeta in Heff.
  destruct (count_where _ _ =? 1); injection Heff as <-.
  - rewrite !edges_between_decrement, blocked_rows_forward by assumption. auto.
  - rewrite blocked_rows_forward by assumption. auto.
Qed.

(** A block of a target none of whose rows to the caller is anything but
    a block: nothing is deleted and no counter moves. *)
Lemma block_effect_peer_blocked (a b : bytes) (now1 now2 : Z) (d : DB) :
  a <> b ->
  edges_between d a b <> [] ->
  (forall r, In r (edges_between d b a) -> e_state r = 3) ->
  exists d',
    block_effect a b now1 now2 d = Some d'
    /\ user_edge_metadata d' = user_edge_metadata d
    /\ edges_between d' b a = edges_between d b a.
Proof.
  intros Hne Hrows Hall. unfold block_effect.
  rewrite (count_rows_nonzero _ _ _ Hrows).
  rewrite count_not_blocked by assumption.
  assert (Hnone : filter (fun r => negb (e_state r =? 3)) (rows_between (user_edge d) b a) = []).
  { destruct (filter _ _) as [|r rs] eqn:E; [reflexivity|].
    assert (Hin : In r (filter (fun r => negb (e_state r =? 3))
                          (rows_between (user_edge d) b a)))
      by (rewrite E; left; reflexivity).
    apply filter_In in Hin as [Hin Hs]. apply Hall in Hin. rewrite Hin in Hs. discriminate. }
  unfold count_where at 1. rewrite Hnone. cbn [List.length Z.of_nat Z.eqb].
  eexists. split; [reflexivity|]. split; [reflexivity|].
  unfold edges_between, rows_between, delete_edge_not_blocked.
  cbn [user_edge with_user_edge].
  rewrite filter_delete_commute.
  fold (rows_between (user_edge (block_edge a b now1 d)) b a).
  rewrite blocked_rows_backward by assumption.
  apply delete_where_none. unfold not_blocked.
  rewrite filter_and.
  unfold rows_between in Hnone |- *.
  assert (Hsame : filter (edge_matches b a) (filter (edge_matches b a) (user_edge d))
                  = filter (edge_matches b a) (user_edge d)).
  { clear. induction (user_edge d) as [|x l IH]; [reflexivity|].
    cbn [filter]. destruct (edge_matches b a x) eqn:E; [|assumption].
    cbn [filter]. rewrite E, IH. reflexivity. }
  rewrite Hsame. exact Hnone.
Qed.

(** X6. Blocking the same user a second time succeeds and moves no
    counter: when the store answers every call and a row leads from the
    caller to the target, the second block is acknowledged, leaves
    user_edge_metadata and the rows from the target to the caller as the
    first block left them, and only sets the time of the caller's rows,
    which the first block had already marked BLOCKED. *)
Theorem friendBlock_twice (s : session) (cid : string) (target : bytes)
    (rest : list bytes) (userID : UUID) (w : World) :
  FromBytes target = Some userID ->
  uuid_eqb userID (UserID s) = false ->
  faults w = [] ->
  edges_between (db w) (Bytes (UserID s)) target <> [] ->
  let caller := Bytes (UserID s) in
  let request := mkEnvelope cid (Envelope_FriendsBlock (target :: rest)) in
  let w1 := snd (friendBlock s request w) in
  let w2 := snd (friendBlock s request w1) in
  fst (friendBlock s request w1) = Returned
  /\ sent w2 = sent w1 ++ [mkEnvelope cid Envelope_nil]
  /\ user_edge_metadata (db w2) = user_edge_metadata (db w1)
  /\ edges_between (db w2) target caller = edges_between (db w1) target caller
  /\ (forall r, In r (edges_between (db w1) caller target) -> e_state r = BLOCKED)
  /\ edges_between (db w2) caller target
     = map (fun r => mkEdgeRow (e_source_id r) (e_position r) (clock w1 (ticks w1))
                               (e_destination_id r) BLOCKED)
           (edges_between (db w1) caller target).
Proof.
  intros HF Hne Hfl Hrows caller request w1 w2.
  assert (Hdiff : caller <> target).
  { apply uuid_eqb_false in Hne. rewrite (FromBytes_Bytes _ _ HF) in Hne. simpl in Hne.
    unfold caller. congruence. }
  fold caller in Hrows.
  destruct (friendBlock_effect s cid target rest userID w HF Hne Hfl)
    as (_ & Hf1 & Heff1).
  fold request w1 caller in Hf1, Heff1.
  destruct (block_effect caller target (clock w (ticks w)) (clock w (S (ticks w))) (db w))
    as [d1|] eqn:E1.
  2:{ exfalso. unfold block_effect in E1.
      unfold edges_between in Hrows.
      rewrite (count_rows_nonzero _ _ _ Hrows) in E1. discriminate. }
  destruct Heff1 as [Hdb1 _].
  destruct (block_effect_peer_rows caller target _ _ (db w) d1 Hdiff E1)
    as (Hfwd1 & _ & Hpeer1).
  rewrite <- Hdb1 in Hfwd1, Hpeer1.
  assert (Hrows1 : edges_between (db w1) caller target <> []).
  { rewrite Hfwd1. destruct (edges_between (db w) caller target); [contradiction|].
    discriminate. }
  destruct (friendBlock_effect s cid target rest userID w1 HF Hne Hf1)
    as (Hret & _ & Heff2).
  fold request w2 caller in Hret, Heff2.
  destruct (block_effect_peer_blocked caller target (clock w1 (ticks w1))
              (clock w1 (S (ticks w1))) (db w1) Hdiff Hrows1 Hpeer1)
    as (d2 & E2 & Hmeta & Hback).
  rewrite E2 in Heff2. destruct Heff2 as [Hdb2 Hsent2].
  destruct (block_effect_peer_rows caller target _ _ (db w1) d2 Hdiff E2)
    as (Hfwd2 & _ & _).
  rewrite <- Hdb2 in Hmeta, Hback, Hfwd2.
  split; [exact Hret|]. split; [exact Hsent2|]. split; [exact Hmeta|].
  split; [exact Hback|]. split; [|exact Hfwd2].
  intros r Hin. rewrite Hfwd1 in Hin. apply in_map_iff in Hin as (r0 & <- & _).
  reflexivity.
Qed.

Lemma friendBlock_twice_witness :
  let request := mkEnvelope "c1" (Envelope_FriendsBlock [userB]) in
  let w := world_of friends_AB [] in
  let w1 := snd (friendBlock sessionA request w) in
  let w2 := snd (friendBlock sessionA request w1) in
  (FromBytes userB = Some (mkUUID userB)
   /\ uuid_eqb (mkUUID userB) (UserID sessionA) = false
   /\ faults w = []
   /\ edges_between (db w) (Bytes (UserID sessionA)) userB <> [])
  /\ sent w2 = [mkEnvelope "c1" Envelope_nil; mkEnvelope "c1" Envelope_nil]
  /\ user_edge_metadata (db w2) = user_edge_metadata (db w1)
  /\ edges_between (db w2) userA userB = [mkEdgeRow userA 5 102 userB BLOCKED].
Proof.
  intros request w w1 w2.
  assert (Hrows : edges_between (db w) (Bytes (UserID sessionA)) userB <> [])
    by (vm_compute; discriminate).
  destruct (friendBlock_twice sessionA "c1" userB [] (mkUUID userB) w
              eq_refl eq_refl eq_refl Hrows) as (_ & H2 & H3 & _ & _ & H6).
  split; [repeat split; assumption|].
  split; [exact H2|]. split; [exact H3 | exact H6].
Defined.

(** ** Targets that cannot be read *)

Section UnreadableTargets.

Variable core_friendAdd : bytes -> string -> bytes -> M (option GoError).
Variable core_friendAddHandle : bytes -> string -> string -> M (option GoError).

(** X7. A target id that is not 16 bytes long, the empty id included, is
    rejected by add, remove and block alike with one validation error,
    before any call to the store; so is an add by an empty handle. *)
Theorem unreadable_target_rejected (s : session) (cid : string) (target : bytes)
    (w : World) :
  FromBytes target = None ->
  (forall rest,
      rejected cid w
        (friendAdd core_friendAdd core_friendAddHandle s
           (mkEnvelope cid (Envelope_FriendsAdd
                              (TFriendsAdd_FriendsAdd_UserId target :: rest))) w))
  /\ (forall rest,
         rejected cid w
           (friendAdd core_friendAdd core_friendAddHandle s
              (mkEnvelope cid (Envelope_FriendsAdd
                                 (TFriendsAdd_FriendsAdd_Handle "" :: rest))) w))
  /\ (forall rest,
         rejected cid w
           (friendRemove s (mkEnvelope cid (Envelope_FriendsRemove (target :: rest))) w))
  /\ (forall rest,
         rejected cid w
           (friendBlock s (mkEnvelope cid (Envelope_FriendsBlock (target :: rest))) w)).
Proof.
  intros HF. split; [|split; [|split]]; intros rest.
  - unfold friendAdd. cbn [GetFriendsAdd Payload CollationId].
    unfold bind at 1. destruct (when _ _ w) as [[] w1] eqn:Ew.
    apply (rejected_after_warning cid
             (len (TFriendsAdd_FriendsAdd_UserId target :: rest) >? 1)
             "There are more than one friend passed to the request - only processing the first item of the list.").
    rewrite Ew. cbn [snd]. unfold friendAddById. cbn [CollationId]. rewrite HF.
    destruct (len target =? 0); [apply rejected_send | apply rejected_log_send].
  - unfold friendAdd. cbn [GetFriendsAdd Payload CollationId].
    unfold bind at 1. destruct (when _ _ w) as [[] w1] eqn:Ew.
    apply (rejected_after_warning cid
             (len (TFriendsAdd_FriendsAdd_Handle "" :: rest) >? 1)
             "There are more than one friend passed to the request - only processing the first item of the list.").
    rewrite Ew. cbn [snd]. unfold friendAddByHandle. cbn [CollationId].
    apply rejected_send.
  - destruct (friendRemove_cases s cid (target :: rest) w) as [H | H]; [exact H|].
    destruct H as (first & rest' & friendID & Hids & HF' & _).
    injection Hids as <- <-. congruence.
  - destruct (friendBlock_cases s cid (target :: rest) w) as [H | H]; [exact H|].
    destruct H as (first & rest' & userID & Hids & HF' & _).
    injection Hids as <- <-. congruence.
Qed.

End UnreadableTargets.

Lemma unreadable_target_rejected_witness :
  FromBytes [x01; x02; x03] = None
  /\ rejected "c1" (world_of friends_AB [])
       (friendRemove sessionA (mkEnvelope "c1" (Envelope_FriendsRemove [[x01; x02; x03]]))
          (world_of friends_AB []))
  /\ sent (snd (friendRemove sessionA
                  (mkEnvelope "c1" (Envelope_FriendsRemove [[x01; x02; x03]]))
                  (world_of friends_AB [])))
     = [ErrorMessageBadInput "c1" "Invalid User ID"].
Proof.
  split; [reflexivity|].
  destruct (unreadable_target_rejected (@core_accepts bytes) (@core_accepts string)
              sessionA "c1" [x01; x02; x03] (world_of friends_AB []) eq_refl)
    as (_ & _ & H & _).
  split; [exact (H []) | reflexivity].
Defined.

(** ** friendAdd on a target that passes the checks *)

Section FriendAddOutcome.

Variable core_friendAdd : bytes -> string -> bytes -> M (option GoError).
Variable core_friendAddHandle : bytes -> string -> string -> M (option GoError).

(** X8. An add by the id of another user is handed to the core function
    with the caller's id, the caller's handle and that id, and is
    answered by its outcome alone: the acknowledgement when it returns
    no error, the runtime failure "Failed to add friend" when it returns
    one.  The handler itself writes nothing: the tables and the calls to
    the store are those the core function leaves. *)
Theorem friendAdd_by_id_outcome (s : session) (cid : string) (target : bytes)
    (friendID : UUID) (w : World) :
  FromBytes target = Some friendID ->
  uuid_eqb friendID (UserID s) = false ->
  let request :=
    mkEnvelope cid (Envelope_FriendsAdd [TFriendsAdd_FriendsAdd_UserId target]) in
  let core := core_friendAdd (Bytes (UserID s)) (SessionHandle s) target w in
  let r := friendAdd core_friendAdd core_friendAddHandle s request w in
  fst r = Returned
  /\ sent (snd r)
     = sent w ++ [if is_nil (fst core) then mkEnvelope cid Envelope_nil
                  else ErrorMessageRuntimeException cid "Failed to add friend"]
  /\ db (snd r) = db (snd core)
  /\ calls (snd r) = calls (snd core)
  /\ dispatched (snd r) = dispatched (snd core).
Proof.
  intros HF Hne request core r. subst r request core.
  unfold friendAdd. cbn [GetFriendsAdd Payload CollationId].
  change (len [TFriendsAdd_FriendsAdd_UserId target] >? 1) with false.
  unfold friendAddById. cbn [CollationId].
  rewrite (len_nonzero_of_uuid _ _ HF), HF, Hne.
  rewrite (FromBytes_Bytes _ _ HF). cbn [Bytes].
  unfold bind, when, ret, without_session.
  destruct (core_friendAdd (Bytes (UserID s)) (SessionHandle s) target w) as [[e|] w2];
    repeat split; reflexivity.
Qed.

(** X9. An add by a handle that is neither empty nor the caller's own is
    handed to the core function with the caller's id, the caller's handle
    and that handle, and is answered by its outcome alone. *)
Theorem friendAdd_by_handle_outcome (s : session) (cid : string) (friendHandle : string)
    (w : World) :
  friendHandle <> "" ->
  friendHandle <> SessionHandle s ->
  let request :=
    mkEnvelope cid (Envelope_FriendsAdd [TFriendsAdd_FriendsAdd_Handle friendHandle]) in
  let core := core_friendAddHandle (Bytes (UserID s)) (SessionHandle s) friendHandle w in
  let r := friendAdd core_friendAdd core_friendAddHandle s request w in
  fst r = Returned
  /\ sent (snd r)
     = sent w ++ [if is_nil (fst core) then mkEnvelope cid Envelope_nil
                  else ErrorMessageRuntimeException cid "Failed to add friend"]
  /\ db (snd r) = db (snd core)
  /\ calls (snd r) = calls (snd core)
  /\ dispatched (snd r) = dispatched (snd core).
Proof.
  intros Hne Hself request core r. subst r request core.
  unfold friendAdd. cbn [GetFriendsAdd Payload CollationId].
  change (len [TFriendsAdd_FriendsAdd_Handle friendHandle] >? 1) with false.
  unfold friendAddByHandle. cbn [CollationId].
  apply String.eqb_neq in Hne. apply String.eqb_neq in Hself. rewrite Hne, Hself.
  cbn [orb]. unfold bind, when, ret, without_session.
  destruct (core_friendAddHandle (Bytes (UserID s)) (SessionHandle s) friendHandle w)
    as [[e|] w2]; repeat split; reflexivity.
Qed.

End FriendAddOutcome.

Lemma friendAdd_by_id_outcome_witness :
  let request :=
    mkEnvelope "c1" (Envelope_FriendsAdd [TFriendsAdd_FriendsAdd_UserId userC]) in
  let w := world_of friends_AB [] in
  (FromBytes userC = Some (mkUUID userC)
   /\ uuid_eqb (mkUUID userC) (UserID sessionA) = false)
  /\ sent (snd (friendAdd (@core_refuses bytes) (@core_refuses string) sessionA request w))
     = [ErrorMessageRuntimeException "c1" "Failed to add friend"]
  /\ sent (snd (friendAdd (@core_accepts bytes) (@core_accepts string) sessionA request w))
     = [mkEnvelope "c1" Envelope_nil].
Proof.
  intros request w. split; [split; reflexivity|].
  destruct (friendAdd_by_id_outcome (@core_refuses bytes) (@core_refuses string)
              sessionA "c1" userC (mkUUID userC) w eq_refl eq_refl) as (_ & H1 & _).
  destruct (friendAdd_by_id_outcome (@core_accepts bytes) (@core_accepts string)
              sessionA "c1" userC (mkUUID userC) w eq_refl eq_refl) as (_ & H2 & _).
  split; [exact H1 | exact H2].
Defined.

Lemma friendAdd_by_handle_outcome_witness :
  let request :=
    mkEnvelope "c1" (Envelope_FriendsAdd [TFriendsAdd_FriendsAdd_Handle "c"]) in
  let w := world_of friends_AB [] in
  ("c" <> "" /\ "c" <> SessionHandle sessionA)
  /\ sent (snd (friendAdd (@core_refuses bytes) (@core_refuses string) sessionA request w))
     = [ErrorMessageRuntimeException "c1" "Failed to add friend"]
  /\ sent (snd (friendAdd (@core_accepts bytes) (@core_accepts string) sessionA request w))
     = [mkEnvelope "c1" Envelope_nil].
Proof.
  intros request w.
  assert (H1 : "c" <> "") by discriminate.
  assert (H2 : "c" <> SessionHandle sessionA) by discriminate.
  split; [split; assumption|].
  destruct (friendAdd_by_handle_outcome (@core_refuses bytes) (@core_refuses string)
              sessionA "c1" "c" w H1 H2) as (_ & H3 & _).
  destruct (friendAdd_by_handle_outcome (@core_accepts bytes) (@core_accepts string)
              sessionA "c1" "c" w H1 H2) as (_ & H4 & _).
  split; [exact H3 | exact H4].
Defined.

(** ** Reading: friendsList and querySocialGraph *)

(** X10. Listing friends only reads: whatever the store answers, the
    handler makes one query and no other call to the store, leaves the
    tables and the transaction state as they were, dispatches nothing and
    sends exactly one response; when the query fails that response is
    the runtime failure "Could not get friends". *)
Theorem friendsList_only_reads (E : Engine) (s : session) (envelope : Envelope) (w : World) :
  let w' := snd (friendsList E s envelope w) in
  db w' = db w
  /\ tx w' = tx w
  /\ dispatched w' = dispatched w
  /\ (exists ok, calls w' = calls w ++ [(CallQuery, ok)])
  /\ (exists response, sent w' = sent w ++ [response])
  /\ (hd None (faults w) <> None ->
      sent w' = sent w ++ [ErrorMessageRuntimeException (CollationId envelope)
                             "Could not get friends"]
      /\ logged w' = logged w ++ [(LError, "Could not get friends")]).
Proof.
  destruct w as [d t fs ck tk us ud fbk ex snt lg cl dp].
  unfold friendsList, getFriends, getFriends_rows.
  destruct fs as [|[e|] fs]; run;
    (split; [reflexivity|]); (split; [reflexivity|]); (split; [reflexivity|]);
    (split; [eexists; reflexivity|]); (split; [eexists; reflexivity|]); intros H.
  - contradiction H. reflexivity.
  - split; reflexivity.
  - contradiction H. reflexivity.
Qed.


(** ** addFacebookFriends, whatever the store answers *)

Lemma make_notifications_eq (userID : bytes) (content : list (string * string))
    (ts expiresAt : Z) (ids : list bytes)
    (d : DB) (t : option DB) (fs : list (option GoError)) (ck : nat -> Z) (tk : nat)
    (us : nat -> bytes) (ud : nat) (fbk : string -> list string * option GoError)
    (ex : Z) (snt : list Envelope) (lg : list (Level * string))
    (cl : list (StoreCall * bool)) (dp : list (list NNotification)) :
  make_notifications userID content ts expiresAt ids
    (mkWorld d t fs ck tk us ud fbk ex snt lg cl dp)
  = (notifications_for us ud userID content ts expiresAt ids,
     mkWorld d t fs ck tk us (ud + List.length ids)%nat fbk ex snt lg cl dp).
Proof.
  revert ud. induction ids as [|fid ids IH]; intros ud.
  - simpl. rewrite Nat.add_0_r. reflexivity.
  - cbn [make_notifications notifications_for List.length].
    unfold bind at 1. unfold NewV4 at 1. cbn [uuid_source uuid_drawn db tx faults clock ticks
      facebook expiryMs sent logged calls dispatched].
    unfold bind at 1. rewrite IH. unfold ret. rewrite Nat.add_succ_r. reflexivity.
Qed.

Lemma notifications_for_recipients (us : nat -> bytes) (ud : nat) (userID : bytes)
    (content : list (string * string)) (ts expiresAt : Z) (ids : list bytes) :
  map NUserID (notifications_for us ud userID content ts expiresAt ids) = ids.
Proof.
  revert ud. induction ids as [|fid ids IH]; intros ud; simpl; [|rewrite IH]; reflexivity.
Qed.


Lemma notifications_for_ids (us : nat -> bytes) (ud : nat) (userID : bytes)
    (content : list (string * string)) (ts expiresAt : Z) (ids : list bytes) :
  map NId (notifications_for us ud userID content ts expiresAt ids)
  = map us (seq ud (List.length ids)).
Proof.
  revert ud. induction ids as [|fid ids IH]; intros ud; simpl; [|rewrite IH]; reflexivity.
Qed.

Lemma len_match_params (userID : bytes) (ts : Z) (rows : list bytes) :
  (len ([PBytes userID; PInt ts] ++ map PBytes rows) <=? 2)
  = match rows with [] => true | _ :: _ => false end.
Proof.
  destruct rows as [|p ps]; [reflexivity|]. apply (len_params userID ts p ps).
Qed.

Lemma scan_nil (E : Engine) (A : Type) : scan E (@nil A) = [].
Proof.
  apply Permutation_nil. apply Permutation_sym. apply scan_perm.
Qed.

Lemma len_nil_zero (A : Type) : (len (@nil A) =? 0) = true.
Proof. reflexivity. Qed.

(** What an import does, whatever the social client and the store
    answer. *)
Lemma addFacebookFriends_shape (E : Engine) (userID : bytes)
    (handle fbid accessToken : string) (w : World) :
  let w' := snd (addFacebookFriends E userID handle fbid accessToken w) in
  let ts := clock w (ticks w) in
  sent w' = sent w
  /\ exists added,
      calls w' = calls w ++ added
      /\ transactions_closed added = true
      /\ (db w' = db w \/ last added (CallBegin, false) = (CallCommit, true))
      /\ (dispatched w' = dispatched w
          \/ (last added (CallBegin, false) = (CallCommit, true)
              /\ exists peers,
                  dispatched w'
                  = dispatched w
                    ++ [notifications_for (uuid_source w) (uuid_drawn w) userID
                          [("facebook_id", fbid); ("handle", handle)]
                          ts (ts + expiryMs w) peers]
                  /\ peers <> [])).
Proof.
  destruct w as [d t fs ck tk us ud fbk ex snt lg cl dp].
  unfold addFacebookFriends, addFacebookFriends_body, addFacebookFriends_deferred.
  run. destruct (fbk accessToken) as [[|f fr] [e|]].
  all: repeat (run;
               first
                 [ rewrite collect_params_app
                 | rewrite len_match_params
                 | rewrite len_cons_nonzero
                 | rewrite len_nil_zero
                 | rewrite make_notifications_eq
                 | rewrite param_ids_map
                 | progress cbn [app map param_ids skipn]
                 | match goal with
                   | |- context [hd None ?fs] => is_var fs; destruct fs as [|[?|] ?]
                   | |- context [scan ?E0 ?l] => destruct (scan E0 l) as [|? ?]
                   | |- context [if ?c then _ else _] => destruct c
                   end ]);
    run.
  all: (split; [reflexivity|]).
  all: first [ exists []; rewrite app_nil_r; split; [reflexivity|]
             | rewrite <- ?app_assoc; eexists; split; [reflexivity|] ].
  all: (split; [reflexivity|]).
  all: try (match goal with
            | |- context [increment_counts ?ps _ _] =>
                split;
                [ solve [left; reflexivity | right; reflexivity]
                | right; split;
                  [reflexivity | exists ps; split; [reflexivity | discriminate]] ]
            end).
  all: split; solve [left; reflexivity | right; reflexivity].
Qed.

(** X12. An import never answers the session and is all or nothing:
    whatever the social client and the store answer, nothing is sent,
    every transaction that was opened is closed exactly once (and there
    is at most one), the tables are those it found unless its last call
    to the store is a Commit that succeeded, and notifications are
    dispatched, in one batch, only after such a Commit. *)
Theorem addFacebookFriends_all_or_nothing (E : Engine) (userID : bytes)
    (handle fbid accessToken : string) (w : World) :
  let w' := snd (addFacebookFriends E userID handle fbid accessToken w) in
  sent w' = sent w
  /\ exists added,
      calls w' = calls w ++ added
      /\ transactions_closed added = true
      /\ (db w' = db w \/ last added (CallBegin, false) = (CallCommit, true))
      /\ (dispatched w' = dispatched w
          \/ (last added (CallBegin, false) = (CallCommit, true)
              /\ exists ns, dispatched w' = dispatched w ++ [ns])).
Proof.
  intros w'.
  destruct (addFacebookFriends_shape E userID handle fbid accessToken w)
    as (Hsent & added & Hcalls & Hclosed & Hdb & Hdisp).
  split; [exact Hsent|]. exists added.
  split; [exact Hcalls|]. split; [exact Hclosed|]. split; [exact Hdb|].
  destruct Hdisp as [H | (Hlast & peers & H & _)]; [left; exact H|].
  right. split; [exact Hlast|]. eexists. exact H.
Qed.



(** X13. When the social client fails or knows no friend of the user, the
    import stays away from the store: no transaction is opened, no call
    is made, nothing is dispatched or sent, and the tables are as they
    were. *)
Theorem addFacebookFriends_without_friends (E : Engine) (userID : bytes)
    (handle fbid accessToken : string) (w : World) :
  snd (facebook w accessToken) <> None \/ fst (facebook w accessToken) = [] ->
  let w' := snd (addFacebookFriends E userID handle fbid accessToken w) in
  calls w' = calls w
  /\ db w' = db w
  /\ tx w' = tx w
  /\ faults w' = faults w
  /\ dispatched w' = dispatched w
  /\ sent w' = sent w.
Proof.
  intros H.
  destruct w as [d t fs ck tk us ud fbk ex snt lg cl dp]. cbn [facebook] in H.
  unfold addFacebookFriends, addFacebookFriends_body, addFacebookFriends_deferred.
  run. destruct (fbk accessToken) as [[|f fr] [e|]]; run; try (repeat split; reflexivity).
  exfalso. destruct H as [H | H]; [apply H; reflexivity | discriminate H].
Qed.

Lemma addFacebookFriends_without_friends_witness :
  let w := mkWorld friends_AB None [] (fun n => 100 + Z.of_nat n) 0 (fun n => id_of x01) 0
                   (fun _ => ([], Some (OtherError "token expired"))) 1000 [] [] [] [] in
  (snd (facebook w "token") <> None \/ fst (facebook w "token") = [])
  /\ calls (snd (addFacebookFriends stored_order userA "a" "fa" "token" w)) = []
  /\ db (snd (addFacebookFriends stored_order userA "a" "fa" "token" w)) = friends_AB.
Proof.
  intros w.
  assert (H : snd (facebook w "token") <> None \/ fst (facebook w "token") = [])
    by (right; reflexivity).
  destruct (addFacebookFriends_without_friends stored_order userA "a" "fa" "token" w H)
    as (H1 & H2 & _).
  split; [exact H|]. split; [exact H1 | exact H2].
Defined.

(** X14. When none of the Facebook friends is a registered user, the
    import opens a transaction, runs its query and commits without a
    statement: the tables are as they were and nothing is dispatched. *)
Theorem addFacebookFriends_without_matches (E : Engine) (userID : bytes)
    (handle fbid accessToken : string) (w : World) :
  faults w = [] ->
  snd (facebook w accessToken) = None ->
  fst (facebook w accessToken) <> [] ->
  select_facebook_users (fst (facebook w accessToken)) (db w) = [] ->
  let w' := snd (addFacebookFriends E userID handle fbid accessToken w) in
  calls w' = calls w ++ [(CallBegin, true); (CallQuery, true); (CallCommit, true)]
  /\ db w' = db w
  /\ tx w' = None
  /\ dispatched w' = dispatched w
  /\ sent w' = sent w.
Proof.
  intros Hf Herr Hne Hnone.
  destruct w as [d t fs ck tk us ud fbk ex snt lg cl dp].
  cbn [facebook faults db] in *. subst fs.
  unfold addFacebookFriends, addFacebookFriends_body, addFacebookFriends_deferred.
  run. destruct (fbk accessToken) as [[|f fr] [e|]]; cbn [fst snd] in *;
    try contradiction; try discriminate.
  run. rewrite len_cons_nonzero. run. rewrite Hnone, scan_nil. run.
  change (len [PBytes userID; PInt (ck tk)] <=? 2) with true. run.
  rewrite <- !app_assoc. repeat split; reflexivity.
Qed.

Lemma addFacebookFriends_without_matches_witness :
  let w := mkWorld friends_AB None [] (fun n => 100 + Z.of_nat n) 0 (fun n => id_of x01) 0
                   (fun _ => (["zz"], None)) 1000 [] [] [] [] in
  let w' := snd (addFacebookFriends stored_order userA "a" "fa" "token" w) in
  (faults w = [] /\ snd (facebook w "token") = None /\ fst (facebook w "token") <> []
   /\ select_facebook_users (fst (facebook w "token")) (db w) = [])
  /\ map fst (calls w') = [CallBegin; CallQuery; CallCommit]
  /\ db w' = friends_AB.
Proof.
  intros w w'.
  assert (Hne : fst (facebook w "token") <> []) by discriminate.
  destruct (addFacebookFriends_without_matches stored_order userA "a" "fa" "token" w
              eq_refl eq_refl Hne eq_refl) as (H1 & H2 & _).
  split; [repeat split; assumption|].
  split; [|exact H2]. unfold w'. rewrite H1. reflexivity.
Defined.

Lemma addFacebookFriends_sets_count_witness :
  let w' := snd (addFacebookFriends stored_order userD "d" "fd" "token"
                   (mkWorld friends_AB None [] (fun n => 100 + Z.of_nat n) 0
                            (fun n => id_of x01) 0 (fun _ => (["fc"; "zz"], None))
                            1000 [] [] [] [])) in
  user_edge (db w')
  = user_edge friends_AB
    ++ [mkEdgeRow userD 100 100 userC CONNECTED; mkEdgeRow userC 100 100 userD CONNECTED]
  /\ count_of (db w') userD = Some 1
  /\ count_of (db w') userC = Some 1
  /\ map (map NUserID) (dispatched w') = [[userC]].
Proof.
  intros w'.
  assert (Hne : ["fc"; "zz"] <> []) by discriminate.
  assert (Hpeers : scan stored_order (select_facebook_users ["fc"; "zz"] friends_AB) <> [])
    by (vm_compute; discriminate).
  destruct (addFacebookFriends_sets_count stored_order userD "d" "fd" "token" ["fc"; "zz"]
              (mkWorld friends_AB None [] (fun n => 100 + Z.of_nat n) 0
                       (fun n => id_of x01) 0 (fun _ => (["fc"; "zz"], None))
                       1000 [] [] [] [])
              eq_refl eq_refl Hne Hpeers eq_refl) as (H1 & H2 & H3 & H4).
  split; [exact H1|]. split; [exact H2|].
  split; [|exact H4].
  assert (HC : userC <> userD) by discriminate.
  exact (H3 userC (or_introl eq_refl) HC).
Defined.

(** ** When friendRemove panics *)

Lemma friendRemove_transaction_completion (s : session) (envelope : Envelope)
    (friendIDBytes : bytes) (w : World) :
  let r := friendRemove_transaction s envelope friendIDBytes w in
  exists added,
    calls (snd r) = calls w ++ added
    /\ fst r = if delete_failed added then Panicked else Returned.
Proof.
  destruct w as [d t fs ck tk us ud fbk ex snt lg cl dp].
  unfold friendRemove_transaction, friendRemove_body, friendRemove_deferred.
  case_store; rewrite <- ?app_assoc; eexists; split; reflexivity.
Qed.

(** X17. A remove request panics exactly when the store refuses one of
    its two DELETE statements: the handler reads the number of deleted
    rows from the result before it looks at the error.  In every other
    case, a refused decrement, Begin or Commit included, it returns. *)
Theorem friendRemove_panics_on_failed_delete (s : session) (cid : string)
    (UserIds : list bytes) (w : World) :
  let r := friendRemove s (mkEnvelope cid (Envelope_FriendsRemove UserIds)) w in
  exists added,
    calls (snd r) = calls w ++ added
    /\ fst r = if delete_failed added then Panicked else Returned.
Proof.
  intros r. subst r.
  destruct (friendRemove_cases s cid UserIds w) as [Hrej | Hrun].
  - destruct Hrej as (Hret & _ & _ & _ & Hcalls & _).
    exists []. rewrite app_nil_r. split; assumption.
  - destruct Hrun as (first & rest & friendID & _ & _ & _ & Hrun). rewrite Hrun.
    destruct (when_log_frame (len UserIds >? 1) LWarn
                "There are more than one user ID passed to the request - only processing the first item of the list." w)
      as (_ & _ & _ & _ & _ & _ & Hcalls & _).
    rewrite <- Hcalls. apply friendRemove_transaction_completion.
Qed.

(** ** What remove and block leave alone *)

Lemma remove_direction_users (a b : bytes) (ts : Z) (d : DB) :
  users (remove_direction a b ts d) = users d.
Proof. unfold remove_direction. destruct (_ >? 0); reflexivity. Qed.

(** X18. A remove touches only the two users of the request: whatever
    the request and whatever the store answers, the profiles are as they
    were, the rows between any other ordered pair of users are as they
    were, and so is the counter of every user other than the caller and
    the target. *)
Theorem friendRemove_frame (s : session) (cid : string) (target : bytes)
    (rest : list bytes) (w : World) :
  let caller := Bytes (UserID s) in
  let d' := db (snd (friendRemove s (mkEnvelope cid (Envelope_FriendsRemove (target :: rest)))
                       w)) in
  users d' = users (db w)
  /\ (forall a b,
         (a, b) <> (caller, target) -> (a, b) <> (target, caller) ->
         edges_between d' a b = edges_between (db w) a b)
  /\ (forall u, u <> caller -> u <> target -> count_of d' u = count_of (db w) u).
Proof.
  intros caller d'. subst d'.
  destruct (friendRemove_cases s cid (target :: rest) w) as [Hrej | Hrun].
  - destruct Hrej as (_ & _ & Hdb & _). rewrite Hdb. auto.
  - destruct Hrun as (first & rest' & friendID & Hids & _ & _ & Hrun).
    injection Hids as <- <-. rewrite Hrun.
    destruct (when_log_frame (len (target :: rest) >? 1) LWarn
                "There are more than one user ID passed to the request - only processing the first item of the list." w)
      as (Hdb & _ & _ & Hclock & Hticks & _).
    destruct (friendRemove_transaction_outcome s
                (mkEnvelope cid (Envelope_FriendsRemove (target :: rest))) target
                (snd (when (len (target :: rest) >? 1)
                        (log LWarn "There are more than one user ID passed to the request - only processing the first item of the list.") w)))
      as [Hsame | Hdone].
    + rewrite Hsame, Hdb. auto.
    + rewrite Hdone, Hdb. fold caller. split; [|split].
      * rewrite !remove_direction_users. reflexivity.
      * intros a b H1 H2.
        rewrite !edges_between_remove_other by congruence. reflexivity.
      * intros u H1 H2.
        rewrite !count_of_remove_other by congruence. reflexivity.
Qed.

Lemma block_effect_frame (a b : bytes) (now1 now2 : Z) (d d' : DB) :
  block_effect a b now1 now2 d = Some d' ->
  users d' = users d
  /\ (forall c e, (c, e) <> (a, b) -> (c, e) <> (b, a) ->
                  edges_between d' c e = edges_between d c e)
  /\ (forall u, u <> b -> count_of d' u = count_of d u).
Proof.
  intros Heff.
  assert (Hedges : forall c e, (c, e) <> (a, b) -> (c, e) <> (b, a) ->
            edges_between (delete_edge_not_blocked b a (block_edge a b now1 d)) c e
            = edges_between d c e).
  { intros c e H1 H2. unfold edges_between, rows_between, delete_edge_not_blocked, block_edge.
    cbn [user_edge with_user_edge].
    rewrite filter_delete_disjoint.
    - apply filter_update_disjoint. intros r H. split.
      + apply (edge_matches_other a b c e); [congruence | assumption].
      + apply edge_matches_key in H. destruct (edge_matches c e _) eqn:E; [|reflexivity].
        apply edge_matches_key in E. unfold edge_key in *. cbn in E. congruence.
    - intros r H. unfold not_blocked in H. apply andb_true_iff in H as [H _].
      apply (edge_matches_other b a c e); [congruence | assumption]. }
  unfold block_effect in Heff. destruct (_ =? 0); [discriminate|]. cbv zeta in Heff.
  destruct (_ =? 1); injection Heff as <-.
  - split; [reflexivity|]. split.
    + intros c e H1 H2. rewrite edges_between_decrement. apply Hedges; assumption.
    + intros u Hu. rewrite count_of_decrement_other by congruence. reflexivity.
  - split; [reflexivity|]. split; [exact Hedges | reflexivity].
Qed.

(** X19. A block touches only the two users of the request, and never
    the caller's counter: whatever the request and whatever the store
    answers, the profiles are as they were, the rows between any other
    ordered pair of users are as they were, and so is the counter of
    every user other than the target. *)
Theorem friendBlock_frame (s : session) (cid : string) (target : bytes)
    (rest : list bytes) (w : World) :
  let caller := Bytes (UserID s) in
  let d' := db (snd (friendBlock s (mkEnvelope cid (Envelope_FriendsBlock (target :: rest)))
                       w)) in
  users d' = users (db w)
  /\ (forall a b,
         (a, b) <> (caller, target) -> (a, b) <> (target, caller) ->
         edges_between d' a b = edges_between (db w) a b)
  /\ (forall u, u <> target -> count_of d' u = count_of (db w) u).
Proof.
  intros caller d'. subst d'.
  destruct (friendBlock_cases s cid (target :: rest) w) as [Hrej | Hrun].
  - destruct Hrej as (_ & _ & Hdb & _). rewrite Hdb. auto.
  - destruct Hrun as (first & rest' & userID & Hids & _ & _ & Hrun).
    injection Hids as <- <-. rewrite Hrun.
    destruct (when_log_frame (len (target :: rest) >? 1) LWarn
                "There are more than one user ID passed to the request - only processing the first item of the list." w)
      as (Hdb & _ & _ & Hclock & Hticks & _).
    destruct (friendBlock_transaction_outcome s
                (mkEnvelope cid (Envelope_FriendsBlock (target :: rest))) target
                (snd (when (len (target :: rest) >? 1)
                        (log LWarn "There are more than one user ID passed to the request - only processing the first item of the list.") w)))
      as [Hsame | Hdone].
    + rewrite Hsame, Hdb. auto.
    + rewrite Hdb in Hdone. fold caller in Hdone.
      exact (block_effect_frame _ _ _ _ _ _ Hdone).
Qed.
